(** * dataexplorer: the dynamic-schema core, embedded and verified

    A shallow embedding of the TypeScript sources of the data explorer:
    the grid's read-side default resolution (components/table-view.tsx),
    the identifier normalizer and the sidebar orchestration
    (app/api/sidebar/route.ts and its later revision), the persistence
    service (lib/database.ts, PostgreSQL and MySQL revisions) over a
    relational store with the declared foreign keys, and the sidebar's
    tree builder. *)

From Stdlib Require Import ZArith String Ascii DecimalString.
From stdpp Require Import gmap list fin_maps sorting.

Set Warnings "-register-all".
Local Open Scope Z_scope.

(** ** JavaScript strings and values *)

(** A JavaScript string is a sequence of UTF-16 code units. *)
Abbreviation jsstring := (list Z).

(** Source-text literals: every character of an ASCII literal is one
    code unit. *)
Definition str (s : string) : jsstring :=
  (fun a => Z.of_nat (nat_of_ascii a)) <$> list_ascii_of_string s.

(** [String.prototype.toLowerCase] is a built-in driven by the Unicode
    case tables; the embedding keeps it as an operation of the runtime. *)
Class JsRuntime := { toLowerCase : jsstring -> jsstring }.

(** The values a JSON payload can carry ([row_data] is [Record<string, any>]
    filled from [request.json()]), and the built-in functions that a
    property read finds on [Object.prototype].  Numbers are kept as
    integers: the code modelled here only ever tests a number for being
    zero. *)
Inductive JsValue : Type :=
| JNull
| JBool (b : bool)
| JNumber (n : Z)
| JString (s : jsstring)
| JArray (elts : list JsValue)
| JObject (fields : list (jsstring * JsValue))
| JFunction (name : jsstring).   (* [Object.prototype[name]] *)

(** Truthiness of the result of a property read: [None] is [undefined]. *)
Definition truthy (v : option JsValue) : bool :=
  match v with
  | None => false
  | Some JNull => false
  | Some (JBool b) => b
  | Some (JNumber n) => negb (n =? 0)
  | Some (JString s) => negb (bool_decide (s = []))
  | Some (JArray _) => true
  | Some (JObject _) => true
  | Some (JFunction _) => true
  end.

(** [v === n] for a number [n]: a value of another type is not equal
    to it. *)
Definition strict_equal_number (v : JsValue) (n : Z) : bool :=
  match v with
  | JNumber m => m =? n
  | _ => false
  end.

(** The decimal digits of a natural number. *)
Definition decimal (n : nat) : jsstring :=
  str (NilZero.string_of_uint (Nat.to_uint n)).

(** [a || b] where [a] is a property read. *)
Definition js_or (a : option JsValue) (b : JsValue) : JsValue :=
  match a with
  | Some v => if truthy a then v else b
  | None => b
  end.

(** The properties every plain object inherits from [Object.prototype]:
    eleven built-in functions and the accessor [__proto__]. *)
Definition object_prototype_functions : list jsstring :=
  [str "constructor"; str "hasOwnProperty"; str "isPrototypeOf";
   str "propertyIsEnumerable"; str "toLocaleString"; str "toString";
   str "valueOf"; str "__defineGetter__"; str "__defineSetter__";
   str "__lookupGetter__"; str "__lookupSetter__"].

Definition object_prototype_keys : list jsstring :=
  object_prototype_functions ++ [str "__proto__"].

(** [o[k]] on an object that [JSON.parse] made: the object's own
    property if it has one, else what [Object.prototype] holds under
    [k]: a function, or under [__proto__] the prototype itself, an object
    with no enumerable property of its own; [None] is [undefined]. *)
Definition get_property (o : gmap (list Z) JsValue) (k : jsstring)
    : option JsValue :=
  match o !! k with
  | Some v => Some v
  | None =>
      if bool_decide (k ∈ object_prototype_functions) then Some (JFunction k)
      else if bool_decide (k = str "__proto__") then Some (JObject [])
      else None
  end.

(** [JSON.stringify] leaves out the properties of an object whose value
    is a function. *)
Definition is_function (v : JsValue) : bool :=
  match v with JFunction _ => true | _ => false end.

Definition json_properties (o : gmap (list Z) JsValue)
    : gmap (list Z) JsValue :=
  filter (fun kv => is_function kv.2 = false) o.

(** ** Dates: [new Date().toISOString().split("T")[0]] *)

(** The UTC fields of a time value, as [toISOString] reads them. *)
Record JsDate : Type := mkJsDate {
  utcFullYear : Z;
  utcMonth : Z;        (* 1..12, as printed *)
  utcDate : Z;         (* 1..31 *)
  utcHours : Z;
  utcMinutes : Z;
  utcSeconds : Z;
  utcMilliseconds : Z
}.

Definition digit (n : Z) : Z := 48 + n mod 10.
Definition pad2 (n : Z) : jsstring := [digit (n / 10); digit n].
Definition pad3 (n : Z) : jsstring := digit (n / 100) :: pad2 n.
Definition pad4 (n : Z) : jsstring := digit (n / 1000) :: pad3 n.
Definition pad6 (n : Z) : jsstring :=
  digit (n / 100000) :: digit (n / 10000) :: pad4 n.

(** Years 0..9999 print as four digits, the others as a sign and six. *)
Definition isoYear (y : Z) : jsstring :=
  if (0 <=? y) && (y <=? 9999) then pad4 y
  else if y <? 0 then str "-" ++ pad6 (- y)
  else str "+" ++ pad6 y.

Definition toISOString (d : JsDate) : jsstring :=
  isoYear (utcFullYear d) ++ str "-" ++ pad2 (utcMonth d) ++ str "-" ++
  pad2 (utcDate d) ++ str "T" ++ pad2 (utcHours d) ++ str ":" ++
  pad2 (utcMinutes d) ++ str ":" ++ pad2 (utcSeconds d) ++ str "." ++
  pad3 (utcMilliseconds d) ++ str "Z".

(** [s.split(sep)[0]] for a one-unit separator: the part before its
    first occurrence, the whole string when there is none. *)
Fixpoint split_head (sep : Z) (s : jsstring) : jsstring :=
  match s with
  | [] => []
  | c :: rest => if c =? sep then [] else c :: split_head sep rest
  end.

(** ** The identifier normalizer

    [name.toLowerCase().replace(/\s+/g, "_").replace(/[^a-z0-9_]/g, "")]
    (app/api/sidebar/route.ts, POST). *)

(** The code units matched by [\s]. *)
Definition is_whitespace (c : Z) : bool :=
  ((9 <=? c) && (c <=? 13)) || (c =? 32) || (c =? 160) || (c =? 5760) ||
  ((8192 <=? c) && (c <=? 8202)) || (c =? 8232) || (c =? 8233) ||
  (c =? 8239) || (c =? 8287) || (c =? 12288) || (c =? 65279).

(** The code units matched by [[a-z0-9_]]. *)
Definition is_ident_char (c : Z) : bool :=
  ((97 <=? c) && (c <=? 122)) || ((48 <=? c) && (c <=? 57)) || (c =? 95).

(** [.replace(/\s+/g, "_")]: every maximal run of whitespace becomes one
    underscore; [in_run] records that the previous unit was whitespace. *)
Fixpoint replace_ws_from (in_run : bool) (s : jsstring) : jsstring :=
  match s with
  | [] => []
  | c :: rest =>
      if is_whitespace c
      then (if in_run then replace_ws_from true rest
            else 95 :: replace_ws_from true rest)
      else c :: replace_ws_from false rest
  end.

Definition replace_ws_runs (s : jsstring) : jsstring := replace_ws_from false s.

(** [.replace(/[^a-z0-9_]/g, "")] *)
Definition strip_non_ident (s : jsstring) : jsstring :=
  List.filter is_ident_char s.

Definition normalize `{JsRuntime} (name : jsstring) : jsstring :=
  strip_non_ident (replace_ws_runs (toLowerCase name)).

(** The later revision of the route adds [.substring(0, 64)]. *)
Definition normalize64 `{JsRuntime} (name : jsstring) : jsstring :=
  take 64 (normalize name).

(** A runtime whose [toLowerCase] lowers the ASCII capitals only; it is
    the built-in's behaviour on ASCII input and serves for the examples. *)
Definition ascii_lower (c : Z) : Z :=
  if (65 <=? c) && (c <=? 90) then c + 32 else c.

Definition ascii_runtime : JsRuntime := {| toLowerCase := List.map ascii_lower |}.

(** ** components/table-view.tsx *)

Module TableView.

Record Column : Type := mkColumn {
  col_id : Z;
  col_name : jsstring;
  col_data_type : jsstring;
  col_is_required : bool;
  col_default_value : option jsstring;
  col_sort_order : Z
}.

Record TableData : Type := mkTableData {
  row_id : Z;
  row_data : gmap (list Z) JsValue
}.

(** [if (defaultValue) return defaultValue]: an absent default and an
    empty one both fall through to the switch on the type. *)
Definition getDefaultValueForType
    (now : JsDate) (dataType : jsstring) (defaultValue : option jsstring)
    : JsValue :=
  if truthy (JString <$> defaultValue) then
    match defaultValue with Some d => JString d | None => JString [] end
  else if bool_decide (dataType = str "number") then JNumber 0
  else if bool_decide (dataType = str "decimal") then JNumber 0
  else if bool_decide (dataType = str "double") then JNumber 0
  else if bool_decide (dataType = str "boolean") then JBool false
  else if bool_decide (dataType = str "checkbox") then JBool false
  else if bool_decide (dataType = str "date")
    then JString (split_head 84 (toISOString now))
  else JString [].

(** [row.data[col.name] || getDefaultValueForType(col.data_type,
    col.default_value)] *)
Definition cellValue (now : JsDate) (row : TableData) (col : Column)
    : JsValue :=
  js_or (get_property (row_data row) (col_name col))
        (getDefaultValueForType now (col_data_type col) (col_default_value col)).

(** The row without the key of the column. *)
Definition without_key (row : TableData) (col : Column) : TableData :=
  mkTableData (row_id row) (delete (col_name col) (row_data row)).

(** [col.name.toLowerCase().replace(/\s+/g, "_")] *)
Definition fieldName `{JsRuntime} (col : Column) : jsstring :=
  replace_ws_runs (toLowerCase (col_name col)).

(** The body of [tableData.map]: [mappedRow] starts as [{ id: row.id }]
    and receives one assignment per column, in column order. *)
Definition mappedRow `{JsRuntime} (now : JsDate) (columns : list Column)
    (row : TableData) : gmap (list Z) JsValue :=
  foldl (fun m col => <[fieldName col := cellValue now row col]> m)
        {[ str "id" := JNumber (row_id row) ]} columns.

Definition mappedData `{JsRuntime} (now : JsDate) (columns : list Column)
    (tableData : list TableData) : list (gmap (list Z) JsValue) :=
  mappedRow now columns <$> tableData.

(** [getEditorForType]: the grid editor of a column type. *)
Inductive Editor : Type :=
| EditorNumber       (* "number" *)
| EditorDate         (* "date" *)
| EditorTickCross    (* "tickCross" *)
| EditorInput.       (* "input" *)

Definition getEditorForType (dataType : jsstring) : Editor :=
  if bool_decide (dataType = str "number") then EditorNumber
  else if bool_decide (dataType = str "decimal") then EditorNumber
  else if bool_decide (dataType = str "double") then EditorNumber
  else if bool_decide (dataType = str "date") then EditorDate
  else if bool_decide (dataType = str "boolean") then EditorTickCross
  else if bool_decide (dataType = str "checkbox") then EditorTickCross
  else EditorInput.

(** [updateRowData]: the grid row [data] is keyed by field names; the
    payload sent to the server is keyed by column names and receives the
    fields that are not [undefined], one assignment per column. *)
Definition originalData `{JsRuntime} (columns : list Column)
    (data : gmap (list Z) JsValue) : gmap (list Z) JsValue :=
  foldl (fun m col =>
           match data !! fieldName col with
           | Some v => <[col_name col := v]> m
           | None => m
           end) ∅ columns.

(** [addNewRow]: [defaultData] starts as [{ id: Date.now() }] and gets
    each column's default under its field name. *)
Definition defaultData `{JsRuntime} (now : JsDate) (tempId : Z)
    (columns : list Column) : gmap (list Z) JsValue :=
  foldl (fun m col =>
           <[fieldName col :=
               getDefaultValueForType now (col_data_type col)
                 (col_default_value col)]> m)
        {[ str "id" := JNumber tempId ]} columns.

(** The payload [addNewRow] hands to [createNewRow]:
    [originalData[col.name] = defaultData[fieldName]] for each column (a
    field read as [undefined] does not survive [JSON.stringify]). *)
Definition newRowPayload `{JsRuntime} (now : JsDate) (tempId : Z)
    (columns : list Column) : gmap (list Z) JsValue :=
  originalData columns (defaultData now tempId columns).

(** [cellEdited]: the edited grid row goes to [updateRowData] with its
    own [id] field as the row id; the request carries
    [JSON.stringify({ data: originalData })]. *)
Definition cellEdited `{JsRuntime} (columns : list Column)
    (rowData : gmap (list Z) JsValue) : option (Z * gmap (list Z) JsValue) :=
  match rowData !! str "id" with
  | Some (JNumber rowId) =>
      Some (rowId, json_properties (originalData columns rowData))
  | _ => None
  end.

End TableView.

(** ** The later revision of the table view (unnamed/part_001)

    The grid row is [{ id, data }]; the columns are the service's, whose
    name is [column_name] ([col_name] here), and the grid field of a
    column is ["data." + fieldName]. *)
Module TableViewNested.
Import TableView.

(** [cellEdited], for the cell of the grid field ["data." + field] of a
    row whose [data] is [currentData]: the column is the first one whose
    field name is [field]; [updateData] is [currentData] with the new
    value under the column's name; [updateRowData] receives
    [{ data: updateData }], reads [data.data] and keeps, under each
    column's name, the value found under the column's field name.
    [None] is the [throw new Error('Invalid column')]. *)
Definition cellEdited `{JsRuntime} (columns : list Column)
    (currentData : gmap (list Z) JsValue) (field : jsstring) (value : JsValue)
    : option (gmap (list Z) JsValue) :=
  match list_find (fun col => fieldName col = field) columns with
  | Some (_, column) =>
      Some (originalData columns (<[col_name column := value]> currentData))
  | None => None
  end.

End TableViewNested.


(** ** The relational store

    The four relations of the persisted layout, with the constraints the
    schema declares (lib/database.ts [initializeTables] and
    scripts/001-create-sidebar-tables.sql): serial primary keys, the
    foreign keys [sidebar_items.parent_id -> sidebar_items.id],
    [dynamic_tables.sidebar_item_id -> sidebar_items.id],
    [table_columns.table_id -> dynamic_tables.id] and
    [table_data.table_id -> dynamic_tables.id], all [ON DELETE CASCADE],
    [CHECK (item_type IN ('folder', 'table'))] and the [UNIQUE]
    constraints of the schema in force.  Every statement is atomic;
    there is no transaction around a sequence of statements. *)

Module Store.

Inductive ItemType : Type := Folder | Table.

#[global] Instance ItemType_eq_dec : EqDecision ItemType.
Proof. solve_decision. Defined.

Inductive DataType : Type :=
  TText | TNumber | TDate | TBoolean | TDecimal | TDouble | TCheckbox.

Record SidebarItem : Type := mkSidebarItem {
  si_id : Z;
  si_name : jsstring;
  si_parent_id : option Z;
  si_item_type : ItemType;
  si_icon : option jsstring;
  si_sort_order : Z;
  si_created_at : Z;
  si_updated_at : Z
}.

Record DynamicTable : Type := mkDynamicTable {
  dt_id : Z;
  dt_sidebar_item_id : Z;
  dt_table_name : jsstring;
  dt_display_name : jsstring;
  dt_description : option jsstring;
  dt_created_at : Z;
  dt_updated_at : Z
}.

Record TableColumn : Type := mkTableColumn {
  tc_id : Z;
  tc_table_id : Z;
  tc_column_name : jsstring;
  tc_display_name : jsstring;
  tc_data_type : DataType;
  tc_is_required : bool;
  tc_default_value : option jsstring;
  tc_sort_order : Z;
  tc_width : Z;
  tc_created_at : Z;
  tc_updated_at : Z
}.

Record TableData : Type := mkTableData {
  td_id : Z;
  td_table_id : Z;
  td_row_data : gmap (list Z) JsValue;
  td_created_at : Z;
  td_updated_at : Z
}.

(** The [UNIQUE] constraints differ between the schema scripts and the
    [CREATE TABLE IF NOT EXISTS] of the two service revisions; the store
    records which of them its relations were created with. *)
Record Schema : Type := mkSchema {
  unique_table_name : bool;        (* dynamic_tables (table_name) *)
  unique_sidebar_item_id : bool;   (* dynamic_tables (sidebar_item_id) *)
  unique_column_name : bool        (* table_columns (table_id, column_name) *)
}.

(** The state of the database: the rows of the four relations, the next
    value of each serial sequence, the connection's [LAST_INSERT_ID()],
    the reading of [NOW()] and the schema in force. *)
Record DB : Type := mkDB {
  sidebar_items : list SidebarItem;
  dynamic_tables : list DynamicTable;
  table_columns : list TableColumn;
  table_data : list TableData;
  seq_sidebar_items : Z;
  seq_dynamic_tables : Z;
  seq_table_columns : Z;
  seq_table_data : Z;
  last_insert_id : Z;
  clock : Z;
  schema : Schema
}.

Inductive SqlError : Type :=
| ForeignKeyViolation
| UniqueViolation
| CheckViolation
| StringDataRightTruncation    (* value too long for type character varying(n) *)
| NumericValueOutOfRange       (* value out of range for type integer *)
| InvalidTextRepresentation.   (* invalid input syntax for type integer: "NaN" *)

(** What a handler can catch: a failed statement, or one of the
    [throw new Error(...)] of the service. *)
Inductive Error : Type :=
| SqlFailure (e : SqlError)
| JsError (message : jsstring)         (* new Error("...") *)
| TableNotFound (tableId : Z).         (* new Error(`Table with ID ${tableId} not found`) *)

(** Computations of the service: the store is threaded through, and it
    keeps the effects of the statements that ran before a failure. *)
Definition M (A : Type) : Type := DB -> (Error + A) * DB.

Definition ret {A} (a : A) : M A := fun db => (inr a, db).

Definition throw {A} (e : Error) : M A := fun db => (inl e, db).

Definition bind {A B} (c : M A) (k : A -> M B) : M B :=
  fun db =>
    match c db with
    | (inr a, db1) => k a db1
    | (inl e, db1) => (inl e, db1)
    end.

(** [try { c } catch (error) { h error }] *)
Definition try_catch {A} (c : M A) (h : Error -> M A) : M A :=
  fun db =>
    match c db with
    | (inr a, db1) => (inr a, db1)
    | (inl e, db1) => h e db1
    end.

(** An [UPDATE] either fails and leaves the store as it was, or succeeds
    with a result and a new store. *)
Definition statement {A} (q : DB -> SqlError + (A * DB)) : M A :=
  fun db =>
    match q db with
    | inl e => (inl (SqlFailure e), db)
    | inr (a, db1) => (inr a, db1)
    end.

(** The store with the next [n] ids of a relation's sequence drawn. *)
Definition draw_sidebar_item_ids (n : Z) (db : DB) : DB :=
  mkDB (sidebar_items db) (dynamic_tables db) (table_columns db) (table_data db)
       (seq_sidebar_items db + n) (seq_dynamic_tables db)
       (seq_table_columns db) (seq_table_data db)
       (last_insert_id db) (clock db) (schema db).

Definition draw_dynamic_table_ids (n : Z) (db : DB) : DB :=
  mkDB (sidebar_items db) (dynamic_tables db) (table_columns db) (table_data db)
       (seq_sidebar_items db) (seq_dynamic_tables db + n)
       (seq_table_columns db) (seq_table_data db)
       (last_insert_id db) (clock db) (schema db).

Definition draw_table_column_ids (n : Z) (db : DB) : DB :=
  mkDB (sidebar_items db) (dynamic_tables db) (table_columns db) (table_data db)
       (seq_sidebar_items db) (seq_dynamic_tables db)
       (seq_table_columns db + n) (seq_table_data db)
       (last_insert_id db) (clock db) (schema db).

Definition draw_table_data_ids (n : Z) (db : DB) : DB :=
  mkDB (sidebar_items db) (dynamic_tables db) (table_columns db) (table_data db)
       (seq_sidebar_items db) (seq_dynamic_tables db)
       (seq_table_columns db) (seq_table_data db + n)
       (last_insert_id db) (clock db) (schema db).

(** What an engine does with the ids of an [INSERT] that is refused.
    The id of a row is drawn before the row is checked, and a sequence is
    not rolled back: a refusal that comes after the draw leaves the
    relations as they were and the id spent.  [spends] tells the
    refusals that come after the draw; [whole_batch] tells whether a
    multi-row [INSERT] reserves the ids of all its rows at once. *)
Record IdPolicy : Type := mkIdPolicy {
  spends : SqlError -> bool;
  whole_batch : bool
}.

(** A single-row [INSERT]. *)
Definition insert_into {A} (policy : IdPolicy) (draw : Z -> DB -> DB)
    (q : DB -> SqlError + (A * DB)) : M A :=
  fun db =>
    match q db with
    | inl e => (inl (SqlFailure e), if spends policy e then draw 1 db else db)
    | inr (a, db1) => (inr a, db1)
    end.

(** The rows of a multi-row [INSERT], in order: the store with all of
    them, or the refusal of the first row that is refused and the number
    of rows tried up to it. *)
Fixpoint insert_rows {A} (rows : list (DB -> SqlError + (A * DB))) (db : DB)
    : SqlError * Z + DB :=
  match rows with
  | [] => inr db
  | q :: rest =>
      match q db with
      | inl e => inl (e, 1)
      | inr (_, db1) =>
          match insert_rows rest db1 with
          | inl (e, tried) => inl (e, tried + 1)
          | inr db2 => inr db2
          end
      end
  end.

(** A multi-row [INSERT] is atomic: when a row is refused, none is
    stored. *)
Definition insert_all {A} (policy : IdPolicy) (draw : Z -> DB -> DB)
    (rows : list (DB -> SqlError + (A * DB))) : M unit :=
  fun db =>
    match insert_rows rows db with
    | inl (e, tried) =>
        (inl (SqlFailure e),
         if spends policy e
         then draw (if whole_batch policy then Z.of_nat (length rows)
                    else tried) db
         else db)
    | inr db1 => (inr tt, db1)
    end.

(** The values of an [INTEGER] column. *)
Definition int4 (n : Z) : Prop := -2147483648 <= n <= 2147483647.

#[global] Instance int4_dec n : Decision (int4 n).
Proof. unfold int4. apply _. Defined.

(** The refusal of a reference that no row has: the foreign key's, when
    the number is an [INTEGER] at all.  (A reference that a row has is
    one.) *)
Definition unresolved (ref : Z) : SqlError :=
  if bool_decide (int4 ref) then ForeignKeyViolation
  else NumericValueOutOfRange.

(** The ids and the references that the store holds. *)
Definition integers_of (db : DB) : list Z :=
  (si_id <$> sidebar_items db) ++ omap si_parent_id (sidebar_items db) ++
  (dt_id <$> dynamic_tables db) ++
  (dt_sidebar_item_id <$> dynamic_tables db) ++
  (tc_id <$> table_columns db) ++ (tc_table_id <$> table_columns db) ++
  (td_id <$> table_data db) ++ (td_table_id <$> table_data db).

(** A number bound to a parameter that is compared with an id: the
    PostgreSQL statement raises when the number is no [INTEGER].  Every
    id and reference of a store is an [INTEGER], whatever number stands
    for it here. *)
Definition is_integer (db : DB) (n : Z) : Prop := int4 n \/ n ∈ integers_of db.

#[global] Instance is_integer_dec db n : Decision (is_integer db n).
Proof. unfold is_integer. apply _. Defined.

Definition integer_parameter (n : Z) : M unit :=
  fun db =>
    if bool_decide (is_integer db n) then (inr tt, db)
    else (inl (SqlFailure NumericValueOutOfRange), db).

(** The number of characters of a string, a surrogate pair being one. *)
Definition is_high_surrogate (c : Z) : bool := (55296 <=? c) && (c <=? 56319).
Definition is_low_surrogate (c : Z) : bool := (56320 <=? c) && (c <=? 57343).

Fixpoint char_length_from (after_high : bool) (s : jsstring) : nat :=
  match s with
  | [] => O
  | c :: rest =>
      if after_high && is_low_surrogate c then char_length_from false rest
      else S (char_length_from (is_high_surrogate c) rest)
  end.

Definition char_length (s : jsstring) : nat := char_length_from false s.

(** [VARCHAR(width)]: a value of more characters is refused.  (The
    engines cut a value that is too long by trailing spaces only; the
    store refuses it like every other value that is too long.) *)
Definition fits (width : nat) (s : jsstring) : bool :=
  bool_decide (char_length s <= width)%nat.

(** A query reads the store. *)
Definition query {A} (q : DB -> A) : M A := fun db => (inr (q db), db).

(** A [DELETE] has no constraint to violate. *)
Definition execute (q : DB -> DB) : M unit := fun db => (inr tt, q db).

(** The sequences of the store are ahead of the ids in use, as they are
    when every id came from its sequence. *)
Definition sequences_ahead (db : DB) : Prop :=
  Forall (fun x => si_id x < seq_sidebar_items db) (sidebar_items db) /\
  Forall (fun t => dt_id t < seq_dynamic_tables db) (dynamic_tables db) /\
  Forall (fun c => tc_id c < seq_table_columns db) (table_columns db) /\
  Forall (fun r => td_id r < seq_table_data db) (table_data db).

(** Every reference of the store resolves, as the foreign keys ensure. *)
Definition foreign_keys_hold (db : DB) : Prop :=
  Forall (fun x => from_option (fun p => p ∈ si_id <$> sidebar_items db) True
                     (si_parent_id x)) (sidebar_items db) /\
  Forall (fun t => dt_sidebar_item_id t ∈ si_id <$> sidebar_items db)
         (dynamic_tables db) /\
  Forall (fun c => tc_table_id c ∈ dt_id <$> dynamic_tables db)
         (table_columns db) /\
  Forall (fun r => td_table_id r ∈ dt_id <$> dynamic_tables db)
         (table_data db).

(** The store with other column definitions. *)
Definition with_table_columns (cols : list TableColumn) (db : DB) : DB :=
  mkDB (sidebar_items db) (dynamic_tables db) cols (table_data db)
       (seq_sidebar_items db) (seq_dynamic_tables db)
       (seq_table_columns db) (seq_table_data db)
       (last_insert_id db) (clock db) (schema db).

(** *** Statements on [sidebar_items] and [dynamic_tables] *)

Definition parse_item_type (s : jsstring) : option ItemType :=
  if bool_decide (s = str "folder") then Some Folder
  else if bool_decide (s = str "table") then Some Table
  else None.

Definition item_exists (db : DB) (i : Z) : Prop :=
  i ∈ si_id <$> sidebar_items db.

Definition table_exists (db : DB) (i : Z) : Prop :=
  i ∈ dt_id <$> dynamic_tables db.

#[global] Instance item_exists_dec db i : Decision (item_exists db i).
Proof. unfold item_exists. apply _. Defined.

#[global] Instance table_exists_dec db i : Decision (table_exists db i).
Proof. unfold table_exists. apply _. Defined.

(** The foreign key on a nullable column: [NULL] references nothing. *)
Definition reference_resolves (db : DB) (parent_id : option Z) : Prop :=
  from_option (item_exists db) True parent_id.

#[global] Instance reference_resolves_dec db p : Decision (reference_resolves db p).
Proof. unfold reference_resolves. destruct p; simpl; apply _. Defined.

(** [SELECT * FROM sidebar_items WHERE id = ?], first row. *)
Definition select_item (db : DB) (i : Z) : option SidebarItem :=
  head (filter (fun x => si_id x = i) (sidebar_items db)).

(** [SELECT * FROM dynamic_tables WHERE sidebar_item_id = ?], first row. *)
Definition select_table_by_sidebar_id (db : DB) (i : Z) : option DynamicTable :=
  head (filter (fun t => dt_sidebar_item_id t = i) (dynamic_tables db)).

(** [INSERT INTO sidebar_items (name, parent_id, item_type, icon,
    sort_order) VALUES (...)]; the new row is the statement's result
    ([RETURNING *]) and its id becomes [LAST_INSERT_ID()].  [name] is
    [VARCHAR(255)], [icon] is [VARCHAR(50)], [parent_id] and [sort_order]
    are [INTEGER]: a value that does not fit is refused, and the
    constraints are not looked at. *)
Definition insert_sidebar_item
    (name : jsstring) (parent_id : option Z) (item_type : jsstring)
    (icon : option jsstring) (sort_order : Z)
    (db : DB) : SqlError + (SidebarItem * DB) :=
  if negb (fits 255 name && from_option (fits 50) true icon)
  then inl StringDataRightTruncation
  else if negb (bool_decide (int4 sort_order)) then inl NumericValueOutOfRange
  else
  match parse_item_type item_type with
  | None => inl CheckViolation
  | Some ty =>
      if bool_decide (reference_resolves db parent_id) then
        let row := mkSidebarItem (seq_sidebar_items db) name parent_id ty icon
                     sort_order (clock db) (clock db) in
        inr (row,
             mkDB (sidebar_items db ++ [row]) (dynamic_tables db)
                  (table_columns db) (table_data db)
                  (seq_sidebar_items db + 1) (seq_dynamic_tables db)
                  (seq_table_columns db) (seq_table_data db)
                  (seq_sidebar_items db) (clock db) (schema db))
      else inl (from_option unresolved ForeignKeyViolation parent_id)
  end.

(** [INSERT INTO dynamic_tables (sidebar_item_id, table_name,
    display_name, description) VALUES (...)]; both names are
    [VARCHAR(255)], the description is [TEXT]. *)
Definition insert_dynamic_table
    (sidebar_item_id : Z) (table_name display_name : jsstring)
    (description : option jsstring)
    (db : DB) : SqlError + (DynamicTable * DB) :=
  if negb (fits 255 table_name && fits 255 display_name)
  then inl StringDataRightTruncation
  else if negb (bool_decide (int4 sidebar_item_id \/
                             item_exists db sidebar_item_id))
  then inl NumericValueOutOfRange
  else
  if unique_table_name (schema db) &&
     bool_decide (table_name ∈ dt_table_name <$> dynamic_tables db)
  then inl UniqueViolation
  else if unique_sidebar_item_id (schema db) &&
     bool_decide (sidebar_item_id ∈ dt_sidebar_item_id <$> dynamic_tables db)
  then inl UniqueViolation
  else if bool_decide (item_exists db sidebar_item_id) then
    let row := mkDynamicTable (seq_dynamic_tables db) sidebar_item_id table_name
                 display_name description (clock db) (clock db) in
    inr (row,
         mkDB (sidebar_items db) (dynamic_tables db ++ [row])
              (table_columns db) (table_data db)
              (seq_sidebar_items db) (seq_dynamic_tables db + 1)
              (seq_table_columns db) (seq_table_data db)
              (seq_dynamic_tables db) (clock db) (schema db))
  else inl ForeignKeyViolation.

(** *** Deletion with [ON DELETE CASCADE] *)

(** [x] references, through [parent_id], a row that is being deleted. *)
Definition parent_in (dead : list Z) (x : SidebarItem) : Prop :=
  from_option (fun p => p ∈ dead) False (si_parent_id x).

#[global] Instance parent_in_dec dead x : Decision (parent_in dead x).
Proof. unfold parent_in. destruct (si_parent_id x); simpl; apply _. Defined.

(** One round of the cascade over the self-reference: the rows whose
    parent is being deleted are deleted too. *)
Definition cascade_round (items : list SidebarItem) (dead : list Z) : list Z :=
  dead ++ (si_id <$> filter (fun x => parent_in dead x /\ si_id x ∉ dead) items).

(** The ids deleted by the cascade from the rows [dead]; one round per
    row of the relation reaches every depth. *)
Fixpoint cascade_rounds (rounds : nat) (items : list SidebarItem)
    (dead : list Z) : list Z :=
  match rounds with
  | O => dead
  | S k => cascade_rounds k items (cascade_round items dead)
  end.

Definition cascade_ids (items : list SidebarItem) (dead : list Z) : list Z :=
  cascade_rounds (length items) items dead.

(** [descends items i a]: the item with id [i] lies below the item with
    id [a] in the tree of the [parent_id] references. *)
Inductive descends (items : list SidebarItem) : Z -> Z -> Prop :=
| descends_child x a :
    x ∈ items -> si_parent_id x = Some a -> descends items (si_id x) a
| descends_deeper x p a :
    x ∈ items -> si_parent_id x = Some p -> descends items p a ->
    descends items (si_id x) a.

(** [DELETE FROM dynamic_tables WHERE p], cascading to the columns and
    the rows of the deleted tables. *)
Definition delete_dynamic_tables_where
    (p : DynamicTable -> Prop) `{forall t, Decision (p t)} (db : DB) : DB :=
  let gone := dt_id <$> filter p (dynamic_tables db) in
  mkDB (sidebar_items db)
       (filter (fun t => ~ p t) (dynamic_tables db))
       (filter (fun c => tc_table_id c ∉ gone) (table_columns db))
       (filter (fun r => td_table_id r ∉ gone) (table_data db))
       (seq_sidebar_items db) (seq_dynamic_tables db)
       (seq_table_columns db) (seq_table_data db)
       (last_insert_id db) (clock db) (schema db).

(** [DELETE FROM sidebar_items WHERE p], cascading to the descendants of
    the deleted rows and to the dynamic tables bound to any of them. *)
Definition delete_sidebar_items_where
    (p : SidebarItem -> Prop) `{forall x, Decision (p x)} (db : DB) : DB :=
  let dead := cascade_ids (sidebar_items db)
                (si_id <$> filter p (sidebar_items db)) in
  let db1 := delete_dynamic_tables_where
               (fun t => dt_sidebar_item_id t ∈ dead) db in
  mkDB (filter (fun x => si_id x ∉ dead) (sidebar_items db1))
       (dynamic_tables db1) (table_columns db1) (table_data db1)
       (seq_sidebar_items db1) (seq_dynamic_tables db1)
       (seq_table_columns db1) (seq_table_data db1)
       (last_insert_id db1) (clock db1) (schema db1).


(** *** Statements on [table_columns] and [table_data] *)

(** [Partial<TableColumn>]: the fields an update may carry; [None] is a
    field that is absent ([undefined], bound as [NULL]). *)
Record TableColumnUpdates : Type := mkTableColumnUpdates {
  upd_column_name : option jsstring;
  upd_display_name : option jsstring;
  upd_data_type : option DataType;
  upd_is_required : option bool;
  upd_default_value : option jsstring;
  upd_sort_order : option Z;
  upd_width : option Z
}.

(** [COALESCE(new, old)] on a [NOT NULL] column and on a nullable one. *)
Definition coalesce {A} (new : option A) (old : A) : A := default old new.

Definition coalesce_null {A} (new old : option A) : option A :=
  match new with Some v => Some v | None => old end.

(** The row written by
    [SET column_name = COALESCE(?, column_name), ..., updated_at = NOW()]. *)
Definition set_column_fields (u : TableColumnUpdates) (now : Z)
    (c : TableColumn) : TableColumn :=
  mkTableColumn (tc_id c) (tc_table_id c)
    (coalesce (upd_column_name u) (tc_column_name c))
    (coalesce (upd_display_name u) (tc_display_name c))
    (coalesce (upd_data_type u) (tc_data_type c))
    (coalesce (upd_is_required u) (tc_is_required c))
    (coalesce_null (upd_default_value u) (tc_default_value c))
    (coalesce (upd_sort_order u) (tc_sort_order c))
    (coalesce (upd_width u) (tc_width c))
    (tc_created_at c) now.

(** [UNIQUE (table_id, column_name)] among the rows [cols]. *)
Definition column_name_taken (cols : list TableColumn) (c : TableColumn) : Prop :=
  Exists (fun d => tc_id d <> tc_id c /\ tc_table_id d = tc_table_id c /\
                   tc_column_name d = tc_column_name c) cols.

#[global] Instance column_name_taken_dec cols c : Decision (column_name_taken cols c).
Proof. unfold column_name_taken. apply _. Defined.

(** [UPDATE table_columns SET ... WHERE id = ? RETURNING *] *)
Definition update_table_column (id : Z) (u : TableColumnUpdates)
    (db : DB) : SqlError + (list TableColumn * DB) :=
  let write c := if bool_decide (tc_id c = id)
                 then set_column_fields u (clock db) c else c in
  let cols := write <$> table_columns db in
  let written := filter (fun c => tc_id c = id) cols in
  if unique_column_name (schema db) &&
     bool_decide (Exists (column_name_taken cols) written)
  then inl UniqueViolation
  else inr (written,
            mkDB (sidebar_items db) (dynamic_tables db) cols (table_data db)
                 (seq_sidebar_items db) (seq_dynamic_tables db)
                 (seq_table_columns db) (seq_table_data db)
                 (last_insert_id db) (clock db) (schema db)).

(** [INSERT INTO table_columns (...) VALUES (...)], for names within
    the columns' [VARCHAR(255)]. *)
Definition insert_table_column
    (table_id : Z) (column_name display_name : jsstring) (data_type : DataType)
    (is_required : bool) (default_value : option jsstring)
    (sort_order width : Z) (db : DB) : SqlError + (TableColumn * DB) :=
  let row := mkTableColumn (seq_table_columns db) table_id column_name
               display_name data_type is_required default_value sort_order
               width (clock db) (clock db) in
  if negb (bool_decide (int4 table_id \/ table_exists db table_id))
  then inl NumericValueOutOfRange
  else
  if unique_column_name (schema db) &&
     bool_decide (column_name_taken (table_columns db) row)
  then inl UniqueViolation
  else if bool_decide (table_exists db table_id) then
    inr (row,
         mkDB (sidebar_items db) (dynamic_tables db)
              (table_columns db ++ [row]) (table_data db)
              (seq_sidebar_items db) (seq_dynamic_tables db)
              (seq_table_columns db + 1) (seq_table_data db)
              (seq_table_columns db) (clock db) (schema db))
  else inl ForeignKeyViolation.

(** [INSERT INTO table_data (table_id, row_data) VALUES (?, ?)]; the
    payload goes through [JSON.stringify] and the JSON column, which
    hand back the same mapping. *)
Definition insert_table_data (table_id : Z) (row_data : gmap (list Z) JsValue)
    (db : DB) : SqlError + (TableData * DB) :=
  if bool_decide (table_exists db table_id) then
    let row := mkTableData (seq_table_data db) table_id row_data
                 (clock db) (clock db) in
    inr (row,
         mkDB (sidebar_items db) (dynamic_tables db)
              (table_columns db) (table_data db ++ [row])
              (seq_sidebar_items db) (seq_dynamic_tables db)
              (seq_table_columns db) (seq_table_data db + 1)
              (seq_table_data db) (clock db) (schema db))
  else inl (unresolved table_id).

(** [UPDATE table_data SET row_data = ?, updated_at = NOW() WHERE id = ?
    RETURNING *] *)
Definition update_table_data (id : Z) (row_data : gmap (list Z) JsValue)
    (db : DB) : SqlError + (list TableData * DB) :=
  let write r := if bool_decide (td_id r = id)
                 then mkTableData (td_id r) (td_table_id r) row_data
                        (td_created_at r) (clock db)
                 else r in
  let rows := write <$> table_data db in
  inr (filter (fun r => td_id r = id) rows,
       mkDB (sidebar_items db) (dynamic_tables db) (table_columns db) rows
            (seq_sidebar_items db) (seq_dynamic_tables db)
            (seq_table_columns db) (seq_table_data db)
            (last_insert_id db) (clock db) (schema db)).

(** [SELECT * FROM table_columns WHERE id = ?], first row. *)
Definition select_column (db : DB) (i : Z) : option TableColumn :=
  head (filter (fun c => tc_id c = i) (table_columns db)).

(** [SELECT COUNT( * ) FROM dynamic_tables WHERE id = ?] *)
Definition count_tables_with_id (db : DB) (i : Z) : Z :=
  Z.of_nat (length (filter (fun t => dt_id t = i) (dynamic_tables db))).

(** [SELECT * FROM table_data WHERE id = ?], first row. *)
Definition select_row (db : DB) (i : Z) : option TableData :=
  head (filter (fun r => td_id r = i) (table_data db)).


(** [SELECT * FROM dynamic_tables WHERE id = ?], first row. *)
Definition select_table (db : DB) (i : Z) : option DynamicTable :=
  head (filter (fun t => dt_id t = i) (dynamic_tables db)).

(** [DELETE FROM table_columns WHERE p]; nothing references a column. *)
Definition delete_table_columns_where
    (p : TableColumn -> Prop) `{forall c, Decision (p c)} (db : DB) : DB :=
  mkDB (sidebar_items db) (dynamic_tables db)
       (filter (fun c => ~ p c) (table_columns db)) (table_data db)
       (seq_sidebar_items db) (seq_dynamic_tables db)
       (seq_table_columns db) (seq_table_data db)
       (last_insert_id db) (clock db) (schema db).

(** [DELETE FROM table_data WHERE p] *)
Definition delete_table_data_where
    (p : TableData -> Prop) `{forall r, Decision (p r)} (db : DB) : DB :=
  mkDB (sidebar_items db) (dynamic_tables db) (table_columns db)
       (filter (fun r => ~ p r) (table_data db))
       (seq_sidebar_items db) (seq_dynamic_tables db)
       (seq_table_columns db) (seq_table_data db)
       (last_insert_id db) (clock db) (schema db).

(** [Partial<SidebarItem>]: the fields an update may carry; [None] is a
    field that is absent or [null], bound as [NULL] either way. *)
Record SidebarItemUpdates : Type := mkSidebarItemUpdates {
  sup_name : option jsstring;
  sup_parent_id : option Z;
  sup_item_type : option jsstring;
  sup_icon : option jsstring;
  sup_sort_order : option Z
}.

(** The row written by
    [SET name = COALESCE(?, name), parent_id = COALESCE(?, parent_id),
     item_type = COALESCE(?, item_type), icon = COALESCE(?, icon),
     sort_order = COALESCE(?, sort_order), updated_at = NOW()]. *)
Definition set_item_fields (u : SidebarItemUpdates) (now : Z)
    (x : SidebarItem) : SidebarItem :=
  mkSidebarItem (si_id x)
    (coalesce (sup_name u) (si_name x))
    (coalesce_null (sup_parent_id u) (si_parent_id x))
    (coalesce (sup_item_type u ≫= parse_item_type) (si_item_type x))
    (coalesce_null (sup_icon u) (si_icon x))
    (coalesce (sup_sort_order u) (si_sort_order x))
    (si_created_at x) now.

(** A supplied [item_type] that the [CHECK] rejects. *)
Definition item_type_rejected (u : SidebarItemUpdates) : bool :=
  match sup_item_type u with
  | Some s => match parse_item_type s with None => true | Some _ => false end
  | None => false
  end.

(** [UPDATE sidebar_items SET ... WHERE id = ? RETURNING *]: the [CHECK]
    on [item_type] and the foreign key of [parent_id] are enforced on the
    row that is written, if there is one. *)
Definition update_sidebar_item (id : Z) (u : SidebarItemUpdates)
    (db : DB) : SqlError + (list SidebarItem * DB) :=
  let hit := bool_decide (item_exists db id) in
  if hit && item_type_rejected u then inl CheckViolation
  else if hit && negb (bool_decide (reference_resolves db (sup_parent_id u)))
  then inl ForeignKeyViolation
  else
    let write x := if bool_decide (si_id x = id)
                   then set_item_fields u (clock db) x else x in
    let items := write <$> sidebar_items db in
    inr (filter (fun x => si_id x = id) items,
         mkDB items (dynamic_tables db) (table_columns db) (table_data db)
              (seq_sidebar_items db) (seq_dynamic_tables db)
              (seq_table_columns db) (seq_table_data db)
              (last_insert_id db) (clock db) (schema db)).

(** The [CHECK] on [table_columns.data_type]. *)
Definition parse_data_type (s : jsstring) : option DataType :=
  if bool_decide (s = str "text") then Some TText
  else if bool_decide (s = str "number") then Some TNumber
  else if bool_decide (s = str "date") then Some TDate
  else if bool_decide (s = str "boolean") then Some TBoolean
  else if bool_decide (s = str "decimal") then Some TDecimal
  else if bool_decide (s = str "double") then Some TDouble
  else if bool_decide (s = str "checkbox") then Some TCheckbox
  else None.


(** *** Vocabulary of the properties *)

(** What a partial update does to one field: the supplied value is
    written, an absent one leaves the field as it was. *)
Definition partial_field {A} (supplied : option A) (old new : A) : Prop :=
  match supplied with
  | Some v => new = v
  | None => new = old
  end.

(** A set of ids is closed when it holds every item whose parent it holds. *)
Definition closed_under_children (items : list SidebarItem) (dead : list Z) : Prop :=
  forall x, x ∈ items -> parent_in dead x -> si_id x ∈ dead.

(** The items still alive; every round that changes [dead] takes one. *)
Definition alive (items : list SidebarItem) (dead : list Z) : list SidebarItem :=
  filter (fun x => si_id x ∉ dead) items.

(** The ids that [DELETE FROM sidebar_items WHERE p] removes. *)
Definition doomed (p : SidebarItem -> Prop) `{forall x, Decision (p x)}
    (db : DB) : list Z :=
  cascade_ids (sidebar_items db) (si_id <$> filter p (sidebar_items db)).

(** Nothing of what lay below the item [a] in the store [db0] is left in
    [db]: no item, no dynamic table bound to such an item, and no column
    or row of such a table. *)
Definition subtree_gone (db0 : DB) (a : Z) (db : DB) : Prop :=
  (forall x, x ∈ sidebar_items db ->
             ~ descends (sidebar_items db0) (si_id x) a) /\
  (forall t, t ∈ dynamic_tables db ->
             ~ descends (sidebar_items db0) (dt_sidebar_item_id t) a) /\
  (forall t, t ∈ dynamic_tables db0 ->
             descends (sidebar_items db0) (dt_sidebar_item_id t) a ->
             (forall c, c ∈ table_columns db -> tc_table_id c <> dt_id t) /\
             (forall r, r ∈ table_data db -> td_table_id r <> dt_id t)).

(** [db1] is [db] with some dynamic tables deleted, together with their
    columns and rows. *)
Definition tables_trimmed (db db1 : DB) : Prop :=
  sidebar_items db1 = sidebar_items db /\
  (forall t, t ∈ dynamic_tables db1 -> t ∈ dynamic_tables db) /\
  (forall t, t ∈ dynamic_tables db ->
     t ∈ dynamic_tables db1 \/
     ((forall c, c ∈ table_columns db1 -> tc_table_id c <> dt_id t) /\
      (forall r, r ∈ table_data db1 -> td_table_id r <> dt_id t))).

(** Every relation of [db'] is within that of [db]. *)
Definition shrinks (db' db : DB) : Prop :=
  (forall x, x ∈ sidebar_items db' -> x ∈ sidebar_items db) /\
  (forall t, t ∈ dynamic_tables db' -> t ∈ dynamic_tables db) /\
  (forall c, c ∈ table_columns db' -> c ∈ table_columns db) /\
  (forall r, r ∈ table_data db' -> r ∈ table_data db).

(** [l'] is [l] with some of its elements filtered out. *)
Definition filtered {A} (l' l : list A) : Prop :=
  exists (P : A -> Prop) (dec : forall x, Decision (P x)), l' = filter P l.

(** [db'] is [db] with some rows deleted and nothing else changed: the
    rows that are left keep their order, and the sequences, the clock and
    the schema are as they were. *)
Definition pruned (db' db : DB) : Prop :=
  filtered (sidebar_items db') (sidebar_items db) /\
  filtered (dynamic_tables db') (dynamic_tables db) /\
  filtered (table_columns db') (table_columns db) /\
  filtered (table_data db') (table_data db) /\
  seq_sidebar_items db' = seq_sidebar_items db /\
  seq_dynamic_tables db' = seq_dynamic_tables db /\
  seq_table_columns db' = seq_table_columns db /\
  seq_table_data db' = seq_table_data db /\
  last_insert_id db' = last_insert_id db /\
  clock db' = clock db /\
  schema db' = schema db.

(** The item [a] or an item below it. *)
Definition in_subtree (items : list SidebarItem) (a i : Z) : Prop :=
  i = a \/ descends items i a.

(** [db'] holds exactly what [db] holds outside the subtree of the item
    [a]: the items that are neither [a] nor below it, the dynamic tables
    bound to none of the subtree's items, and the columns and rows of no
    dynamic table that is bound to one. *)
Definition subtree_removed (db : DB) (a : Z) (db' : DB) : Prop :=
  (forall x, x ∈ sidebar_items db' <->
     x ∈ sidebar_items db /\ ~ in_subtree (sidebar_items db) a (si_id x)) /\
  (forall t, t ∈ dynamic_tables db' <->
     t ∈ dynamic_tables db /\
     ~ in_subtree (sidebar_items db) a (dt_sidebar_item_id t)) /\
  (forall c, c ∈ table_columns db' <->
     c ∈ table_columns db /\
     forall t, t ∈ dynamic_tables db ->
       in_subtree (sidebar_items db) a (dt_sidebar_item_id t) ->
       tc_table_id c <> dt_id t) /\
  (forall r, r ∈ table_data db' <->
     r ∈ table_data db /\
     forall t, t ∈ dynamic_tables db ->
       in_subtree (sidebar_items db) a (dt_sidebar_item_id t) ->
       td_table_id r <> dt_id t).

(** [db'] holds the rows of [db] and nothing else: at most the
    sequences have moved. *)
Definition same_rows (db' db : DB) : Prop :=
  sidebar_items db' = sidebar_items db /\
  dynamic_tables db' = dynamic_tables db /\
  table_columns db' = table_columns db /\
  table_data db' = table_data db.

(** A computation that removes no sidebar item, whatever its outcome,
    and a statement that removes none when it succeeds. *)
Definition keeps_items {A} (c : M A) : Prop :=
  forall db,
    (length (sidebar_items db) <= length (sidebar_items (c db).2))%nat.

Definition statement_keeps_items {A} (q : DB -> SqlError + (A * DB)) : Prop :=
  forall db a db',
    q db = inr (a, db') ->
    (length (sidebar_items db) <= length (sidebar_items db'))%nat.

End Store.

Notation "x <- c ;; k" := (Store.bind c (fun x => k))
  (at level 100, c at next level, right associativity).
Notation "c ;;; k" := (Store.bind c (fun _ => k))
  (at level 100, right associativity).


(** ** lib/database.ts: [DatabaseService] *)

(** What the sidebar route uses of the service.  The file has a
    PostgreSQL revision and a MySQL revision; both are given below. *)
Class DatabaseService : Type := {
  initializeTables : Store.M unit;
  getSidebarItems : Store.M (list Store.SidebarItem);
  createSidebarItem :
    jsstring -> option Z -> jsstring -> option jsstring -> Z ->
    Store.M Store.SidebarItem;
  createDynamicTable :
    Z -> jsstring -> jsstring -> option jsstring -> Store.M Store.DynamicTable;
  deleteSidebarItem : Z -> Store.M unit
}.

(** [ORDER BY]: the comparisons of the sort keys.  Names are compared
    unit by unit. *)
Fixpoint string_compare (a b : jsstring) : comparison :=
  match a, b with
  | [], [] => Eq
  | [], _ :: _ => Lt
  | _ :: _, [] => Gt
  | x :: a', y :: b' =>
      match x ?= y with Eq => string_compare a' b' | c => c end
  end.

Definition then_by (c1 c2 : comparison) : comparison :=
  match c1 with Eq => c2 | _ => c1 end.

Definition nulls_first (a b : option Z) : comparison :=
  match a, b with
  | None, None => Eq
  | None, Some _ => Lt
  | Some _, None => Gt
  | Some x, Some y => x ?= y
  end.

Definition is_null_desc (a b : option Z) : comparison :=
  match a, b with
  | None, Some _ => Lt
  | Some _, None => Gt
  | _, _ => Eq
  end.

(** A three-way comparison that orders its arguments: swapping them
    flips the answer, [Lt] chains, and arguments that compare equal
    compare alike with everything else. *)
Class WeakOrder {A} (cmp : A -> A -> comparison) : Prop := {
  cmp_sym x y : cmp y x = CompOpp (cmp x y);
  cmp_lt_trans x y z : cmp x y = Lt -> cmp y z = Lt -> cmp x z = Lt;
  cmp_eq_congr x y z : cmp x y = Eq -> cmp x z = cmp y z
}.

(** Siblings as the sidebar lists them: by [sort_order], then by name. *)
Definition sibling_order (x y : Store.SidebarItem) : Prop :=
  then_by (Store.si_sort_order x ?= Store.si_sort_order y)
    (string_compare (Store.si_name x) (Store.si_name y)) <> Gt.


(** The sample payloads of [seedInitialData]. *)
Definition sample_row (name email phone : string) (active : bool)
    (created_date : string) : gmap (list Z) JsValue :=
  list_to_map [ (str "name", JString (str name));
                (str "email", JString (str email));
                (str "phone", JString (str phone));
                (str "active", JBool active);
                (str "created_date", JString (str created_date)) ].

(** [INSERT INTO table_columns ... VALUES (...), (...), (...), (...), (...)] *)
Definition insert_sample_columns (t : Z) :=
  [ Store.insert_table_column t (str "name") (str "Customer Name")
      Store.TText true None 0 200;
    Store.insert_table_column t (str "email") (str "Email Address")
      Store.TText true None 1 250;
    Store.insert_table_column t (str "phone") (str "Phone Number")
      Store.TText false None 2 150;
    Store.insert_table_column t (str "active") (str "Active")
      Store.TCheckbox false None 3 100;
    Store.insert_table_column t (str "created_date") (str "Created Date")
      Store.TDate false None 4 150 ].

(** [INSERT INTO table_data (table_id, row_data) VALUES (...), (...), (...)] *)
Definition insert_sample_rows (t : Z) :=
  [ Store.insert_table_data t
      (sample_row "John Doe" "john@example.com" "+1-555-0123" true
         "2024-01-15");
    Store.insert_table_data t
      (sample_row "Jane Smith" "jane@example.com" "+1-555-0124" true
         "2024-01-16");
    Store.insert_table_data t
      (sample_row "Bob Johnson" "bob@example.com" "+1-555-0125" false
         "2024-01-17") ].

(** *** The PostgreSQL revision *)

Module Pg.
Import Store.

(** [nextval] is called for each row before the constraints are checked;
    a value that does not fit the type of its column is refused before
    that. *)
Definition nextval : IdPolicy :=
  mkIdPolicy (fun e => match e with
                       | ForeignKeyViolation | UniqueViolation
                       | CheckViolation => true
                       | _ => false
                       end) false.

Definition seedInitialData : M unit :=
  try_catch
    (tablesFolder <- insert_into nextval draw_sidebar_item_ids
                       (insert_sidebar_item (str "Tables") None
                          (str "folder") (Some (str "folder")) 0) ;;
     sampleTableItem <- insert_into nextval draw_sidebar_item_ids
                          (insert_sidebar_item (str "Sample Customers")
                             (Some (si_id tablesFolder)) (str "table")
                             (Some (str "table")) 0) ;;
     dynamicTable <- insert_into nextval draw_dynamic_table_ids
                       (insert_dynamic_table (si_id sampleTableItem)
                          (str "sample_customers") (str "Sample Customers")
                          (Some (str "A sample customer table to get you started"))) ;;
     insert_all nextval draw_table_column_ids
       (insert_sample_columns (dt_id dynamicTable)) ;;;
     insert_all nextval draw_table_data_ids
       (insert_sample_rows (dt_id dynamicTable)) ;;;
     ret tt)
    (fun error => throw error).

(** The four [CREATE TABLE IF NOT EXISTS] find their relations in place.
    [COUNT( * )] is a [bigint], which the driver hands back as its decimal
    string, so that [existingItems[0].count === 0] compares a string with
    a number: the seeding is never reached. *)
Definition initializeTables : M unit :=
  try_catch
    (count <- query (fun db => JString (decimal (length (sidebar_items db)))) ;;
     if strict_equal_number count 0 then seedInitialData else ret tt)
    (fun error => throw error).

(** [ORDER BY parent_id NULLS FIRST, sort_order, name] *)
Definition item_order (x y : SidebarItem) : Prop :=
  then_by (nulls_first (si_parent_id x) (si_parent_id y))
    (then_by (si_sort_order x ?= si_sort_order y)
       (string_compare (si_name x) (si_name y))) <> Gt.

#[global] Instance item_order_dec x y : Decision (item_order x y).
Proof. unfold item_order. apply _. Defined.

Definition getSidebarItems : M (list SidebarItem) :=
  query (fun db => merge_sort item_order (sidebar_items db)).

Definition createSidebarItem (name : jsstring) (parent_id : option Z)
    (item_type : jsstring) (icon : option jsstring) (sort_order : Z)
    : M SidebarItem :=
  insert_into nextval draw_sidebar_item_ids
    (insert_sidebar_item name parent_id item_type icon sort_order).

(** [DELETE FROM sidebar_items WHERE id = ${id}] *)
Definition deleteSidebarItem (id : Z) : M unit :=
  integer_parameter id ;;;
  execute (delete_sidebar_items_where (fun x => si_id x = id)).

Definition getDynamicTableBySidebarId (sidebarId : Z) : M (option DynamicTable) :=
  query (fun db => select_table_by_sidebar_id db sidebarId).

Definition createDynamicTable (sidebar_item_id : Z)
    (table_name display_name : jsstring) (description : option jsstring)
    : M DynamicTable :=
  insert_into nextval draw_dynamic_table_ids
    (insert_dynamic_table sidebar_item_id table_name display_name description).

(** [result[0]]: the updated row, [undefined] when no row has the id. *)
Definition updateTableColumn (id : Z) (updates : TableColumnUpdates)
    : M (option TableColumn) :=
  integer_parameter id ;;;
  result <- statement (update_table_column id updates) ;;
  ret (head result).

Definition createTableRow (tableId : Z) (rowData : gmap (list Z) JsValue)
    : M TableData :=
  insert_into nextval draw_table_data_ids (insert_table_data tableId rowData).

Definition updateTableRow (id : Z) (rowData : gmap (list Z) JsValue)
    : M (option TableData) :=
  integer_parameter id ;;;
  result <- statement (update_table_data id rowData) ;;
  ret (head result).

Definition updateSidebarItem (id : Z) (updates : SidebarItemUpdates)
    : M (option SidebarItem) :=
  integer_parameter id ;;;
  result <- statement (update_sidebar_item id updates) ;;
  ret (head result).

Definition getDynamicTable (id : Z) : M (option DynamicTable) :=
  query (fun db => select_table db id).

(** [ORDER BY sort_order, column_name] *)
Definition column_order (c d : TableColumn) : Prop :=
  then_by (tc_sort_order c ?= tc_sort_order d)
    (string_compare (tc_column_name c) (tc_column_name d)) <> Gt.

#[global] Instance column_order_dec c d : Decision (column_order c d).
Proof. unfold column_order. apply _. Defined.

Definition getTableColumns (tableId : Z) : M (list TableColumn) :=
  query (fun db =>
    merge_sort column_order
      (filter (fun c => tc_table_id c = tableId) (table_columns db))).

Definition createTableColumn (table_id : Z) (column_name display_name : jsstring)
    (data_type : DataType) (is_required : bool) (default_value : option jsstring)
    (sort_order width : Z) : M TableColumn :=
  insert_into nextval draw_table_column_ids
    (insert_table_column table_id column_name display_name data_type
       is_required default_value sort_order width).

Definition deleteTableColumn (id : Z) : M unit :=
  integer_parameter id ;;;
  execute (delete_table_columns_where (fun c => tc_id c = id)).

(** [ORDER BY id] *)
Definition row_order (r s : TableData) : Prop := td_id r <= td_id s.

#[global] Instance row_order_dec r s : Decision (row_order r s).
Proof. unfold row_order. apply _. Defined.

(** [WHERE table_id = ? ORDER BY id LIMIT ? OFFSET ?], for a limit and
    an offset that are natural numbers (the defaults are 100 and 0). *)
Definition getTableData (tableId : Z) (limit offset : nat) : M (list TableData) :=
  query (fun db =>
    take limit (drop offset
      (merge_sort row_order
         (filter (fun r => td_table_id r = tableId) (table_data db))))).

Definition deleteTableRow (id : Z) : M unit :=
  integer_parameter id ;;;
  execute (delete_table_data_where (fun r => td_id r = id)).

Definition service : DatabaseService :=
  Build_DatabaseService initializeTables getSidebarItems createSidebarItem
    createDynamicTable deleteSidebarItem.

End Pg.


(** *** The MySQL revision *)

Module MySql.
Import Store.

(** The [AUTO_INCREMENT] counter is advanced before the row reaches the
    keys, and by the number of rows of the statement; a value that the
    column's type refuses ([ENUM], [VARCHAR]) does not come that far. *)
Definition auto_increment : IdPolicy :=
  mkIdPolicy (fun e => match e with
                       | ForeignKeyViolation | UniqueViolation => true
                       | _ => false
                       end) true.

(** [SELECT * FROM sidebar_items WHERE id = LAST_INSERT_ID()], first row. *)
Definition last_inserted_item : M (option SidebarItem) :=
  query (fun db => select_item db (last_insert_id db)).

Definition last_inserted_table : M (option DynamicTable) :=
  query (fun db =>
    head (filter (fun t => dt_id t = last_insert_id db) (dynamic_tables db))).

Definition or_throw {A} (message : string) (r : option A) : M A :=
  match r with
  | Some a => ret a
  | None => throw (JsError (str message))
  end.

Definition seedInitialData : M unit :=
  try_catch
    (insert_into auto_increment draw_sidebar_item_ids
       (insert_sidebar_item (str "Tables") None (str "folder")
          (Some (str "folder")) 0) ;;;
     found <- last_inserted_item ;;
     tablesFolder <- or_throw "Failed to create root folder" found ;;
     insert_into auto_increment draw_sidebar_item_ids
       (insert_sidebar_item (str "Sample Customers")
          (Some (si_id tablesFolder)) (str "table")
          (Some (str "table")) 0) ;;;
     found <- last_inserted_item ;;
     sampleTableItem <- or_throw "Failed to create sample table item" found ;;
     insert_into auto_increment draw_dynamic_table_ids
       (insert_dynamic_table (si_id sampleTableItem)
          (str "sample_customers") (str "Sample Customers")
          (Some (str "A sample customer table to get you started"))) ;;;
     found <- last_inserted_table ;;
     dynamicTable <- or_throw "Failed to create dynamic table" found ;;
     insert_all auto_increment draw_table_column_ids
       (insert_sample_columns (dt_id dynamicTable)) ;;;
     insert_all auto_increment draw_table_data_ids
       (insert_sample_rows (dt_id dynamicTable)) ;;;
     ret tt)
    (fun error => throw error).

Definition initializeTables : M unit :=
  try_catch
    (count <- query (fun db => Z.of_nat (length (sidebar_items db))) ;;
     if count =? 0 then seedInitialData else ret tt)
    (fun error => throw error).

(** [ORDER BY ISNULL(parent_id) DESC, sort_order, name] *)
Definition item_order (x y : SidebarItem) : Prop :=
  then_by (is_null_desc (si_parent_id x) (si_parent_id y))
    (then_by (si_sort_order x ?= si_sort_order y)
       (string_compare (si_name x) (si_name y))) <> Gt.

#[global] Instance item_order_dec x y : Decision (item_order x y).
Proof. unfold item_order. apply _. Defined.

Definition getSidebarItems : M (list SidebarItem) :=
  query (fun db => merge_sort item_order (sidebar_items db)).

Definition createSidebarItem (name : jsstring) (parent_id : option Z)
    (item_type : jsstring) (icon : option jsstring) (sort_order : Z)
    : M SidebarItem :=
  insert_into auto_increment draw_sidebar_item_ids
    (insert_sidebar_item name parent_id item_type icon sort_order) ;;;
  result <- last_inserted_item ;;
  or_throw "Failed to create sidebar item" result.

(** The folder branch deletes the dynamic tables of the folder's direct
    table children and then the direct children; the rest is left to the
    foreign keys' cascade. *)
Definition deleteSidebarItem (id : Z) : M unit :=
  try_catch
    (found <- query (fun db => select_item db id) ;;
     item <- or_throw "Sidebar item not found" found ;;
     match si_item_type item with
     | Folder =>
         tableIds <- query (fun db =>
           si_id <$> filter (fun x => si_parent_id x = Some id /\
                                      si_item_type x = Table)
                       (sidebar_items db)) ;;
         (if (0 <? length tableIds)%nat
          then execute (delete_dynamic_tables_where
                          (fun t => dt_sidebar_item_id t ∈ tableIds))
          else ret tt) ;;;
         execute (delete_sidebar_items_where
                    (fun x => si_parent_id x = Some id))
     | Table =>
         execute (delete_dynamic_tables_where
                    (fun t => dt_sidebar_item_id t = id))
     end ;;;
     execute (delete_sidebar_items_where (fun x => si_id x = id)))
    (fun error => throw error).

Definition createDynamicTable (sidebar_item_id : Z)
    (table_name display_name : jsstring) (description : option jsstring)
    : M DynamicTable :=
  insert_into auto_increment draw_dynamic_table_ids
    (insert_dynamic_table sidebar_item_id table_name display_name
       description) ;;;
  result <- last_inserted_table ;;
  or_throw "Failed to create dynamic table" result.

(** The table is looked up before the insert. *)
Definition createTableRow (tableId : Z) (rowData : gmap (list Z) JsValue)
    : M TableData :=
  try_catch
    (count <- query (fun db => count_tables_with_id db tableId) ;;
     if count =? 0 then throw (TableNotFound tableId)
     else
       insert_into auto_increment draw_table_data_ids
         (insert_table_data tableId rowData) ;;;
       result <- query (fun db => select_row db (last_insert_id db)) ;;
       or_throw "Failed to create table row" result)
    (fun error => throw error).

Definition updateTableRow (id : Z) (rowData : gmap (list Z) JsValue)
    : M TableData :=
  statement (update_table_data id rowData) ;;;
  result <- query (fun db => select_row db id) ;;
  or_throw "Failed to update table row" result.

Definition service : DatabaseService :=
  Build_DatabaseService initializeTables getSidebarItems createSidebarItem
    createDynamicTable deleteSidebarItem.

End MySql.


(** ** app/api/sidebar/route.ts: [POST] *)

(** [body.parent_id]: [undefined] when the body has no such key, [null],
    or the id of the parent. *)
Inductive ParentId : Type :=
| ParentMissing
| ParentNull
| ParentOf (id : Z).

(** The value bound to the statement: [undefined] is bound as [NULL]. *)
Definition bound_parent (parent_id : ParentId) : option Z :=
  match parent_id with
  | ParentOf id => Some id
  | _ => None
  end.

(** [item.parent_id === parent_id] for a stored [item.parent_id], which
    is [null] or a number: [undefined] is equal to neither. *)
Definition same_parent (stored : option Z) (parent_id : ParentId) : Prop :=
  match stored, parent_id with
  | None, ParentNull => True
  | Some a, ParentOf b => a = b
  | _, _ => False
  end.

#[global] Instance same_parent_dec stored parent_id :
  Decision (same_parent stored parent_id).
Proof. destruct stored, parent_id; simpl; apply _. Defined.

(** The JSON body [{ name, parent_id, item_type, icon }]; for the
    strings [None] is a field that is missing or [null]. *)
Record SidebarRequest : Type := mkSidebarRequest {
  req_name : option jsstring;
  req_parent_id : ParentId;
  req_item_type : option jsstring;
  req_icon : option jsstring
}.

Inductive Response : Type :=
| Json200 (newItem : Store.SidebarItem)
| Json400                      (* "Name and item_type are required" *)
| Json500 (details : Store.Error).   (* "Failed to create sidebar item" *)

(** The handler's outer [try { ... } catch (error) { 500 }]. *)
Definition respond (c : Store.M Response) : Store.DB -> Response * Store.DB :=
  fun db =>
    match c db with
    | (inr r, db1) => (r, db1)
    | (inl e, db1) => (Json500 e, db1)
    end.

(** [!s] on a string field of the body. *)
Definition blank (s : option jsstring) : bool := negb (truthy (JString <$> s)).

(** [Math.max(...parentSiblings.map((item) => item.sort_order), 0) + 1]
    over [siblings.filter((item) => item.parent_id === parent_id)]. *)
Definition nextSortOrder (siblings : list Store.SidebarItem)
    (parent_id : ParentId) : Z :=
  let parentSiblings :=
    filter (fun item => same_parent (Store.si_parent_id item) parent_id)
           siblings in
  foldr Z.max 0 (Store.si_sort_order <$> parentSiblings) + 1.

(** [`Dynamic table: ${name}`] *)
Definition description_of (name : jsstring) : jsstring :=
  str "Dynamic table: " ++ name.

(** The revision of the named file: the dynamic table is provisioned
    with no handler of its own around it. *)
Module SidebarRoute.
Import Store.

Definition POST `{JsRuntime} `{DatabaseService} (request : SidebarRequest)
    : DB -> Response * DB :=
  respond
    (initializeTables ;;;
     if blank (req_name request) || blank (req_item_type request)
     then ret Json400
     else
       let name := default [] (req_name request) in
       let item_type := default [] (req_item_type request) in
       siblings <- getSidebarItems ;;
       newItem <- createSidebarItem name (bound_parent (req_parent_id request))
                    item_type (req_icon request)
                    (nextSortOrder siblings (req_parent_id request)) ;;
       (if bool_decide (item_type = str "table")
        then createDynamicTable (si_id newItem) (normalize name) name
               (Some (description_of name)) ;;; ret tt
        else ret tt) ;;;
       ret (Json200 newItem)).

End SidebarRoute.

(** The later revision: provisioning runs inside its own [try], whose
    handler deletes the sidebar item just created and rethrows. *)
Module SidebarRouteRollback.
Import Store.

Definition POST `{JsRuntime} `{DatabaseService} (request : SidebarRequest)
    : DB -> Response * DB :=
  respond
    (initializeTables ;;;
     if blank (req_name request) || blank (req_item_type request)
     then ret Json400
     else
       let name := default [] (req_name request) in
       let item_type := default [] (req_item_type request) in
       siblings <- getSidebarItems ;;
       newItem <- createSidebarItem name (bound_parent (req_parent_id request))
                    item_type (req_icon request)
                    (nextSortOrder siblings (req_parent_id request)) ;;
       (if bool_decide (item_type = str "table")
        then try_catch
               (createDynamicTable (si_id newItem) (normalize64 name) name
                  (Some (description_of name)) ;;; ret tt)
               (fun error => deleteSidebarItem (si_id newItem) ;;; throw error)
        else ret tt) ;;;
       ret (Json200 newItem)).

End SidebarRouteRollback.

(** ** The sidebar component: [buildTree] *)

Module DynamicSidebar.
Import Store.

(** An object of [itemMap]: the fields spread from the flat item and the
    [children] array.  [children] and [rootItems] hold references to the
    objects of [itemMap], and [itemMap] holds one object per id, so a
    reference is the id under which the object is stored. *)
Record TreeItem : Type := mkTreeItem {
  item : SidebarItem;
  children : list Z
}.

(** The second [forEach]: the item's object goes to [rootItems] when
    [parent_id] is [null], to the parent's [children] when the parent is
    in the map, and nowhere otherwise. *)
Definition link (acc : gmap Z TreeItem * list Z) (flatItem : SidebarItem)
    : gmap Z TreeItem * list Z :=
  let '(itemMap, rootItems) := acc in
  match si_parent_id flatItem with
  | None => (itemMap, rootItems ++ [si_id flatItem])
  | Some parent_id =>
      match itemMap !! parent_id with
      | Some parent =>
          (<[parent_id := mkTreeItem (item parent)
                            (children parent ++ [si_id flatItem])]> itemMap,
           rootItems)
      | None => (itemMap, rootItems)
      end
  end.

(** Returns [rootItems] together with the objects they refer to. *)
Definition buildTree (flatItems : list SidebarItem)
    : gmap Z TreeItem * list Z :=
  match flatItems with
  | [] => (∅, [])
  | _ =>
      let itemMap :=
        foldl (fun m flatItem => <[si_id flatItem := mkTreeItem flatItem []]> m)
              ∅ flatItems in
      foldl link (itemMap, []) flatItems
  end.

(** The forest as the component renders it: [renderItem] visits an
    object and then its [children], level by level.  [nodes_below]
    counts the objects visited from [ref] down to [depth] levels. *)
Fixpoint nodes_below (depth : nat) (itemMap : gmap Z TreeItem) (ref : Z) : nat :=
  match depth with
  | O => O
  | S d =>
      match itemMap !! ref with
      | Some o => S (sum_list_with (nodes_below d itemMap) (children o))
      | None => O
      end
  end.

Definition forest_nodes (depth : nat) (tree : gmap Z TreeItem * list Z) : nat :=
  sum_list_with (nodes_below depth tree.1) tree.2.

(** The flat item with a given id, and the parent chain of an item. *)
Definition item_with_id (flatItems : list SidebarItem) (i : Z)
    : option SidebarItem :=
  head (filter (fun x => si_id x = i) flatItems).

(** [chain_resolves n flatItems x]: following [parent_id] from [x]
    reaches an item whose [parent_id] is [null] within [n] items. *)
Fixpoint chain_resolves (n : nat) (flatItems : list SidebarItem)
    (x : SidebarItem) : bool :=
  match n with
  | O => false
  | S k =>
      match si_parent_id x with
      | None => true
      | Some p =>
          match item_with_id flatItems p with
          | Some px => chain_resolves k flatItems px
          | None => false
          end
      end
  end.

(** [resolves_at k flatItems x]: the parent chain of [x] reaches an item
    whose [parent_id] is [null] after exactly [k] steps. *)
Fixpoint resolves_at (k : nat) (flatItems : list SidebarItem)
    (x : SidebarItem) : Prop :=
  match k with
  | O => si_parent_id x = None
  | S j =>
      match si_parent_id x with
      | None => False
      | Some p =>
          match item_with_id flatItems p with
          | Some px => resolves_at j flatItems px
          | None => False
          end
      end
  end.

#[global] Instance resolves_at_dec k flatItems x :
  Decision (resolves_at k flatItems x).
Proof.
  revert x. induction k as [|j IH]; intros x; simpl; [apply _|].
  destruct (si_parent_id x) as [p|]; [|apply _].
  destruct (item_with_id flatItems p); apply _.
Defined.

(** The items at depth [k] of the forest, in the order of the flat list. *)
Definition level (k : nat) (flatItems : list SidebarItem) : list SidebarItem :=
  filter (resolves_at k flatItems) flatItems.

(** The number of items at the depths [k], [k + 1], ..., [k + d - 1]. *)
Fixpoint level_sizes (k d : nat) (flatItems : list SidebarItem) : nat :=
  match d with
  | O => O
  | S d' => length (level k flatItems) + level_sizes (S k) d' flatItems
  end.

(** The items whose parent is one of [parents]. *)
Definition children_of (parents flatItems : list SidebarItem) : list SidebarItem :=
  filter (fun c => Exists (fun x => si_parent_id c = Some (si_id x)) parents)
         flatItems.

(** The object stored for the id [i] once the items [seen] are linked. *)
Definition object_after (flat seen : list SidebarItem) (i : Z)
    : option TreeItem :=
  (fun x => mkTreeItem x
              (si_id <$> filter (fun c => si_parent_id c = Some i) seen))
  <$> item_with_id flat i.

(** The forest [tree] lists the roots among [items], and under every
    item its children among [items], in the sidebar's order. *)
Definition in_sidebar_order (items : list SidebarItem)
    (tree : gmap Z TreeItem * list Z) : Prop :=
  (exists roots,
     tree.2 = si_id <$> roots /\
     roots ≡ₚ filter (fun x => si_parent_id x = None) items /\
     StronglySorted sibling_order roots) /\
  (forall x, x ∈ items ->
     exists kids,
       tree.1 !! si_id x = Some (mkTreeItem x (si_id <$> kids)) /\
       kids ≡ₚ filter (fun c => si_parent_id c = Some (si_id x)) items /\
       StronglySorted sibling_order kids).


End DynamicSidebar.


(** ** The other routes

    Their answers: the value the handler hands to [NextResponse.json]
    with the default status, or the error status the handler chooses. *)
Inductive Reply (A : Type) : Type :=
| Reply200 (payload : A)
| Reply400
| Reply404
| Reply500.

Arguments Reply200 {A} payload.
Arguments Reply400 {A}.
Arguments Reply404 {A}.
Arguments Reply500 {A}.

(** The handlers' [try { ... } catch (error) { 500 }]. *)
Definition reply {A} (c : Store.M (Reply A)) : Store.DB -> Reply A * Store.DB :=
  fun db =>
    match c db with
    | (inr r, db1) => (r, db1)
    | (inl _, db1) => (Reply500, db1)
    end.

(** [Number.parseInt(params.id)] as the first statement of a handler
    takes it: [None] is [NaN], which the statement refuses, as it refuses
    a number that is no [INTEGER]. *)
Definition path_id (parsed : option Z) : Store.M Z :=
  match parsed with
  | Some id => Store.integer_parameter id ;;; Store.ret id
  | None => Store.throw (Store.SqlFailure Store.InvalidTextRepresentation)
  end.

(** [NextResponse.json(value)]: [undefined] cannot be serialised, the
    call throws. *)
Definition json {A} (value : option A) : Store.M (Reply A) :=
  match value with
  | Some a => Store.ret (Reply200 a)
  | None => Store.throw (Store.JsError (str "Value is not JSON serializable"))
  end.

(** app/api/tables/[id]/data/[rowId]/route.ts, over the PostgreSQL
    revision of the service.  The table id of the path is not used. *)
Module RowRoute.
Import Store.

Definition PUT (params_rowId : option Z) (data : gmap (list Z) JsValue)
    : DB -> Reply TableData * DB :=
  reply (rowId <- path_id params_rowId ;;
         row <- Pg.updateTableRow rowId data ;;
         json row).

End RowRoute.

(** app/api/sidebar/[id]/route.ts, first revision. *)
Module ItemRoute.
Import Store.

Definition PUT (params_id : option Z) (body : SidebarItemUpdates)
    : DB -> Reply SidebarItem * DB :=
  reply (id <- path_id params_id ;;
         updatedItem <- Pg.updateSidebarItem id body ;;
         json updatedItem).

Definition DELETE (params_id : option Z) : DB -> Reply unit * DB :=
  reply (id <- path_id params_id ;;
         Pg.deleteSidebarItem id ;;; ret (Reply200 tt)).

End ItemRoute.

(** The sidebar component's [handleEditItem] sends [{ name: newItemName }]
    to [PUT /api/sidebar/[id]]. *)
Definition renameRequest (newItemName : jsstring) : Store.SidebarItemUpdates :=
  Store.mkSidebarItemUpdates (Some newItemName) None None None None.


(** app/api/tables/[id]/route.ts: the path carries the sidebar item's
    id. *)
Module TableRoute.
Import Store.

Definition GET (params_id : option Z) : DB -> Reply DynamicTable * DB :=
  reply (sidebarItemId <- path_id params_id ;;
         table <- Pg.getDynamicTableBySidebarId sidebarItemId ;;
         match table with
         | None => ret Reply404
         | Some t => ret (Reply200 t)
         end).

End TableRoute.

(** The JSON body of app/api/tables/create/route.ts; [None] is a field
    that is missing or [null]. *)
Record TableRequest : Type := mkTableRequest {
  treq_sidebar_item_id : option Z;
  treq_table_name : option jsstring;
  treq_display_name : option jsstring;
  treq_description : option jsstring
}.

(** app/api/tables/create/route.ts: the three required fields are tested
    for truthiness, so the id 0 counts as missing; the names go to the
    store as they are. *)
Module TableCreateRoute.
Import Store.

Definition POST (body : TableRequest) : DB -> Reply DynamicTable * DB :=
  reply (if negb (truthy (JNumber <$> treq_sidebar_item_id body)) ||
            blank (treq_table_name body) || blank (treq_display_name body)
         then ret Reply400
         else
           table <- Pg.createDynamicTable
                      (default 0 (treq_sidebar_item_id body))
                      (default [] (treq_table_name body))
                      (default [] (treq_display_name body))
                      (treq_description body) ;;
           ret (Reply200 table)).

End TableCreateRoute.

(** The JSON body of the column dialog; [None] is a field that is
    missing or [null]. *)
Record ColumnRequest : Type := mkColumnRequest {
  creq_name : option jsstring;
  creq_data_type : option jsstring;
  creq_is_required : option bool;
  creq_default_value : option jsstring;
  creq_sort_order : option Z
}.

(** app/api/tables/[id]/columns/route.ts *)
Module ColumnsRoute.
Import Store.

Definition GET (params_id : option Z) : DB -> Reply (list TableColumn) * DB :=
  reply (sidebarItemId <- path_id params_id ;;
         dynamicTable <- Pg.getDynamicTableBySidebarId sidebarItemId ;;
         match dynamicTable with
         | None => ret Reply404
         | Some t =>
             columns <- Pg.getTableColumns (dt_id t) ;;
             ret (Reply200 columns)
         end).

(** [columnData] takes [body.name] for both names, [body.is_required ||
    false], [body.default_value || null], [body.sort_order || 0] and the
    width 150.  A [name] or [data_type] that is missing violates
    [NOT NULL], and a [data_type] outside the seven type names violates
    the [CHECK]: the insert fails and the handler answers 500. *)
Definition POST (params_id : option Z) (body : ColumnRequest)
    : DB -> Reply TableColumn * DB :=
  reply (sidebarItemId <- path_id params_id ;;
         dynamicTable <- Pg.getDynamicTableBySidebarId sidebarItemId ;;
         match dynamicTable with
         | None => ret Reply404
         | Some t =>
             match creq_name body, creq_data_type body with
             | Some name, Some data_type =>
                 match parse_data_type data_type with
                 | Some ty =>
                     column <- Pg.createTableColumn (dt_id t) name name ty
                                 (default false (creq_is_required body))
                                 (if truthy (JString <$> creq_default_value body)
                                  then creq_default_value body else None)
                                 (default 0 (creq_sort_order body)) 150 ;;
                     ret (Reply200 column)
                 | None => throw (SqlFailure CheckViolation)
                 end
             | _, _ => ret Reply500
             end
         end).

End ColumnsRoute.

(** app/api/tables/[id]/columns/[columnId]/route.ts: [DELETE]. *)
Module ColumnRoute.
Import Store.

Definition DELETE (params_columnId : option Z) : DB -> Reply unit * DB :=
  reply (columnId <- path_id params_columnId ;;
         Pg.deleteTableColumn columnId ;;; ret (Reply200 tt)).

End ColumnRoute.


(** app/api/tables/[id]/data/[rowId]/route.ts: [DELETE]. *)
Module RowDeleteRoute.
Import Store.

Definition DELETE (params_rowId : option Z) : DB -> Reply unit * DB :=
  reply (rowId <- path_id params_rowId ;;
         Pg.deleteTableRow rowId ;;; ret (Reply200 tt)).

End RowDeleteRoute.

(** ** lib/database.ts, third revision: the [sql] tag

    The branch for a template literal: the query starts as [strings[0]];
    each value that is not [undefined] becomes a parameter, and a
    placeholder is appended with the next chunk when that chunk is not
    empty.  [rest] holds [strings[i + 1]] onwards. *)
Fixpoint sql_loop (values : list (option JsValue)) (rest : list jsstring)
    (query : jsstring) (params : list JsValue) : jsstring * list JsValue :=
  match values with
  | [] => (query, params)
  | v :: values' =>
      let params' := match v with
                     | Some x => params ++ [x]
                     | None => params
                     end in
      match rest with
      | [] => sql_loop values' [] query params'
      | [] :: rest' => sql_loop values' rest' query params'
      | s :: rest' => sql_loop values' rest' (query ++ str "?" ++ s) params'
      end
  end.

Definition sql_template (strings : list jsstring)
    (values : list (option JsValue)) : jsstring * list JsValue :=
  match strings with
  | [] => ([], [])
  | first :: rest => sql_loop values rest first []
  end.

(** The sidebar component's [toggleExpanded] over the set of expanded
    ids. *)
Definition toggleExpanded (expandedItems : gset Z) (itemId : Z) : gset Z :=
  if bool_decide (itemId ∈ expandedItems)
  then expandedItems ∖ {[ itemId ]}
  else expandedItems ∪ {[ itemId ]}.


(** ** A sample store

    A root folder "Tables" (1) holding the table item "Customers" (2),
    whose dynamic table (1) has the columns [a] and [b] and one row
    [{a: 1, b: 2}]. *)

Definition sample_db : Store.DB :=
  Store.mkDB
    [Store.mkSidebarItem 1 (str "Tables") None Store.Folder
       (Some (str "folder")) 0 0 0;
     Store.mkSidebarItem 2 (str "Customers") (Some 1) Store.Table
       (Some (str "table")) 0 0 0]
    [Store.mkDynamicTable 1 2 (str "customers") (str "Customers") None 0 0]
    [Store.mkTableColumn 1 1 (str "a") (str "a") Store.TNumber false None
       0 150 0 0;
     Store.mkTableColumn 2 1 (str "b") (str "b") Store.TNumber false None
       1 150 0 0]
    [Store.mkTableData 1 1
       (list_to_map [(str "a", JNumber 1); (str "b", JNumber 2)]) 0 0]
    3 2 3 2 0 10 (Store.mkSchema true false true).

(** The grid over the sample store's table, after the column [b] was
    deleted and a column [c] with the default "5" was added; its row
    still holds [b] and has no [c]. *)
Definition grid_columns : list TableView.Column :=
  [TableView.mkColumn 1 (str "a") (str "number") false None 0;
   TableView.mkColumn 3 (str "c") (str "number") false (Some (str "5")) 1].

Definition grid_row : TableView.TableData :=
  TableView.mkTableData 1
    (list_to_map [(str "a", JNumber 1); (str "b", JNumber 2)]).

(** A deeper store: the root folder "Tables" (1) holds the folder
    "Sales" (2), which holds the table item "Orders" (3) with its dynamic
    table (1), one column and one row; the root folder "Other" (4) holds
    the table item "Notes" (5) with its dynamic table (2). *)
Definition nested_db : Store.DB :=
  Store.mkDB
    [Store.mkSidebarItem 1 (str "Tables") None Store.Folder
       (Some (str "folder")) 0 0 0;
     Store.mkSidebarItem 2 (str "Sales") (Some 1) Store.Folder
       (Some (str "folder")) 1 0 0;
     Store.mkSidebarItem 3 (str "Orders") (Some 2) Store.Table
       (Some (str "table")) 1 0 0;
     Store.mkSidebarItem 4 (str "Other") None Store.Folder
       (Some (str "folder")) 1 0 0;
     Store.mkSidebarItem 5 (str "Notes") (Some 4) Store.Table
       (Some (str "table")) 1 0 0]
    [Store.mkDynamicTable 1 3 (str "orders") (str "Orders") None 0 0;
     Store.mkDynamicTable 2 5 (str "notes") (str "Notes") None 0 0]
    [Store.mkTableColumn 1 1 (str "total") (str "Total") Store.TNumber false
       None 0 150 0 0;
     Store.mkTableColumn 2 2 (str "text") (str "Text") Store.TText false
       None 0 150 0 0]
    [Store.mkTableData 1 1 {[ str "total" := JNumber 12 ]} 0 0;
     Store.mkTableData 2 2 {[ str "text" := JString (str "hi") ]} 0 0]
    6 3 3 3 0 10 (Store.mkSchema true true true).

(** ** The claim's reading of the next sort order

    [max(sort_order of existing siblings)]: the greatest element of a
    non-empty list, nothing for the empty one. *)
Definition greatest (l : list Z) : option Z :=
  match l with
  | [] => None
  | x :: rest => Some (foldr Z.max x rest)
  end.

(** A store whose only root item was moved to the sort order -5 (the
    rename route hands its body to [updateSidebarItem], which writes a
    supplied [sort_order]). *)
Definition negative_db : Store.DB :=
  Store.mkDB
    [Store.mkSidebarItem 1 (str "Tables") None Store.Folder
       (Some (str "folder")) (-5) 0 0]
    [] [] [] 2 1 1 1 0 10 (Store.mkSchema true false true).

(** The request that creates a second table named "Customers" under the
    root folder of [sample_db], whose schema has [UNIQUE (table_name)]
    and already holds the table name [customers]. *)
Definition duplicate_table_request : SidebarRequest :=
  mkSidebarRequest (Some (str "Customers")) (ParentOf 1) (Some (str "table"))
    (Some (str "table")).

(** A flat list whose only item names a parent (99) that is not in it. *)
Definition orphan_items : list Store.SidebarItem :=
  [Store.mkSidebarItem 1 (str "Lost") (Some 99) Store.Table
     (Some (str "table")) 0 0 0].

(** ** The date part of an ISO timestamp *)

(** [YYYY-MM-DD] (with the expanded year outside 0..9999). *)
Definition isoDate (d : JsDate) : jsstring :=
  isoYear (utcFullYear d) ++ str "-" ++ pad2 (utcMonth d) ++ str "-" ++
  pad2 (utcDate d).

(* ================================================================== *)
(** * Properties *)
(* ================================================================== *)

(** ** Dates *)

Lemma digit_range n : 48 <= digit n <= 57.
Proof. unfold digit. pose proof (Z.mod_pos_bound n 10). lia. Qed.

Lemma split_head_app_sep sep (a b : jsstring) :
  Forall (fun c => c <> sep) a ->
  split_head sep (a ++ sep :: b) = a.
Proof.
  induction 1 as [|c a Hc _ IH]; simpl.
  - by rewrite Z.eqb_refl.
  - destruct (Z.eqb_spec c sep) as [->|_]; [done|]. by rewrite IH.
Qed.

Ltac not_T :=
  match goal with
  | |- digit ?k <> _ => pose proof (digit_range k); lia
  | |- _ <> _ => lia
  end.

Ltac no_T := repeat (constructor; [not_T|]); constructor.

Lemma pad2_no_T n : Forall (fun c => c <> 84) (pad2 n).
Proof. unfold pad2. no_T. Qed.

Lemma isoYear_no_T y : Forall (fun c => c <> 84) (isoYear y).
Proof.
  unfold isoYear, pad6, pad4, pad3, pad2.
  destruct ((0 <=? y) && (y <=? 9999)); [|destruct (y <? 0)];
    [|change (str "-") with [45]|change (str "+") with [43]]; simpl; no_T.
Qed.

Lemma isoDate_no_T d : Forall (fun c => c <> 84) (isoDate d).
Proof.
  unfold isoDate. rewrite !Forall_app. repeat split;
    auto using pad2_no_T, isoYear_no_T; change (str "-") with [45]; no_T.
Qed.

(** [new Date().toISOString().split("T")[0]] is the date part. *)
Lemma split_T_toISOString d : split_head 84 (toISOString d) = isoDate d.
Proof.
  unfold toISOString.
  replace (isoYear (utcFullYear d) ++ str "-" ++ pad2 (utcMonth d) ++
           str "-" ++ pad2 (utcDate d) ++ str "T" ++ pad2 (utcHours d) ++
           str ":" ++ pad2 (utcMinutes d) ++ str ":" ++ pad2 (utcSeconds d) ++
           str "." ++ pad3 (utcMilliseconds d) ++ str "Z")
    with (isoDate d ++ 84 :: (pad2 (utcHours d) ++
           str ":" ++ pad2 (utcMinutes d) ++ str ":" ++ pad2 (utcSeconds d) ++
           str "." ++ pad3 (utcMilliseconds d) ++ str "Z")).
  - apply split_head_app_sep, isoDate_no_T.
  - unfold isoDate. by rewrite <- !app_assoc.
Qed.

(** For a year in 0..9999 the date part is ten units, [YYYY-MM-DD]. *)
Lemma isoDate_four_digit_year d :
  0 <= utcFullYear d <= 9999 ->
  isoDate d = pad4 (utcFullYear d) ++ str "-" ++ pad2 (utcMonth d) ++
              str "-" ++ pad2 (utcDate d) /\
  length (isoDate d) = 10%nat.
Proof.
  intros Hy. unfold isoDate, isoYear.
  replace ((0 <=? utcFullYear d) && (utcFullYear d <=? 9999)) with true
    by (symmetry; apply andb_true_iff; split; apply Z.leb_le; lia).
  done.
Qed.

Example isoDate_example :
  TableView.getDefaultValueForType
    (mkJsDate 2026 11 3 9 5 0 7) (str "date") None = JString (str "2026-11-03").
Proof. reflexivity. Qed.

(** ** Read-side default resolution (components/table-view.tsx) *)

Import TableView.

Lemma getDefault_explicit now ty d :
  d <> [] -> getDefaultValueForType now ty (Some d) = JString d.
Proof.
  intros Hd. unfold getDefaultValueForType. simpl.
  by rewrite bool_decide_eq_false_2.
Qed.

Lemma getDefault_empty_is_absent now ty :
  getDefaultValueForType now ty (Some []) = getDefaultValueForType now ty None.
Proof. reflexivity. Qed.

Lemma get_property_own o k v : o !! k = Some v -> get_property o k = Some v.
Proof. intros H. unfold get_property. by rewrite H. Qed.

Lemma get_property_undefined o k :
  o !! k = None -> k ∉ object_prototype_keys -> get_property o k = None.
Proof.
  intros H Hk. unfold get_property. rewrite H.
  unfold object_prototype_keys in Hk. rewrite elem_of_app, list_elem_of_singleton in Hk.
  rewrite !bool_decide_eq_false_2; [done|tauto|tauto].
Qed.

Lemma get_property_function o k :
  o !! k = None -> k ∈ object_prototype_functions ->
  get_property o k = Some (JFunction k).
Proof. intros H Hk. unfold get_property. by rewrite H, bool_decide_eq_true_2. Qed.

Lemma get_property_proto o :
  o !! str "__proto__" = None ->
  get_property o (str "__proto__") = Some (JObject []).
Proof. intros H. unfold get_property. by rewrite H. Qed.

Lemma cellValue_own now row col v :
  row_data row !! col_name col = Some v ->
  cellValue now row col =
  js_or (Some v)
    (getDefaultValueForType now (col_data_type col) (col_default_value col)).
Proof. intros H. unfold cellValue. by rewrite (get_property_own _ _ _ H). Qed.

Lemma cellValue_absent now row col :
  row_data row !! col_name col = None ->
  col_name col ∉ object_prototype_keys ->
  cellValue now row col =
  getDefaultValueForType now (col_data_type col) (col_default_value col).
Proof.
  intros H Hk. unfold cellValue. by rewrite (get_property_undefined _ _ H Hk).
Qed.

Lemma cellValue_inherited now row col :
  row_data row !! col_name col = None ->
  col_name col ∈ object_prototype_functions ->
  cellValue now row col = JFunction (col_name col).
Proof.
  intros H Hk. unfold cellValue. by rewrite (get_property_function _ _ H Hk).
Qed.







(** ** The identifier normalizer *)

Lemma ident_char_not_whitespace c :
  is_ident_char c = true -> is_whitespace c = false.
Proof.
  unfold is_ident_char, is_whitespace. intros H.
  repeat (apply orb_false_intro);
    try (apply andb_false_iff);
    rewrite ?Z.eqb_neq, ?Z.leb_gt;
    rewrite !orb_true_iff, !andb_true_iff, !Z.leb_le, Z.eqb_eq in H; lia.
Qed.

Lemma strip_non_ident_charset s :
  Forall (fun c => is_ident_char c = true) (strip_non_ident s).
Proof.
  induction s as [|c s IH]; simpl; [constructor|].
  destruct (is_ident_char c) eqn:Hc; [constructor|]; done.
Qed.

Lemma strip_non_ident_fixes s :
  Forall (fun c => is_ident_char c = true) s -> strip_non_ident s = s.
Proof.
  induction 1 as [|c s Hc _ IH]; simpl; [done|].
  rewrite Hc. f_equal. exact IH.
Qed.

Lemma replace_ws_from_fixes b s :
  Forall (fun c => is_ident_char c = true) s -> replace_ws_from b s = s.
Proof.
  intros Hs. revert b. induction Hs as [|c s Hc _ IH]; intros b; simpl; [done|].
  rewrite (ident_char_not_whitespace _ Hc). f_equal. apply IH.
Qed.

(** C6: the normalizer is a total function whose output consists of
    units in [[a-z0-9_]] only, and, [toLowerCase] leaving strings over
    [[a-z0-9_]] unchanged, normalizing its output returns that output. *)
Theorem normalize_total_idempotent (rt : JsRuntime) :
  (forall s, Forall (fun c => is_ident_char c = true) s -> toLowerCase s = s) ->
  forall name,
    Forall (fun c => is_ident_char c = true) (normalize name) /\
    normalize (normalize name) = normalize name.
Proof.
  intros Hlower name.
  assert (Hcs : Forall (fun c => is_ident_char c = true) (normalize name))
    by apply strip_non_ident_charset.
  split; [exact Hcs|].
  unfold normalize at 1. rewrite (Hlower _ Hcs).
  unfold replace_ws_runs. rewrite (replace_ws_from_fixes _ _ Hcs).
  by apply strip_non_ident_fixes.
Qed.

Lemma ascii_lower_fixes_ident s :
  Forall (fun c => is_ident_char c = true) s ->
  toLowerCase (JsRuntime := ascii_runtime) s = s.
Proof.
  induction 1 as [|c s Hc _ IH]; simpl in *; [done|].
  rewrite IH. f_equal. unfold ascii_lower, is_ident_char in *.
  destruct ((65 <=? c) && (c <=? 90)) eqn:Hup; [|done].
  rewrite !orb_true_iff, !andb_true_iff, !Z.leb_le, Z.eqb_eq in Hc.
  rewrite andb_true_iff, !Z.leb_le in Hup. lia.
Qed.

Lemma normalize_total_idempotent_witness :
  normalize (H := ascii_runtime) (str "Full  Name (2)!") = str "full_name_2" /\
  normalize (H := ascii_runtime)
    (normalize (H := ascii_runtime) (str "Full  Name (2)!")) =
  normalize (H := ascii_runtime) (str "Full  Name (2)!").
Proof.
  split; [reflexivity|].
  exact (proj2 (normalize_total_idempotent ascii_runtime ascii_lower_fixes_ident
                  (str "Full  Name (2)!"))).
Defined.

(** The later revision's cut to 64 units keeps both properties. *)
Lemma normalize64_total_idempotent (rt : JsRuntime) :
  (forall s, Forall (fun c => is_ident_char c = true) s -> toLowerCase s = s) ->
  forall name,
    Forall (fun c => is_ident_char c = true) (normalize64 name) /\
    normalize64 (normalize64 name) = normalize64 name.
Proof.
  intros Hlower name.
  assert (Hcs : Forall (fun c => is_ident_char c = true) (normalize64 name)).
  { unfold normalize64. apply Forall_take, strip_non_ident_charset. }
  split; [exact Hcs|].
  unfold normalize64 at 1, normalize. rewrite (Hlower _ Hcs).
  unfold replace_ws_runs. rewrite (replace_ws_from_fixes _ _ Hcs).
  rewrite (strip_non_ident_fixes _ Hcs).
  unfold normalize64. by rewrite take_take, Nat.min_id.
Qed.

(** ** Numbers bound to id parameters *)

Section IdParameters.
Import Store.

Lemma integer_parameter_ok db n :
  is_integer db n -> integer_parameter n db = (inr tt, db).
Proof. intros Hn. unfold integer_parameter. by rewrite bool_decide_eq_true_2. Qed.

Lemma integer_parameter_refused db n :
  ~ is_integer db n ->
  integer_parameter n db = (inl (SqlFailure NumericValueOutOfRange), db).
Proof. intros Hn. unfold integer_parameter. by rewrite bool_decide_eq_false_2. Qed.

Lemma int4_is_integer db n : int4 n -> is_integer db n.
Proof. by left. Qed.

Lemma item_id_is_integer db i : item_exists db i -> is_integer db i.
Proof.
  intros Hi. right. unfold integers_of. apply elem_of_app. by left.
Qed.

Lemma table_id_is_integer db i : table_exists db i -> is_integer db i.
Proof.
  intros Hi. right. unfold integers_of. rewrite !elem_of_app. tauto.
Qed.

Lemma selected_item_is_integer db i x : select_item db i = Some x -> is_integer db i.
Proof.
  intros Hx. apply item_id_is_integer. unfold item_exists.
  apply head_Some_elem_of, list_elem_of_filter in Hx as [<- Hx].
  by apply list_elem_of_fmap_2.
Qed.

Lemma bound_item_is_integer db i t :
  select_table_by_sidebar_id db i = Some t -> is_integer db i.
Proof.
  intros Ht. right. unfold integers_of. rewrite !elem_of_app.
  apply head_Some_elem_of, list_elem_of_filter in Ht as [<- Ht].
  do 3 right. left. by apply list_elem_of_fmap_2.
Qed.

Lemma column_id_is_integer db c : c ∈ table_columns db -> is_integer db (tc_id c).
Proof.
  intros Hc. right. unfold integers_of. rewrite !elem_of_app.
  do 4 right. left. by apply list_elem_of_fmap_2.
Qed.

Lemma selected_column_is_integer db i c :
  select_column db i = Some c -> is_integer db i.
Proof.
  intros Hc. apply head_Some_elem_of, list_elem_of_filter in Hc as [<- Hc].
  by apply column_id_is_integer.
Qed.

Lemma row_id_is_integer db r : r ∈ table_data db -> is_integer db (td_id r).
Proof.
  intros Hr. right. unfold integers_of. rewrite !elem_of_app.
  do 6 right. left. by apply list_elem_of_fmap_2.
Qed.

Lemma selected_row_is_integer db i r : select_row db i = Some r -> is_integer db i.
Proof.
  intros Hr. apply head_Some_elem_of, list_elem_of_filter in Hr as [<- Hr].
  by apply row_id_is_integer.
Qed.

Lemma table_binding_is_integer db t :
  t ∈ dynamic_tables db -> is_integer db (dt_sidebar_item_id t).
Proof.
  intros Ht. right. unfold integers_of. rewrite !elem_of_app.
  do 3 right. left. by apply list_elem_of_fmap_2.
Qed.

Lemma Pg_deleteSidebarItem_run id db :
  is_integer db id ->
  Pg.deleteSidebarItem id db =
  (inr tt, delete_sidebar_items_where (fun x => si_id x = id) db).
Proof.
  intros Hid. unfold Pg.deleteSidebarItem, bind.
  by rewrite integer_parameter_ok.
Qed.

Lemma Pg_deleteTableColumn_run id db :
  is_integer db id ->
  Pg.deleteTableColumn id db =
  (inr tt, delete_table_columns_where (fun c => tc_id c = id) db).
Proof.
  intros Hid. unfold Pg.deleteTableColumn, bind.
  by rewrite integer_parameter_ok.
Qed.

Lemma Pg_deleteTableRow_run id db :
  is_integer db id ->
  Pg.deleteTableRow id db =
  (inr tt, delete_table_data_where (fun r => td_id r = id) db).
Proof.
  intros Hid. unfold Pg.deleteTableRow, bind.
  by rewrite integer_parameter_ok.
Qed.

Lemma Pg_updateSidebarItem_run id updates db :
  is_integer db id ->
  Pg.updateSidebarItem id updates db =
  (result <- statement (update_sidebar_item id updates) ;; ret (head result)) db.
Proof.
  intros Hid. unfold Pg.updateSidebarItem. unfold bind at 1.
  by rewrite integer_parameter_ok.
Qed.

Lemma Pg_updateTableColumn_run id updates db :
  is_integer db id ->
  Pg.updateTableColumn id updates db =
  (result <- statement (update_table_column id updates) ;; ret (head result)) db.
Proof.
  intros Hid. unfold Pg.updateTableColumn. unfold bind at 1.
  by rewrite integer_parameter_ok.
Qed.

Lemma Pg_updateTableRow_run id rowData db :
  is_integer db id ->
  Pg.updateTableRow id rowData db =
  (result <- statement (update_table_data id rowData) ;; ret (head result)) db.
Proof.
  intros Hid. unfold Pg.updateTableRow. unfold bind at 1.
  by rewrite integer_parameter_ok.
Qed.

(** A number that is no [INTEGER] makes the statement raise. *)
Lemma Pg_id_refused id db :
  ~ is_integer db id ->
  Pg.deleteSidebarItem id db = (inl (SqlFailure NumericValueOutOfRange), db) /\
  Pg.deleteTableColumn id db = (inl (SqlFailure NumericValueOutOfRange), db) /\
  Pg.deleteTableRow id db = (inl (SqlFailure NumericValueOutOfRange), db) /\
  (forall u, Pg.updateSidebarItem id u db =
             (inl (SqlFailure NumericValueOutOfRange), db)) /\
  (forall u, Pg.updateTableColumn id u db =
             (inl (SqlFailure NumericValueOutOfRange), db)) /\
  (forall m, Pg.updateTableRow id m db =
             (inl (SqlFailure NumericValueOutOfRange), db)).
Proof.
  intros Hid.
  unfold Pg.deleteSidebarItem, Pg.deleteTableColumn, Pg.deleteTableRow,
    Pg.updateSidebarItem, Pg.updateTableColumn, Pg.updateTableRow, bind.
  by rewrite integer_parameter_refused.
Qed.

(** The handlers' reading of the path: a number that is an [INTEGER]
    goes through, [NaN] and the other numbers make the handler answer
    500 with the store as it was. *)
Lemma path_id_ok db n : is_integer db n -> path_id (Some n) db = (inr n, db).
Proof.
  intros Hn. unfold path_id, bind. by rewrite integer_parameter_ok.
Qed.

Lemma path_id_refused db n :
  ~ is_integer db n ->
  path_id (Some n) db = (inl (SqlFailure NumericValueOutOfRange), db).
Proof.
  intros Hn. unfold path_id, bind. by rewrite integer_parameter_refused.
Qed.

Lemma route_path_id {A} id db (k : Z -> M (Reply A)) :
  is_integer db id ->
  reply (x <- path_id (Some id) ;; k x) db = reply (k id) db.
Proof. intros Hid. unfold reply, bind. by rewrite path_id_ok. Qed.

Lemma route_path_refused {A} id db (k : Z -> M (Reply A)) :
  ~ is_integer db id ->
  reply (x <- path_id (Some id) ;; k x) db = (Reply500, db).
Proof. intros Hid. unfold reply, bind. by rewrite path_id_refused. Qed.

Lemma route_path_nan {A} db (k : Z -> M (Reply A)) :
  reply (x <- path_id None ;; k x) db = (Reply500, db).
Proof. reflexivity. Qed.

Lemma ColumnsRoute_GET_run id db :
  is_integer db id ->
  ColumnsRoute.GET (Some id) db =
  (match select_table_by_sidebar_id db id with
   | Some t =>
       Reply200 (merge_sort Pg.column_order
                   (filter (fun c => tc_table_id c = dt_id t) (table_columns db)))
   | None => Reply404
   end, db).
Proof.
  intros Hid. unfold ColumnsRoute.GET. rewrite route_path_id by done.
  unfold reply, bind, Pg.getDynamicTableBySidebarId, query.
  by destruct (select_table_by_sidebar_id db id).
Qed.

Lemma TableRoute_GET_run id db :
  is_integer db id ->
  TableRoute.GET (Some id) db =
  (match select_table_by_sidebar_id db id with
   | Some t => Reply200 t
   | None => Reply404
   end, db).
Proof.
  intros Hid. unfold TableRoute.GET. rewrite route_path_id by done.
  unfold reply, bind, Pg.getDynamicTableBySidebarId, query.
  by destruct (select_table_by_sidebar_id db id).
Qed.

End IdParameters.


(** ** Rows and columns (lib/database.ts) *)

Section RowsAndColumns.
Import Store.

Lemma filter_fmap_stable {A} (P : A -> Prop) `{forall x, Decision (P x)}
    (f : A -> A) (l : list A) :
  (forall x, P (f x) <-> P x) ->
  filter P (f <$> l) = f <$> filter P l.
Proof.
  intros Hf. induction l as [|x l IH]; [done|].
  rewrite fmap_cons, !filter_cons, IH.
  destruct (decide (P (f x))) as [Hy|Hn], (decide (P x)) as [Hy'|Hn'];
    try done; exfalso; [apply Hn', Hf, Hy | apply Hn, Hf, Hy'].
Qed.

Lemma head_fmap_list {A B} (f : A -> B) (l : list A) :
  head (f <$> l) = f <$> head l.
Proof. by destruct l. Qed.

(** C2: [updateTableRow(id, m)] on an existing row stores [m] as the
    row's whole [row_data]: the returned row and the row read back hold
    exactly [m], so a key of the old mapping that [m] lacks is gone. *)
Theorem updateTableRow_replaces_row_data id m db old :
  select_row db id = Some old ->
  exists r db',
    Pg.updateTableRow id m db = (inr (Some r), db') /\
    select_row db' id = Some r /\
    td_id r = id /\ td_table_id r = td_table_id old /\
    td_row_data r = m /\
    (forall k, is_Some (td_row_data old !! k) -> m !! k = None ->
               td_row_data r !! k = None) /\
    (forall r', r' ∈ table_data db' -> td_id r' = id -> td_row_data r' = m).
Proof.
  intros Hold.
  set (write := fun r : TableData =>
         if bool_decide (td_id r = id)
         then mkTableData (td_id r) (td_table_id r) m (td_created_at r) (clock db)
         else r).
  assert (Hid : forall r, td_id (write r) = id <-> td_id r = id).
  { intros r. unfold write. by case_bool_decide. }
  assert (Hsel : head (filter (fun r => td_id r = id) (write <$> table_data db))
                 = Some (write old)).
  { rewrite (filter_fmap_stable _ _ _ Hid), head_fmap_list.
    unfold select_row in Hold. by rewrite Hold. }
  assert (Holdid : td_id old = id).
  { unfold select_row in Hold. apply head_Some_elem_of in Hold.
    by apply list_elem_of_filter in Hold as [? _]. }
  exists (write old). eexists. split; [|split].
  - unfold Pg.updateTableRow, bind.
    rewrite (integer_parameter_ok db id) by (by eapply selected_row_is_integer).
    unfold statement, insert_into, ret, update_table_data.
    fold write. by rewrite Hsel.
  - unfold select_row. simpl. exact Hsel.
  - unfold write. rewrite bool_decide_eq_true_2 by done. simpl.
    repeat split; try done.
    intros r' Hr' Hr'id. apply list_elem_of_fmap in Hr' as (r0 & -> & _).
    destruct (bool_decide (td_id r0 = id)) eqn:E; [reflexivity|].
    apply bool_decide_eq_false in E. contradiction.
Qed.

Lemma updateTableRow_replaces_row_data_witness :
  exists r db',
    Pg.updateTableRow 1 {[ str "a" := JNumber 9 ]} sample_db = (inr (Some r), db') /\
    td_row_data r = {[ str "a" := JNumber 9 ]} /\
    td_row_data r !! str "b" = None.
Proof.
  destruct (updateTableRow_replaces_row_data 1 {[ str "a" := JNumber 9 ]}
              sample_db
              (mkTableData 1 1
                 (list_to_map [(str "a", JNumber 1); (str "b", JNumber 2)]) 0 0)
              eq_refl)
    as (r & db' & Hrun & _ & _ & _ & Hdata & Hdrop & _).
  exists r, db'. split; [exact Hrun|]. split; [exact Hdata|].
  apply Hdrop; [|reflexivity]. exists (JNumber 2). reflexivity.
Defined.




Lemma filter_none {A} (P : A -> Prop) `{forall x, Decision (P x)} (l : list A) :
  Forall (fun x => ~ P x) l -> filter P l = [].
Proof.
  induction 1 as [|x l Hx _ IH]; [done|].
  rewrite filter_cons. by destruct (decide (P x)).
Qed.

Lemma filter_every {A} (P : A -> Prop) `{forall x, Decision (P x)} (l : list A) :
  Forall P l -> filter P l = l.
Proof.
  induction 1 as [|x l Hx _ IH]; [done|].
  rewrite filter_cons, decide_True by done. by rewrite IH.
Qed.

Lemma count_tables_zero db i :
  count_tables_with_id db i = 0 <-> ~ table_exists db i.
Proof.
  unfold count_tables_with_id, table_exists. split.
  - intros Hc Hin. apply list_elem_of_fmap in Hin as (t & -> & Ht).
    assert (Hmem : t ∈ filter (fun t0 => dt_id t0 = dt_id t) (dynamic_tables db))
      by (by apply list_elem_of_filter).
    destruct (filter _ (dynamic_tables db)); [by apply elem_of_nil in Hmem|].
    simpl in Hc. lia.
  - intros Hno. rewrite filter_none; [done|].
    apply Forall_forall. intros t Ht Heq. apply Hno.
    apply list_elem_of_fmap. by exists t.
Qed.

Lemma sample_db_sequences_ahead : sequences_ahead sample_db.
Proof. unfold sequences_ahead, sample_db. simpl. repeat constructor. Qed.

(** The PostgreSQL revision has no lookup of its own: the foreign key of
    [table_data] refuses the row, and the id drawn for it is spent; a
    [tableId] that is no [INTEGER] is refused as such. *)
Lemma Pg_createTableRow_unknown_table tableId rowData db :
  ~ table_exists db tableId ->
  Pg.createTableRow tableId rowData db =
    if bool_decide (int4 tableId)
    then (inl (SqlFailure ForeignKeyViolation), draw_table_data_ids 1 db)
    else (inl (SqlFailure NumericValueOutOfRange), db).
Proof.
  intros Hno. unfold Pg.createTableRow, insert_into, insert_table_data, unresolved.
  rewrite (bool_decide_eq_false_2 _ Hno). by case_bool_decide.
Qed.

(** On an existing table both revisions store the row with the next id. *)
Lemma createTableRow_existing tableId rowData db :
  Forall (fun r => td_id r < seq_table_data db) (table_data db) ->
  table_exists db tableId ->
  let row := mkTableData (seq_table_data db) tableId rowData (clock db) (clock db) in
  let db' := mkDB (sidebar_items db) (dynamic_tables db) (table_columns db)
               (table_data db ++ [row])
               (seq_sidebar_items db) (seq_dynamic_tables db)
               (seq_table_columns db) (seq_table_data db + 1)
               (seq_table_data db) (clock db) (schema db) in
  Pg.createTableRow tableId rowData db = (inr row, db') /\
  MySql.createTableRow tableId rowData db = (inr row, db').
Proof.
  intros Hrows Hyes row db'. split.
  - unfold Pg.createTableRow, insert_into, insert_table_data.
    by rewrite bool_decide_eq_true_2.
  - assert (Hc : (count_tables_with_id db tableId =? 0) = false).
    { apply Z.eqb_neq. intros Hc. by apply count_tables_zero in Hc. }
    unfold MySql.createTableRow, try_catch, bind, query, insert_into,
      insert_table_data.
    rewrite Hc, bool_decide_eq_true_2 by done.
    unfold select_row. simpl.
    rewrite filter_app, filter_none.
    2:{ eapply Forall_impl; [exact Hrows|]. simpl. intros r Hr. lia. }
    simpl. by rewrite filter_cons, decide_True.
Qed.

(** C9 (amended): [createTableRow(table_id, row_data)] fails when no
    dynamic table has the id: the MySQL revision on its own lookup, with
    the not-found error and the store as it was; the PostgreSQL
    revision, which has no lookup, on the [INSERT], with the foreign
    key's violation, nothing stored and the id drawn for the row spent
    (or, for a number that is no [INTEGER], with the statement's refusal
    of it).  When a dynamic table has the id, both revisions store the
    mapping as it was given, whatever its keys, and the outcome is the
    same whatever column definitions the store holds. *)
Theorem createTableRow_checks_table_only tableId rowData db :
  sequences_ahead db ->
  (~ table_exists db tableId ->
   MySql.createTableRow tableId rowData db = (inl (TableNotFound tableId), db) /\
   Pg.createTableRow tableId rowData db =
     if bool_decide (int4 tableId)
     then (inl (SqlFailure ForeignKeyViolation), draw_table_data_ids 1 db)
     else (inl (SqlFailure NumericValueOutOfRange), db)) /\
  (table_exists db tableId ->
   exists row db',
     MySql.createTableRow tableId rowData db = (inr row, db') /\
     Pg.createTableRow tableId rowData db = (inr row, db') /\
     td_table_id row = tableId /\ td_row_data row = rowData /\
     table_data db' = table_data db ++ [row] /\
     table_columns db' = table_columns db /\
     dynamic_tables db' = dynamic_tables db /\
     sidebar_items db' = sidebar_items db) /\
  (forall cols,
     (MySql.createTableRow tableId rowData (with_table_columns cols db)).1 =
     (MySql.createTableRow tableId rowData db).1 /\
     (Pg.createTableRow tableId rowData (with_table_columns cols db)).1 =
     (Pg.createTableRow tableId rowData db).1).
Proof.
  intros (_ & _ & _ & Hrows). split; [|split].
  - intros Hno. split; [|by apply Pg_createTableRow_unknown_table].
    apply count_tables_zero in Hno.
    unfold MySql.createTableRow, try_catch, bind, query. rewrite Hno. done.
  - intros Hyes.
    destruct (createTableRow_existing tableId rowData db Hrows Hyes) as [Hpg Hmy].
    eexists _, _. split; [exact Hmy|]. split; [exact Hpg|]. repeat split.
  - intros cols. split.
    + unfold MySql.createTableRow, try_catch, bind, query, insert_into,
        insert_table_data.
      change (count_tables_with_id (with_table_columns cols db) tableId)
        with (count_tables_with_id db tableId).
      destruct (count_tables_with_id db tableId =? 0); [done|].
      change (table_exists (with_table_columns cols db) tableId)
        with (table_exists db tableId).
      destruct (bool_decide (table_exists db tableId)); [|done].
      unfold select_row. simpl.
      by destruct (head (filter _ (table_data db ++ _))).
    + unfold Pg.createTableRow, insert_into, insert_table_data.
      change (table_exists (with_table_columns cols db) tableId)
        with (table_exists db tableId).
      destruct (bool_decide (table_exists db tableId)); [done|].
      by destruct (spends _ _).
Qed.

Lemma createTableRow_checks_table_only_witness :
  (MySql.createTableRow 7 {[ str "zip" := JNumber 0 ]} sample_db =
     (inl (TableNotFound 7), sample_db) /\
   Pg.createTableRow 7 {[ str "zip" := JNumber 0 ]} sample_db =
     (inl (SqlFailure ForeignKeyViolation), draw_table_data_ids 1 sample_db)) /\
  exists row db',
    MySql.createTableRow 1 {[ str "zip" := JNumber 0 ]} sample_db =
      (inr row, db') /\
    Pg.createTableRow 1 {[ str "zip" := JNumber 0 ]} sample_db =
      (inr row, db') /\
    td_row_data row = {[ str "zip" := JNumber 0 ]}.
Proof.
  destruct (createTableRow_checks_table_only 7 {[ str "zip" := JNumber 0 ]}
              sample_db sample_db_sequences_ahead) as (Hmiss & _ & _).
  destruct (createTableRow_checks_table_only 1 {[ str "zip" := JNumber 0 ]}
              sample_db sample_db_sequences_ahead) as (_ & Hhit & _).
  split.
  - apply Hmiss. vm_compute. intros Hin.
    repeat (apply elem_of_cons in Hin as [Hin|Hin]; [discriminate Hin|]).
    by apply elem_of_nil in Hin.
  - destruct Hhit as (row & db' & Hmy & Hpg & _ & Hdata & _).
    + vm_compute. apply elem_of_cons. by left.
    + by exists row, db'.
Defined.

(** C9, as stated, fails for the PostgreSQL revision: with no dynamic
    table of the id 7 it does not fail with the not-found error and the
    store as it was; the insert is refused by the foreign key, and the
    next row of [table_data] gets the id 3, not 2. *)
Lemma Pg_createTableRow_has_no_lookup :
  ~ (forall tableId rowData db,
       ~ table_exists db tableId ->
       Pg.createTableRow tableId rowData db = (inl (TableNotFound tableId), db)).
Proof.
  intros H.
  specialize (H 7 {[ str "zip" := JNumber 0 ]} sample_db).
  rewrite Pg_createTableRow_unknown_table in H.
  - specialize (H ltac:(apply (bool_decide_unpack _); vm_compute; exact I)).
    vm_compute in H. discriminate H.
  - apply (bool_decide_unpack _). vm_compute. exact I.
Qed.

End RowsAndColumns.

(** ** The cascade of [DELETE] *)

Section Cascade.
Import Store.


Lemma cascade_round_extends items dead i :
  i ∈ dead -> i ∈ cascade_round items dead.
Proof. intros Hi. unfold cascade_round. apply elem_of_app. by left. Qed.

Lemma cascade_rounds_extends k items dead i :
  i ∈ dead -> i ∈ cascade_rounds k items dead.
Proof.
  revert dead. induction k as [|k IH]; intros dead Hi; simpl; [done|].
  by apply IH, cascade_round_extends.
Qed.

Lemma cascade_round_closed items dead :
  closed_under_children items dead -> cascade_round items dead = dead.
Proof.
  intros Hcl. unfold cascade_round. rewrite filter_none.
  - simpl. apply app_nil_r.
  - apply Forall_forall. intros x Hx [Hp Hn]. by apply Hn, Hcl.
Qed.

Lemma cascade_rounds_closed k items dead :
  closed_under_children items dead -> cascade_rounds k items dead = dead.
Proof.
  intros Hcl. induction k as [|k IH]; simpl; [done|].
  by rewrite cascade_round_closed.
Qed.


Lemma cascade_round_progress items dead :
  closed_under_children items dead \/
  (length (alive items (cascade_round items dead)) <
   length (alive items dead))%nat.
Proof.
  destruct (filter (fun x => parent_in dead x /\ si_id x ∉ dead) items)
    as [|x new] eqn:Hnew.
  - left. intros y Hy Hp. destruct (decide (si_id y ∈ dead)) as [|Hn]; [done|].
    exfalso. by apply (filter_nil_not_elem_of _ items y Hnew (conj Hp Hn)).
  - right.
    assert (Hx : x ∈ filter (fun x => parent_in dead x /\ si_id x ∉ dead) items)
      by (rewrite Hnew; apply elem_of_cons; by left).
    apply list_elem_of_filter in Hx as [[Hp Hn] Hx].
    unfold alive.
    replace (filter (fun y => si_id y ∉ cascade_round items dead) items)
      with (filter (fun y => si_id y ∉ cascade_round items dead)
              (filter (fun y => si_id y ∉ dead) items)).
    + apply (length_filter_lt _ _ x).
      * by apply list_elem_of_filter.
      * intros Hout. apply Hout. unfold cascade_round. rewrite Hnew.
        apply elem_of_app. right. apply elem_of_cons. by left.
    + rewrite list_filter_filter. apply list_filter_iff. intros y. split.
      * by intros [? _].
      * intros Hy. split; [done|]. intros Hin. by apply Hy, cascade_round_extends.
Qed.

Lemma cascade_rounds_reach_closure k items dead :
  (length (alive items dead) <= k)%nat ->
  closed_under_children items (cascade_rounds k items dead).
Proof.
  revert dead. induction k as [|k IH]; intros dead Hk; simpl.
  - intros x Hx _. destruct (decide (si_id x ∈ dead)) as [|Hn]; [done|].
    assert (x ∈ alive items dead) as Hin by (by apply list_elem_of_filter).
    destruct (alive items dead); [by apply elem_of_nil in Hin|simpl in Hk; lia].
  - destruct (cascade_round_progress items dead) as [Hcl|Hlt].
    + by rewrite cascade_round_closed, cascade_rounds_closed.
    + apply IH. lia.
Qed.

(** The cascade stops at a closed set. *)
Lemma cascade_ids_closed items dead :
  closed_under_children items (cascade_ids items dead).
Proof.
  apply cascade_rounds_reach_closure. unfold alive. apply length_filter.
Qed.

(** A closed set that holds the children of [a] holds all that descends
    from [a]. *)
Lemma closed_holds_descendants items dead a i :
  closed_under_children items dead ->
  (forall c, c ∈ items -> si_parent_id c = Some a -> si_id c ∈ dead) ->
  descends items i a -> i ∈ dead.
Proof.
  intros Hcl Hch. induction 1 as [x a Hx Hp | x p a Hx Hp _ IH].
  - by apply Hch.
  - apply Hcl; [done|]. unfold parent_in. rewrite Hp. simpl. by apply IH.
Qed.

Lemma descends_trans items i a b :
  descends items i a -> descends items a b -> descends items i b.
Proof.
  intros Hia Hab. induction Hia as [y a Hy Hpy | y q a Hy Hpy _ IH].
  - by eapply descends_deeper.
  - eapply descends_deeper; [done..|]. by apply IH.
Qed.

(** The cascade deletes nothing but the seeds and what descends from them. *)
Lemma cascade_rounds_sound k items dead i :
  i ∈ cascade_rounds k items dead ->
  i ∈ dead \/ exists a, a ∈ dead /\ descends items i a.
Proof.
  revert dead. induction k as [|k IH]; intros dead Hi; simpl in Hi; [by left|].
  assert (Hround : forall j, j ∈ cascade_round items dead ->
            j ∈ dead \/ exists a, a ∈ dead /\ descends items j a).
  { intros j Hj. unfold cascade_round in Hj. apply elem_of_app in Hj as [?|Hj];
      [by left|].
    apply list_elem_of_fmap in Hj as (x & -> & Hx).
    apply list_elem_of_filter in Hx as [[Hp _] Hx].
    unfold parent_in in Hp. destruct (si_parent_id x) as [p|] eqn:Hpx; [|done].
    right. exists p. split; [done|]. by apply descends_child. }
  destruct (IH _ Hi) as [Hin | (a & Ha & Hd)].
  - by apply Hround.
  - destruct (Hround _ Ha) as [Hin | (b & Hb & Hab)].
    + right. by exists a.
    + right. exists b. split; [done|]. by eapply descends_trans.
Qed.

Lemma cascade_ids_sound items dead i :
  i ∈ cascade_ids items dead ->
  i ∈ dead \/ exists a, a ∈ dead /\ descends items i a.
Proof. apply cascade_rounds_sound. Qed.

Lemma descends_mono items items' i a :
  (forall x, x ∈ items -> x ∈ items') ->
  descends items i a -> descends items' i a.
Proof.
  intros Hsub. induction 1 as [x a Hx Hp | x p a Hx Hp _ IH].
  - apply descends_child; auto.
  - eapply descends_deeper; eauto.
Qed.


Section DeleteStatements.
Context (p : SidebarItem -> Prop) `{forall x, Decision (p x)}.
Context (q : DynamicTable -> Prop) `{forall t, Decision (q t)}.

Lemma delete_items_items db x :
  x ∈ sidebar_items (delete_sidebar_items_where p db) <->
  x ∈ sidebar_items db /\ si_id x ∉ doomed p db.
Proof.
  unfold delete_sidebar_items_where, delete_dynamic_tables_where, doomed.
  simpl. rewrite list_elem_of_filter. tauto.
Qed.

Lemma delete_items_tables db t :
  t ∈ dynamic_tables (delete_sidebar_items_where p db) <->
  t ∈ dynamic_tables db /\ dt_sidebar_item_id t ∉ doomed p db.
Proof.
  unfold delete_sidebar_items_where, delete_dynamic_tables_where, doomed.
  simpl. rewrite list_elem_of_filter. tauto.
Qed.

Lemma delete_tables_items db :
  sidebar_items (delete_dynamic_tables_where q db) = sidebar_items db.
Proof. reflexivity. Qed.

Lemma delete_tables_tables db t :
  t ∈ dynamic_tables (delete_dynamic_tables_where q db) <->
  t ∈ dynamic_tables db /\ ~ q t.
Proof.
  unfold delete_dynamic_tables_where. simpl. rewrite list_elem_of_filter. tauto.
Qed.

Lemma delete_tables_columns db c :
  c ∈ table_columns (delete_dynamic_tables_where q db) <->
  c ∈ table_columns db /\
  forall t, t ∈ dynamic_tables db -> q t -> tc_table_id c <> dt_id t.
Proof.
  unfold delete_dynamic_tables_where. simpl. rewrite list_elem_of_filter.
  split.
  - intros [Hgone Hc]. split; [done|].
    intros t Ht Hq Heq. apply Hgone. rewrite Heq.
    apply list_elem_of_fmap_2. by apply list_elem_of_filter.
  - intros [Hc Hall]. split; [|done].
    intros Hin. apply list_elem_of_fmap in Hin as (t & Heq & Ht).
    apply list_elem_of_filter in Ht as [Hq Ht]. by apply (Hall t).
Qed.

Lemma delete_tables_rows db r :
  r ∈ table_data (delete_dynamic_tables_where q db) <->
  r ∈ table_data db /\
  forall t, t ∈ dynamic_tables db -> q t -> td_table_id r <> dt_id t.
Proof.
  unfold delete_dynamic_tables_where. simpl. rewrite list_elem_of_filter.
  split.
  - intros [Hgone Hr]. split; [done|].
    intros t Ht Hq Heq. apply Hgone. rewrite Heq.
    apply list_elem_of_fmap_2. by apply list_elem_of_filter.
  - intros [Hr Hall]. split; [|done].
    intros Hin. apply list_elem_of_fmap in Hin as (t & Heq & Ht).
    apply list_elem_of_filter in Ht as [Hq Ht]. by apply (Hall t).
Qed.

End DeleteStatements.

Lemma delete_items_columns (p : SidebarItem -> Prop)
    `{forall x, Decision (p x)} db c :
  c ∈ table_columns (delete_sidebar_items_where p db) <->
  c ∈ table_columns db /\
  forall t, t ∈ dynamic_tables db -> dt_sidebar_item_id t ∈ doomed p db ->
            tc_table_id c <> dt_id t.
Proof.
  apply (delete_tables_columns (fun t => dt_sidebar_item_id t ∈ doomed p db)).
Qed.

Lemma delete_items_rows (p : SidebarItem -> Prop)
    `{forall x, Decision (p x)} db r :
  r ∈ table_data (delete_sidebar_items_where p db) <->
  r ∈ table_data db /\
  forall t, t ∈ dynamic_tables db -> dt_sidebar_item_id t ∈ doomed p db ->
            td_table_id r <> dt_id t.
Proof.
  apply (delete_tables_rows (fun t => dt_sidebar_item_id t ∈ doomed p db)).
Qed.



Lemma tables_trimmed_refl db : tables_trimmed db db.
Proof. split; [done|]. split; [done|]. intros t Ht. by left. Qed.

Lemma tables_trimmed_delete (q : DynamicTable -> Prop)
    `{forall t, Decision (q t)} db :
  tables_trimmed db (delete_dynamic_tables_where q db).
Proof.
  split; [done|]. split.
  - intros t Ht. by apply delete_tables_tables in Ht as [? _].
  - intros t Ht.
    destruct (decide (q t)) as [Hq|Hnq].
    + right. split.
      * intros c Hc. apply delete_tables_columns in Hc as [_ Hc]. by apply Hc.
      * intros r Hr. apply delete_tables_rows in Hr as [_ Hr]. by apply Hr.
    + left. by apply delete_tables_tables.
Qed.

(** The children of [a] and all below them are doomed by
    [DELETE FROM sidebar_items WHERE parent_id = a]. *)
Lemma doomed_children_complete db a i :
  descends (sidebar_items db) i a ->
  i ∈ doomed (fun x => si_parent_id x = Some a) db.
Proof.
  apply closed_holds_descendants.
  - apply cascade_ids_closed.
  - intros c Hc Hp. apply cascade_rounds_extends.
    apply list_elem_of_fmap_2. by apply list_elem_of_filter.
Qed.

Lemma doomed_children_sound db a i :
  i ∈ doomed (fun x => si_parent_id x = Some a) db ->
  descends (sidebar_items db) i a.
Proof.
  intros Hi. apply cascade_ids_sound in Hi as [Hi | (b & Hb & Hd)].
  - apply list_elem_of_fmap in Hi as (x & -> & Hx).
    apply list_elem_of_filter in Hx as [Hp Hx]. by apply descends_child.
  - apply list_elem_of_fmap in Hb as (x & -> & Hx).
    apply list_elem_of_filter in Hx as [Hp Hx].
    eapply descends_trans; [exact Hd|]. by apply descends_child.
Qed.

Lemma doomed_by_id_complete db a i :
  item_exists db a ->
  i = a \/ descends (sidebar_items db) i a ->
  i ∈ doomed (fun x => si_id x = a) db.
Proof.
  intros Ha Hi.
  assert (Hseed : a ∈ doomed (fun x => si_id x = a) db).
  { apply cascade_rounds_extends.
    apply list_elem_of_fmap in Ha as (x & -> & Hx).
    apply list_elem_of_fmap_2. by apply list_elem_of_filter. }
  destruct Hi as [-> | Hd]; [done|].
  revert Hd. apply closed_holds_descendants.
  - apply cascade_ids_closed.
  - intros c Hc Hp. apply cascade_ids_closed; [done|].
    unfold parent_in. rewrite Hp. simpl. exact Hseed.
Qed.

Lemma doomed_by_id_sound db a i :
  i ∈ doomed (fun x => si_id x = a) db ->
  i = a \/ descends (sidebar_items db) i a.
Proof.
  intros Hi. apply cascade_ids_sound in Hi as [Hi | (b & Hb & Hd)].
  - apply list_elem_of_fmap in Hi as (x & -> & Hx).
    apply list_elem_of_filter in Hx as [Hp Hx]. by left.
  - apply list_elem_of_fmap in Hb as (x & -> & Hx).
    apply list_elem_of_filter in Hx as [Hp Hx]. right. by rewrite <- Hp.
Qed.

Lemma doomed_same_items (p : SidebarItem -> Prop)
    `{forall x, Decision (p x)} db db1 :
  sidebar_items db1 = sidebar_items db -> doomed p db1 = doomed p db.
Proof. intros Heq. unfold doomed. by rewrite Heq. Qed.


Lemma delete_items_shrinks (p : SidebarItem -> Prop)
    `{forall x, Decision (p x)} db :
  shrinks (delete_sidebar_items_where p db) db.
Proof.
  repeat split.
  - intros x Hx. by apply delete_items_items in Hx as [? _].
  - intros t Ht. by apply delete_items_tables in Ht as [? _].
  - intros c Hc. by apply delete_items_columns in Hc as [? _].
  - intros r Hr. by apply delete_items_rows in Hr as [? _].
Qed.

Lemma subtree_gone_shrinks db0 a db db' :
  subtree_gone db0 a db -> shrinks db' db -> subtree_gone db0 a db'.
Proof.
  intros (Hi & Ht & Hcr) (Si & St & Sc & Sr). repeat split.
  - intros x Hx. by apply Hi, Si.
  - intros t Hx. by apply Ht, St.
  - intros c Hc. destruct (Hcr t H H0) as [Hcol _]. by apply Hcol, Sc.
  - intros r Hr. destruct (Hcr t H H0) as [_ Hrow]. by apply Hrow, Sr.
Qed.

(** [DELETE FROM sidebar_items WHERE parent_id = a] leaves nothing of
    what lay below [a]. *)
Lemma delete_children_subtree_gone db db1 a :
  tables_trimmed db db1 ->
  subtree_gone db a
    (delete_sidebar_items_where (fun x => si_parent_id x = Some a) db1).
Proof.
  intros (Hitems & Hsub & Htrim).
  pose proof (doomed_same_items (fun x => si_parent_id x = Some a) db db1 Hitems)
    as Hdoom.
  repeat split.
  - intros x Hx Hd. apply delete_items_items in Hx as [_ Hx]. apply Hx.
    rewrite Hdoom. by apply doomed_children_complete.
  - intros t Ht Hd. apply delete_items_tables in Ht as [_ Ht]. apply Ht.
    rewrite Hdoom. by apply doomed_children_complete.
  - intros c Hc. apply delete_items_columns in Hc as [Hc1 Hc].
    destruct (Htrim t H) as [Hin|[Hout _]].
    + apply Hc; [done|]. rewrite Hdoom. by apply doomed_children_complete.
    + by apply Hout.
  - intros r Hr. apply delete_items_rows in Hr as [Hr1 Hr].
    destruct (Htrim t H) as [Hin|[_ Hout]].
    + apply Hr; [done|]. rewrite Hdoom. by apply doomed_children_complete.
    + by apply Hout.
Qed.

Lemma select_item_Some db id x :
  select_item db id = Some x -> x ∈ sidebar_items db /\ si_id x = id.
Proof.
  unfold select_item. intros Hx. apply head_Some_elem_of in Hx.
  apply list_elem_of_filter in Hx. tauto.
Qed.

(** The statements the folder branch of the MySQL revision runs. *)
Lemma MySql_deleteSidebarItem_folder id db folder :
  select_item db id = Some folder -> si_item_type folder = Folder ->
  exists db1,
    tables_trimmed db db1 /\
    (forall t, t ∈ dynamic_tables db ->
               t ∈ dynamic_tables db1 \/
               descends (sidebar_items db) (dt_sidebar_item_id t) id) /\
    MySql.deleteSidebarItem id db =
      (inr tt,
       delete_sidebar_items_where (fun x => si_id x = id)
         (delete_sidebar_items_where (fun x => si_parent_id x = Some id) db1)).
Proof.
  intros Hsel Hty.
  unfold MySql.deleteSidebarItem, try_catch, bind, query, MySql.or_throw,
    execute, ret.
  rewrite Hsel, Hty.
  set (tableIds := si_id <$> filter (fun x => si_parent_id x = Some id /\
                                               si_item_type x = Table)
                               (sidebar_items db)).
  destruct (0 <? length tableIds)%nat.
  - eexists. split; [apply (tables_trimmed_delete
                              (fun t => dt_sidebar_item_id t ∈ tableIds))|].
    split; [|reflexivity].
    intros t Ht.
    destruct (decide (dt_sidebar_item_id t ∈ tableIds)) as [Hin|Hnin].
    + right. apply list_elem_of_fmap in Hin as (x & Hid & Hx).
      apply list_elem_of_filter in Hx as [[Hp _] Hx].
      rewrite Hid. by apply descends_child.
    + left. by apply delete_tables_tables.
  - exists db. split; [apply tables_trimmed_refl|]. split; [|reflexivity].
    intros t Ht. by left.
Qed.

(** C5: for a folder, [deleteSidebarItem(id)] succeeds; the statements
    that run before the folder's own [DELETE] already leave nothing of
    what lay below the folder (no item at any depth, no dynamic table
    bound to one, no column or row of such a table), and afterwards
    neither the subtree nor the folder is left.  Items and dynamic tables
    outside the subtree stay. *)
Theorem deleteSidebarItem_removes_subtree id db folder :
  select_item db id = Some folder -> si_item_type folder = Folder ->
  exists db2 db',
    MySql.deleteSidebarItem id db = (inr tt, db') /\
    db' = delete_sidebar_items_where (fun x => si_id x = id) db2 /\
    subtree_gone db id db2 /\
    subtree_gone db id db' /\
    ~ item_exists db' id /\
    (forall t, t ∈ dynamic_tables db' -> dt_sidebar_item_id t <> id) /\
    (forall x, x ∈ sidebar_items db -> si_id x <> id ->
               ~ descends (sidebar_items db) (si_id x) id ->
               x ∈ sidebar_items db') /\
    (forall t, t ∈ dynamic_tables db -> dt_sidebar_item_id t <> id ->
               ~ descends (sidebar_items db) (dt_sidebar_item_id t) id ->
               t ∈ dynamic_tables db').
Proof.
  intros Hsel Hty.
  destruct (MySql_deleteSidebarItem_folder id db folder Hsel Hty)
    as (db1 & Htrim & Hstep1 & Hrun).
  apply select_item_Some in Hsel as [Hfolder Hfid].
  set (db2 := delete_sidebar_items_where
                (fun x => si_parent_id x = Some id) db1) in *.
  set (db' := delete_sidebar_items_where (fun x => si_id x = id) db2) in *.
  assert (Hgone2 : subtree_gone db id db2)
    by (by apply delete_children_subtree_gone).
  pose proof Htrim as (Hitems & Hsub & _).
  assert (Hdoom2 : forall i, i ∈ doomed (fun x => si_parent_id x = Some id) db1 <->
                             descends (sidebar_items db) i id).
  { intros i. rewrite (doomed_same_items _ db db1 Hitems). split.
    - apply doomed_children_sound.
    - apply doomed_children_complete. }
  assert (Hitems2 : forall x, x ∈ sidebar_items db2 -> x ∈ sidebar_items db).
  { intros x Hx. apply delete_items_items in Hx as [Hx _]. by rewrite <- Hitems. }
  assert (Hdoom3 : forall i, i ∈ doomed (fun x => si_id x = id) db2 ->
                             i = id \/ descends (sidebar_items db) i id).
  { intros i Hi. apply doomed_by_id_sound in Hi as [?|Hd]; [by left|].
    right. by eapply descends_mono. }
  exists db2, db'. split; [exact Hrun|]. split; [done|]. split; [done|].
  split; [|split; [|split; [|split]]].
  - eapply subtree_gone_shrinks; [exact Hgone2|]. apply delete_items_shrinks.
  - intros Hex. apply list_elem_of_fmap in Hex as (x & Hid & Hx).
    apply delete_items_items in Hx as [Hx2 Hx]. apply Hx.
    apply cascade_rounds_extends, list_elem_of_fmap. exists x. split; [done|].
    by apply list_elem_of_filter.
  - intros t Ht Hbound. apply delete_items_tables in Ht as [Ht2 Ht].
    apply delete_items_tables in Ht2 as [Ht1 Ht2].
    destruct (decide (id ∈ doomed (fun x => si_parent_id x = Some id) db1))
      as [Hin|Hout].
    + apply Ht2. by rewrite Hbound.
    + apply Ht. rewrite Hbound. apply doomed_by_id_complete; [|by left].
      apply list_elem_of_fmap. exists folder. split; [done|].
      apply delete_items_items. split; [by rewrite Hitems|]. by rewrite Hfid.
  - intros x Hx Hne Hnd.
    apply delete_items_items. split.
    + apply delete_items_items. split; [by rewrite Hitems|].
      intros Hin. by apply Hnd, Hdoom2.
    + intros Hin. destruct (Hdoom3 _ Hin); done.
  - intros t Ht Hne Hnd.
    apply delete_items_tables. split.
    + apply delete_items_tables. split.
      * destruct (Hstep1 t Ht) as [|Hd]; [done|]. by destruct (Hnd Hd).
      * intros Hin. by apply Hnd, Hdoom2.
    + intros Hin. destruct (Hdoom3 _ Hin); done.
Qed.

Lemma deleteSidebarItem_removes_subtree_witness :
  exists db',
    MySql.deleteSidebarItem 1 nested_db = (inr tt, db') /\
    subtree_gone nested_db 1 db' /\ ~ item_exists db' 1.
Proof.
  destruct (deleteSidebarItem_removes_subtree 1 nested_db
              (mkSidebarItem 1 (str "Tables") None Folder
                 (Some (str "folder")) 0 0 0) eq_refl eq_refl)
    as (db2 & db' & Hrun & _ & _ & Hgone & Hno & _).
  by exists db'.
Defined.

(** On the nested store, deleting the folder "Tables" leaves the other
    root folder with its table, in both revisions. *)
Example deleteSidebarItem_nested_example :
  let left_over :=
    mkDB [mkSidebarItem 4 (str "Other") None Folder (Some (str "folder")) 1 0 0;
          mkSidebarItem 5 (str "Notes") (Some 4) Table (Some (str "table")) 1 0 0]
         [mkDynamicTable 2 5 (str "notes") (str "Notes") None 0 0]
         [mkTableColumn 2 2 (str "text") (str "Text") TText false None 0 150 0 0]
         [mkTableData 2 2 {[ str "text" := JString (str "hi") ]} 0 0]
         6 3 3 3 0 10 (mkSchema true true true) in
  MySql.deleteSidebarItem 1 nested_db = (inr tt, left_over) /\
  Pg.deleteSidebarItem 1 nested_db = (inr tt, left_over).
Proof. split; vm_compute; reflexivity. Qed.

(** The PostgreSQL revision is the single [DELETE]; the cascade of the
    foreign keys does all the work, for a folder as for a table item. *)
Lemma Pg_deleteSidebarItem_removes_subtree id db :
  item_exists db id ->
  exists db',
    Pg.deleteSidebarItem id db = (inr tt, db') /\
    subtree_gone db id db' /\
    ~ item_exists db' id /\
    (forall t, t ∈ dynamic_tables db' -> dt_sidebar_item_id t <> id) /\
    (forall x, x ∈ sidebar_items db -> si_id x <> id ->
               ~ descends (sidebar_items db) (si_id x) id ->
               x ∈ sidebar_items db').
Proof.
  intros Hex. eexists.
  split; [by apply Pg_deleteSidebarItem_run, item_id_is_integer|].
  assert (Hdoom : forall i, i = id \/ descends (sidebar_items db) i id ->
                            i ∈ doomed (fun x => si_id x = id) db)
    by (intros i; by apply doomed_by_id_complete).
  split; [|split; [|split]].
  - repeat split.
    + intros x Hx Hd. apply delete_items_items in Hx as [_ Hx]. apply Hx, Hdoom.
      by right.
    + intros t Ht Hd. apply delete_items_tables in Ht as [_ Ht]. apply Ht, Hdoom.
      by right.
    + intros c Hc. apply delete_items_columns in Hc as [_ Hc].
      apply Hc; [done|]. apply Hdoom. by right.
    + intros r Hr. apply delete_items_rows in Hr as [_ Hr].
      apply Hr; [done|]. apply Hdoom. by right.
  - intros Hin. apply list_elem_of_fmap in Hin as (x & Hid & Hx).
    apply delete_items_items in Hx as [_ Hx]. apply Hx, Hdoom. by left.
  - intros t Ht Hb. apply delete_items_tables in Ht as [_ Ht].
    apply Ht, Hdoom. by left.
  - intros x Hx Hne Hnd. apply delete_items_items. split; [done|].
    intros Hin. apply doomed_by_id_sound in Hin as [?|?]; done.
Qed.

End Cascade.

(** ** The sidebar route: sort order *)

Section SortOrder.
Import Store.

Lemma foldr_max_spec (l : list Z) :
  let m := foldr Z.max 0 l in
  0 <= m /\ (forall x, x ∈ l -> x <= m) /\ (m = 0 \/ m ∈ l).
Proof.
  induction l as [|y l (Hnn & Hub & Hatt)]; simpl.
  - split; [lia|]. split; [|by left]. intros x Hx. by apply elem_of_nil in Hx.
  - split; [lia|]. split.
    + intros x Hx. apply elem_of_cons in Hx as [->|Hx]; [lia|].
      specialize (Hub x Hx). lia.
    + destruct (Z.max_spec y (foldr Z.max 0 l)) as [[_ ->]|[_ ->]].
      * destruct Hatt as [->|Hin]; [by left|]. right. by apply elem_of_cons; right.
      * right. apply elem_of_cons. by left.
Qed.

(** What [nextSortOrder] computes: one more than the greatest of 0 and
    the sort orders of the items whose [parent_id] is strictly equal to
    the one of the body. *)
Lemma nextSortOrder_spec siblings parent_id :
  let n := nextSortOrder siblings parent_id in
  0 < n /\
  (forall s, s ∈ siblings -> same_parent (si_parent_id s) parent_id ->
             si_sort_order s < n) /\
  (n = 1 \/ exists s, s ∈ siblings /\ same_parent (si_parent_id s) parent_id /\
                      n = si_sort_order s + 1).
Proof.
  unfold nextSortOrder.
  destruct (foldr_max_spec
              (si_sort_order <$>
                 filter (fun item => same_parent (si_parent_id item) parent_id)
                        siblings)) as (Hnn & Hub & Hatt).
  split; [lia|]. split.
  - intros s Hs Hp.
    assert (si_sort_order s <=
            foldr Z.max 0 (si_sort_order <$>
              filter (fun item => same_parent (si_parent_id item) parent_id)
                     siblings)).
    { apply Hub, list_elem_of_fmap_2. by apply list_elem_of_filter. }
    lia.
  - destruct Hatt as [->|Hin]; [by left|]. right.
    apply list_elem_of_fmap in Hin as (s & Heq & Hs).
    apply list_elem_of_filter in Hs as [Hp Hs]. exists s. by rewrite Heq.
Qed.

(** A body without [parent_id] has no sibling: [undefined] is strictly
    equal to no stored [parent_id]. *)
Lemma nextSortOrder_missing siblings : nextSortOrder siblings ParentMissing = 1.
Proof.
  unfold nextSortOrder.
  assert (filter (fun item => same_parent (si_parent_id item) ParentMissing)
                 siblings = []) as ->; [|done].
  induction siblings as [|x l IH]; [done|].
  rewrite filter_cons, IH. destruct (decide _) as [Hs|_]; [|done].
  by destruct (si_parent_id x).
Qed.

Lemma nextSortOrder_permutation l l' parent_id :
  l ≡ₚ l' -> nextSortOrder l parent_id = nextSortOrder l' parent_id.
Proof.
  intros Hperm. unfold nextSortOrder. f_equal.
  assert (Hp : si_sort_order <$>
                 filter (fun item => same_parent (si_parent_id item) parent_id) l
            ≡ₚ si_sort_order <$>
                 filter (fun item => same_parent (si_parent_id item) parent_id) l')
    by (by rewrite Hperm).
  induction Hp as [|x a b _ IH|x y a|a b c _ IH1 _ IH2]; simpl; lia.
Qed.

Lemma blank_false name : name <> [] -> blank (Some name) = false.
Proof.
  intros Hn. unfold blank. simpl. by rewrite bool_decide_eq_false_2.
Qed.

Lemma parse_item_type_nonempty item_type :
  is_Some (parse_item_type item_type) -> item_type <> [].
Proof. intros [ty Hty] ->. vm_compute in Hty. discriminate. Qed.

(** The PostgreSQL revision never seeds: the count it compares with 0 is
    a string. *)
Lemma Pg_initializeTables_nothing db : Pg.initializeTables db = (inr tt, db).
Proof. reflexivity. Qed.

(** The insert of a sidebar item whose values fit their columns, whose
    type the [CHECK] accepts and whose parent exists. *)
Lemma insert_sidebar_item_accepted name parent_id item_type ty icon sort_order db :
  fits 255 name = true -> from_option (fits 50) true icon = true ->
  int4 sort_order ->
  parse_item_type item_type = Some ty ->
  reference_resolves db parent_id ->
  let row := mkSidebarItem (seq_sidebar_items db) name parent_id ty icon
               sort_order (clock db) (clock db) in
  insert_sidebar_item name parent_id item_type icon sort_order db =
  inr (row,
       mkDB (sidebar_items db ++ [row]) (dynamic_tables db)
            (table_columns db) (table_data db)
            (seq_sidebar_items db + 1) (seq_dynamic_tables db)
            (seq_table_columns db) (seq_table_data db)
            (seq_sidebar_items db) (clock db) (schema db)).
Proof.
  intros Hname Hicon Hsort Hty Hfk. unfold insert_sidebar_item.
  rewrite Hname, Hicon, Hty. simpl.
  by rewrite !bool_decide_eq_true_2.
Qed.

Lemma insert_sidebar_item_row name parent_id item_type icon sort_order db row db' :
  insert_sidebar_item name parent_id item_type icon sort_order db =
    inr (row, db') ->
  exists ty,
    parse_item_type item_type = Some ty /\
    row = mkSidebarItem (seq_sidebar_items db) name parent_id ty icon
            sort_order (clock db) (clock db) /\
    db' = mkDB (sidebar_items db ++ [row]) (dynamic_tables db)
            (table_columns db) (table_data db)
            (seq_sidebar_items db + 1) (seq_dynamic_tables db)
            (seq_table_columns db) (seq_table_data db)
            (seq_sidebar_items db) (clock db) (schema db).
Proof.
  unfold insert_sidebar_item. repeat case_match; try done.
  intros [= <- <-]. by eexists.
Qed.

Lemma insert_dynamic_table_stored i tn dn d db t db' :
  insert_dynamic_table i tn dn d db = inr (t, db') ->
  t = mkDynamicTable (seq_dynamic_tables db) i tn dn d (clock db) (clock db) /\
  db' = mkDB (sidebar_items db) (dynamic_tables db ++ [t])
          (table_columns db) (table_data db)
          (seq_sidebar_items db) (seq_dynamic_tables db + 1)
          (seq_table_columns db) (seq_table_data db)
          (seq_dynamic_tables db) (clock db) (schema db).
Proof.
  unfold insert_dynamic_table. repeat case_match; try done.
  by intros [= <- <-].
Qed.

(** A refused insert stores no row. *)
Lemma insert_into_refused {A} policy draw (q : DB -> SqlError + (A * DB))
    db e db' :
  (forall n db, same_rows (draw n db) db) ->
  insert_into policy draw q db = (inl e, db') -> same_rows db' db.
Proof.
  intros Hdraw. unfold insert_into.
  destruct (q db) as [e'|[a db1]]; [|done]. intros [= <- <-].
  destruct (spends policy e'); [apply Hdraw|done].
Qed.




End SortOrder.

(** ** The sidebar route: provisioning and its compensation *)

Section Provisioning.
Import Store.

Lemma delete_by_id_no_item db id :
  ~ item_exists (delete_sidebar_items_where (fun x => si_id x = id) db) id.
Proof.
  intros Hex. apply list_elem_of_fmap in Hex as (x & Hid & Hx).
  apply delete_items_items in Hx as [Hx Hout]. apply Hout.
  apply cascade_rounds_extends, list_elem_of_fmap. exists x. split; [done|].
  by apply list_elem_of_filter.
Qed.

Lemma delete_by_id_no_table db id t :
  item_exists db id ->
  t ∈ dynamic_tables (delete_sidebar_items_where (fun x => si_id x = id) db) ->
  dt_sidebar_item_id t <> id.
Proof.
  intros Hex Ht Hb. apply delete_items_tables in Ht as [_ Ht]. apply Ht.
  rewrite Hb. apply doomed_by_id_complete; [done|by left].
Qed.

Lemma item_exists_select db id :
  item_exists db id -> exists x, select_item db id = Some x.
Proof.
  intros Hex. apply list_elem_of_fmap in Hex as (x & Hid & Hx).
  unfold select_item.
  assert (Hin : x ∈ filter (fun y => si_id y = id) (sidebar_items db))
    by (by apply list_elem_of_filter).
  destruct (filter _ (sidebar_items db)) as [|y l]; [by apply elem_of_nil in Hin|].
  by exists y.
Qed.

(** In the MySQL revision, deleting an item that exists succeeds and
    leaves no item with the id and no dynamic table bound to it. *)
Lemma MySql_deleteSidebarItem_existing id db :
  item_exists db id ->
  exists db',
    MySql.deleteSidebarItem id db = (inr tt, db') /\
    ~ item_exists db' id /\
    (forall t, t ∈ dynamic_tables db' -> dt_sidebar_item_id t <> id).
Proof.
  intros Hex. destruct (item_exists_select db id Hex) as [x Hsel].
  destruct (si_item_type x) eqn:Hty.
  - destruct (MySql_deleteSidebarItem_folder id db x Hsel Hty)
      as (db1 & (Hitems & _) & _ & Hrun).
    eexists. split; [exact Hrun|]. split; [apply delete_by_id_no_item|].
    intros t Ht Hbound.
    destruct (decide (id ∈ doomed (fun y => si_parent_id y = Some id) db1))
      as [Hin|Hout].
    + apply delete_items_tables in Ht as [Ht _].
      apply delete_items_tables in Ht as [_ Ht]. apply Ht. by rewrite Hbound.
    + revert Ht Hbound. apply delete_by_id_no_table.
      apply select_item_Some in Hsel as [Hx Hid].
      apply list_elem_of_fmap. exists x. split; [done|].
      apply delete_items_items. split; [by rewrite Hitems|]. by rewrite Hid.
  - eexists. split; [|split].
    + unfold MySql.deleteSidebarItem, try_catch, bind, query, MySql.or_throw,
        execute, ret.
      rewrite Hsel, Hty. reflexivity.
    + apply delete_by_id_no_item.
    + intros t Ht. revert Ht. apply delete_by_id_no_table. exact Hex.
Qed.

Lemma MySql_createSidebarItem_created name parent_id item_type icon n db1
    newItem db2 :
  MySql.createSidebarItem name parent_id item_type icon n db1 = (inr newItem, db2) ->
  newItem ∈ sidebar_items db2.
Proof.
  unfold MySql.createSidebarItem, bind, statement, insert_into, MySql.last_inserted_item,
    query, MySql.or_throw.
  destruct (insert_sidebar_item _ _ _ _ _ db1) as [e|[row db']]; [done|].
  destruct (select_item db' (last_insert_id db')) as [x|] eqn:Hsel; [|done].
  intros [= <- <-]. by apply select_item_Some in Hsel as [? _].
Qed.

Lemma insert_dynamic_table_items i tn dn d db t db' :
  insert_dynamic_table i tn dn d db = inr (t, db') ->
  sidebar_items db' = sidebar_items db.
Proof.
  unfold insert_dynamic_table. repeat case_match; try done.
  by intros [= <- <-].
Qed.

Lemma MySql_createDynamicTable_failed i tn dn d db2 e db3 :
  MySql.createDynamicTable i tn dn d db2 = (inl e, db3) ->
  sidebar_items db3 = sidebar_items db2.
Proof.
  unfold MySql.createDynamicTable, bind, statement, insert_into, MySql.last_inserted_table,
    query, MySql.or_throw.
  destruct (insert_dynamic_table i tn dn d db2) as [e'|[t db']] eqn:Hins.
  - intros [= <- <-]. destruct e'; reflexivity.
  - destruct (head _); [done|]. intros [= <- <-].
    by eapply insert_dynamic_table_items.
Qed.

(** X21: the later revision of [POST], for a 'table' item whose dynamic table
    cannot be provisioned after the sidebar item was created: the handler
    deletes the item just created and then answers with the error, so
    the store is left with no item of that id and no dynamic table bound
    to it. *)
Theorem POST_rolls_back_failed_provisioning (rt : JsRuntime) request db db1
    name newItem db2 e db3 :
  MySql.initializeTables db = (inr tt, db1) ->
  req_name request = Some name -> name <> [] ->
  req_item_type request = Some (str "table") ->
  MySql.createSidebarItem name (bound_parent (req_parent_id request))
    (str "table") (req_icon request)
    (nextSortOrder (sidebar_items db1) (req_parent_id request)) db1 =
    (inr newItem, db2) ->
  MySql.createDynamicTable (si_id newItem) (normalize64 name) name
    (Some (description_of name)) db2 = (inl e, db3) ->
  exists db',
    SidebarRouteRollback.POST (H0 := MySql.service) request db =
      (Json500 e, db') /\
    MySql.deleteSidebarItem (si_id newItem) db3 = (inr tt, db') /\
    ~ item_exists db' (si_id newItem) /\
    (forall t, t ∈ dynamic_tables db' ->
               dt_sidebar_item_id t <> si_id newItem).
Proof.
  intros Hinit Hname Hne Hty Hcreate Hfail.
  assert (Hex : item_exists db3 (si_id newItem)).
  { unfold item_exists. rewrite (MySql_createDynamicTable_failed _ _ _ _ _ _ _ Hfail).
    apply list_elem_of_fmap_2. by eapply MySql_createSidebarItem_created. }
  destruct (MySql_deleteSidebarItem_existing _ _ Hex) as (db' & Hdel & Hno & Hnt).
  exists db'. split; [|done].
  unfold SidebarRouteRollback.POST, respond, bind. simpl.
  rewrite Hinit, Hname, Hty, !blank_false by (done || (vm_compute; discriminate)).
  simpl. unfold MySql.getSidebarItems, query.
  rewrite (nextSortOrder_permutation _ (sidebar_items db1))
    by apply merge_sort_Permutation.
  rewrite Hcreate. unfold try_catch. rewrite Hfail, Hdel. reflexivity.
Qed.

Lemma POST_rolls_back_failed_provisioning_witness :
  exists db',
    SidebarRouteRollback.POST (H := ascii_runtime) (H0 := MySql.service)
      duplicate_table_request sample_db =
      (Json500 (SqlFailure UniqueViolation), db') /\
    ~ item_exists db' 3.
Proof.
  destruct (POST_rolls_back_failed_provisioning ascii_runtime
              duplicate_table_request sample_db sample_db (str "Customers")
              (mkSidebarItem 3 (str "Customers") (Some 1) Table
                 (Some (str "table")) 1 10 10)
              (mkDB (sidebar_items sample_db ++
                       [mkSidebarItem 3 (str "Customers") (Some 1) Table
                          (Some (str "table")) 1 10 10])
                    (dynamic_tables sample_db) (table_columns sample_db)
                    (table_data sample_db) 4 2 3 2 3 10
                    (mkSchema true false true))
              (SqlFailure UniqueViolation)
              (mkDB (sidebar_items sample_db ++
                       [mkSidebarItem 3 (str "Customers") (Some 1) Table
                          (Some (str "table")) 1 10 10])
                    (dynamic_tables sample_db) (table_columns sample_db)
                    (table_data sample_db) 4 3 3 2 3 10
                    (mkSchema true false true)))
    as (db' & Hrun & _ & Hno & _).
  - reflexivity.
  - reflexivity.
  - vm_compute. discriminate.
  - reflexivity.
  - vm_compute. reflexivity.
  - vm_compute. reflexivity.
  - by exists db'.
Defined.

(** On the sample store the compensation gives back the four relations
    as they were; only the sequences have moved on. *)
Example POST_rollback_restores_sample :
  SidebarRouteRollback.POST (H := ascii_runtime) (H0 := MySql.service)
    duplicate_table_request sample_db =
  (Json500 (SqlFailure UniqueViolation),
   mkDB (sidebar_items sample_db) (dynamic_tables sample_db)
        (table_columns sample_db) (table_data sample_db)
        4 3 3 2 3 10 (mkSchema true false true)).
Proof. vm_compute. reflexivity. Qed.

(** C1 on the revision of app/api/sidebar/route.ts: the same request, on
    the same store, is answered with the same error, and the sidebar
    item created on the way (id 3) stays in the store, with no dynamic
    table bound to it. *)
Theorem POST_without_compensation_leaves_item :
  exists newItem db',
    SidebarRoute.POST (H := ascii_runtime) (H0 := Pg.service)
      duplicate_table_request sample_db =
      (Json500 (SqlFailure UniqueViolation), db') /\
    newItem ∈ sidebar_items db' /\
    si_id newItem = 3 /\ si_name newItem = str "Customers" /\
    si_item_type newItem = Table /\
    item_exists db' 3 /\
    select_table_by_sidebar_id db' 3 = None.
Proof.
  exists (mkSidebarItem 3 (str "Customers") (Some 1) Table
            (Some (str "table")) 1 10 10).
  eexists. split; [vm_compute; reflexivity|].
  split; [|split; [|split; [|split; [|split]]]]; try reflexivity.
  - simpl. apply elem_of_cons. right. apply elem_of_cons. right.
    apply elem_of_cons. by left.
  - unfold item_exists. simpl. apply elem_of_cons. right. apply elem_of_cons.
    right. apply elem_of_cons. by left.
Qed.

End Provisioning.

(** ** The sidebar's tree builder *)

Section BuildTree.
Import Store DynamicSidebar.

Context (flat : list SidebarItem).
Context (Hids : NoDup (si_id <$> flat)).

Lemma buildTree_unfold (l : list SidebarItem) :
  buildTree l =
  foldl link
    (foldl (fun m flatItem => <[si_id flatItem := mkTreeItem flatItem []]> m) ∅ l,
     []) l.
Proof. by destruct l. Qed.

Lemma item_with_id_unique x :
  x ∈ flat -> item_with_id flat (si_id x) = Some x.
Proof using Hids.
  unfold item_with_id. clear -Hids. induction flat as [|y l IH]; intros Hx.
  - by apply elem_of_nil in Hx.
  - rewrite fmap_cons in Hids. apply NoDup_cons in Hids as [Hy Hl].
    rewrite filter_cons. apply elem_of_cons in Hx as [->|Hx].
    + by rewrite decide_True.
    + rewrite decide_False; [by apply IH|].
      intros Heq. apply Hy. rewrite Heq. by apply list_elem_of_fmap_2.
Qed.

Lemma item_with_id_Some i x :
  item_with_id flat i = Some x -> x ∈ flat /\ si_id x = i.
Proof.
  unfold item_with_id. intros Hx. apply head_Some_elem_of in Hx.
  apply list_elem_of_filter in Hx. tauto.
Qed.

Lemma item_with_id_None i :
  item_with_id flat i = None -> i ∉ si_id <$> flat.
Proof.
  unfold item_with_id. intros Hn Hin.
  apply list_elem_of_fmap in Hin as (x & -> & Hx).
  assert (Hf : x ∈ filter (fun y => si_id y = si_id x) flat)
    by (by apply list_elem_of_filter).
  destruct (filter _ flat); [by apply elem_of_nil in Hf|done].
Qed.


(** The first [forEach]: one object per item, without children. *)
Lemma first_pass_lookup (l : list SidebarItem) (m : gmap Z TreeItem) i :
  NoDup (si_id <$> l) ->
  foldl (fun m flatItem => <[si_id flatItem := mkTreeItem flatItem []]> m) m l !! i =
  match head (filter (fun y => si_id y = i) l) with
  | Some x => Some (mkTreeItem x [])
  | None => m !! i
  end.
Proof.
  revert m. induction l as [|y l IH]; intros m Hnd; [done|].
  rewrite fmap_cons in Hnd. apply NoDup_cons in Hnd as [Hy Hl].
  simpl. rewrite IH by done. rewrite filter_cons.
  destruct (decide (si_id y = i)) as [Heq|Hne].
  - rewrite filter_none.
    + simpl. rewrite <- Heq. by rewrite lookup_insert_eq.
    + apply Forall_forall. intros z Hz Hzi. apply Hy. rewrite Heq, <- Hzi.
      by apply list_elem_of_fmap_2.
  - destruct (head _); [done|]. by rewrite lookup_insert_ne.
Qed.

(** The second [forEach], item by item. *)
Lemma second_pass (todo seen : list SidebarItem) (m : gmap Z TreeItem)
    (roots : list Z) :
  (forall i, m !! i = object_after flat seen i) ->
  exists m',
    foldl link (m, roots) todo =
      (m', roots ++ (si_id <$> filter (fun x => si_parent_id x = None) todo)) /\
    (forall i, m' !! i = object_after flat (seen ++ todo) i).
Proof.
  revert seen m roots. induction todo as [|y todo IH]; intros seen m roots Hm.
  - exists m. simpl. rewrite !app_nil_r. done.
  - simpl.
    destruct (si_parent_id y) as [p|] eqn:Hp.
    + assert (Hstep : exists m1,
                (match m !! p with
                 | Some parent =>
                     (<[p := mkTreeItem (item parent)
                               (children parent ++ [si_id y])]> m, roots)
                 | None => (m, roots)
                 end) = (m1, roots) /\
                forall i, m1 !! i = object_after flat (seen ++ [y]) i).
      { rewrite Hm. unfold object_after.
        destruct (item_with_id flat p) as [px|] eqn:Hpx; simpl.
        - eexists. split; [reflexivity|]. intros i.
          destruct (decide (p = i)) as [<-|Hne].
          + rewrite lookup_insert_eq, Hpx. simpl.
            rewrite filter_app, fmap_app, filter_cons, decide_True by done.
            done.
          + rewrite lookup_insert_ne, Hm by done. unfold object_after.
            rewrite filter_app, filter_cons, decide_False by congruence.
            by rewrite filter_nil, app_nil_r.
        - exists m. split; [done|]. intros i. rewrite Hm. unfold object_after.
          rewrite filter_app, filter_cons.
          destruct (decide (si_parent_id y = Some i)) as [Heq|Hne].
          + assert (p = i) as <- by congruence. by rewrite Hpx.
          + by rewrite filter_nil, app_nil_r. }
      destruct Hstep as (m1 & -> & Hm1).
      destruct (IH (seen ++ [y]) m1 roots Hm1) as (m' & Hrun & Hm').
      exists m'. rewrite Hrun, filter_cons, decide_False by congruence.
      split; [done|]. intros i. by rewrite Hm', <- app_assoc.
    + assert (Hm1 : forall i, m !! i = object_after flat (seen ++ [y]) i).
      { intros i. rewrite Hm. unfold object_after.
        rewrite filter_app, filter_cons, decide_False by congruence.
        by rewrite filter_nil, app_nil_r. }
      destruct (IH (seen ++ [y]) m (roots ++ [si_id y]) Hm1) as (m' & Hrun & Hm').
      exists m'. rewrite Hrun, filter_cons, decide_True by done.
      rewrite fmap_cons, <- app_assoc. split; [done|].
      intros i. by rewrite Hm', <- app_assoc.
Qed.

(** What [buildTree] returns: the roots are the items with a [null]
    parent, and every item's object lists, as children, the items that
    name it as their parent, both in the order of the flat list. *)
Lemma buildTree_shape :
  exists m,
    buildTree flat =
      (m, si_id <$> filter (fun x => si_parent_id x = None) flat) /\
    (forall i, m !! i = object_after flat flat i).
Proof using Hids.
  rewrite buildTree_unfold.
  destruct (second_pass flat [] (foldl (fun m flatItem =>
              <[si_id flatItem := mkTreeItem flatItem []]> m) ∅ flat) [])
    as (m' & Hrun & Hm').
  - intros i. rewrite first_pass_lookup by done. unfold object_after.
    fold (item_with_id flat i). by destruct (item_with_id flat i).
  - exists m'. split; [exact Hrun|]. exact Hm'.
Qed.

(** Sums over lists. *)
Lemma sum_list_with_fmap {A B} (f : B -> nat) (g : A -> B) (l : list A) :
  sum_list_with f (g <$> l) = sum_list_with (fun a => f (g a)) l.
Proof. induction l as [|a l IH]; csimpl; [done|]. by rewrite IH. Qed.

Lemma sum_list_with_ext_in {A} (f g : A -> nat) (l : list A) :
  (forall a, a ∈ l -> f a = g a) -> sum_list_with f l = sum_list_with g l.
Proof.
  induction l as [|a l IH]; intros Hfg; [done|]. simpl.
  rewrite (Hfg a) by (apply elem_of_cons; by left).
  rewrite IH; [done|]. intros b Hb. apply Hfg, elem_of_cons. by right.
Qed.

Lemma sum_list_with_S {A} (f : A -> nat) (l : list A) :
  sum_list_with (fun a => S (f a)) l = (length l + sum_list_with f l)%nat.
Proof. induction l as [|a l IH]; simpl; [done|]. rewrite IH. lia. Qed.

Lemma sum_list_with_zero {A} (l : list A) :
  sum_list_with (fun _ => O) l = O.
Proof. by induction l. Qed.

Lemma sum_list_with_one {A} (l : list A) :
  sum_list_with (fun _ => 1%nat) l = length l.
Proof. induction l as [|a l IH]; simpl; [done|]. by rewrite IH. Qed.

Lemma sum_filter_or {A} (P Q : A -> Prop) `{forall a, Decision (P a)}
    `{forall a, Decision (Q a)} (g : A -> nat) (l : list A) :
  (forall a, P a -> Q a -> False) ->
  sum_list_with g (filter (fun a => P a \/ Q a) l) =
  (sum_list_with g (filter P l) + sum_list_with g (filter Q l))%nat.
Proof.
  intros Hdisj. induction l as [|a l IH]; [done|].
  rewrite !filter_cons.
  destruct (decide (P a)) as [HP|HP], (decide (Q a)) as [HQ|HQ].
  - destruct (Hdisj a HP HQ).
  - rewrite decide_True by (by left). simpl. rewrite IH. lia.
  - rewrite decide_True by (by right). simpl. rewrite IH. lia.
  - rewrite decide_False by tauto. exact IH.
Qed.

Lemma NoDup_fmap_filter {A B} (f : A -> B) (P : A -> Prop)
    `{forall a, Decision (P a)} (l : list A) :
  NoDup (f <$> l) -> NoDup (f <$> filter P l).
Proof.
  induction l as [|a l IH]; [done|].
  rewrite fmap_cons, NoDup_cons. intros [Ha Hl]. rewrite filter_cons.
  destruct (decide (P a)); [|by apply IH].
  rewrite fmap_cons. apply NoDup_cons. split; [|by apply IH].
  intros Hin. apply Ha. apply list_elem_of_fmap in Hin as (b & -> & Hb).
  apply list_elem_of_filter in Hb as [_ Hb]. by apply list_elem_of_fmap_2.
Qed.

Section Counting.
Context (m : gmap Z TreeItem).
Context (Hm : forall i, m !! i = object_after flat flat i).

(** The objects visited from an item: itself and, one level down, what
    is visited from the items that name it as their parent. *)
Lemma nodes_below_item d x :
  x ∈ flat ->
  nodes_below (S d) m (si_id x) =
  S (sum_list_with (fun c => nodes_below d m (si_id c))
       (filter (fun c => si_parent_id c = Some (si_id x)) flat)).
Proof using Hids Hm.
  intros Hx. simpl. rewrite Hm. unfold object_after.
  rewrite (item_with_id_unique x Hx). simpl. by rewrite sum_list_with_fmap.
Qed.

Lemma sum_over_children (g : SidebarItem -> nat) (parents : list SidebarItem) :
  NoDup (si_id <$> parents) ->
  sum_list_with
    (fun x => sum_list_with g
                (filter (fun c => si_parent_id c = Some (si_id x)) flat))
    parents =
  sum_list_with g (children_of parents flat).
Proof.
  unfold children_of. induction parents as [|x parents IH]; intros Hnd.
  - simpl. rewrite filter_none; [done|].
    apply Forall_forall. intros c _ Hex. by apply Exists_nil in Hex.
  - rewrite fmap_cons in Hnd. apply NoDup_cons in Hnd as [Hx Hnd].
    simpl. rewrite IH by done.
    rewrite <- (sum_filter_or
                  (fun c => si_parent_id c = Some (si_id x))
                  (fun c => Exists (fun y => si_parent_id c = Some (si_id y))
                              parents)).
    + f_equal. apply list_filter_iff. intros c. by rewrite Exists_cons.
    + intros c Hc Hex. apply Exists_exists in Hex as (y & Hy & Hcy).
      apply Hx. assert (si_id x = si_id y) as -> by congruence.
      by apply list_elem_of_fmap_2.
Qed.

Lemma nodes_below_parents d (parents : list SidebarItem) :
  (forall x, x ∈ parents -> x ∈ flat) ->
  NoDup (si_id <$> parents) ->
  sum_list_with (fun x => nodes_below (S d) m (si_id x)) parents =
  (length parents +
   sum_list_with (fun c => nodes_below d m (si_id c))
     (children_of parents flat))%nat.
Proof using Hids Hm.
  intros Hsub Hnd.
  rewrite <- sum_over_children by done.
  rewrite <- sum_list_with_S.
  apply sum_list_with_ext_in. intros x Hx. by apply nodes_below_item, Hsub.
Qed.

Lemma level_succ k : level (S k) flat = children_of (level k flat) flat.
Proof using Hids.
  unfold level, children_of. apply list_filter_iff. intros c. simpl. split.
  - destruct (si_parent_id c) as [p|]; [|done].
    destruct (item_with_id flat p) as [px|] eqn:Hpx; [|done].
    intros Hres. apply item_with_id_Some in Hpx as [Hin <-].
    apply Exists_exists. exists px. split; [|done].
    by apply list_elem_of_filter.
  - intros Hex. apply Exists_exists in Hex as (x & Hx & Hc).
    apply list_elem_of_filter in Hx as [Hres Hx].
    by rewrite Hc, (item_with_id_unique x Hx).
Qed.

Lemma nodes_below_level d k :
  sum_list_with (fun x => nodes_below d m (si_id x)) (level k flat) =
  level_sizes k d flat.
Proof using Hids Hm.
  revert k. induction d as [|d IH]; intros k.
  - simpl. apply sum_list_with_zero.
  - rewrite nodes_below_parents.
    + simpl. by rewrite <- level_succ, IH.
    + intros x Hx. by apply list_elem_of_filter in Hx as [_ ?].
    + by apply NoDup_fmap_filter.
Qed.

End Counting.

(** The parent chain: reaching a root within [d] items is reaching it
    after some exact number of steps below [d], and that number is
    unique. *)
Lemma chain_resolves_iff d x :
  chain_resolves d flat x = true <->
  exists j, (j < d)%nat /\ resolves_at j flat x.
Proof.
  revert x. induction d as [|d IH]; intros x; simpl.
  - split; [done|]. intros (j & Hj & _). lia.
  - destruct (si_parent_id x) as [p|] eqn:Hp.
    + destruct (item_with_id flat p) as [px|] eqn:Hpx.
      * rewrite IH. split.
        -- intros (j & Hj & Hres). exists (S j). split; [lia|].
           simpl. by rewrite Hp, Hpx.
        -- intros ([|j] & Hj & Hres); simpl in Hres; rewrite Hp in Hres;
             [done|]. rewrite Hpx in Hres. exists j. split; [lia|done].
      * split; [done|].
        intros ([|j] & Hj & Hres); simpl in Hres; rewrite Hp in Hres;
          [done|]. by rewrite Hpx in Hres.
    + split; [|done]. intros _. exists O. split; [lia|done].
Qed.

Lemma resolves_at_unique j j' x :
  resolves_at j flat x -> resolves_at j' flat x -> j = j'.
Proof.
  revert j' x. induction j as [|j IH]; intros [|j'] x; simpl; try done.
  - by intros ->.
  - destruct (si_parent_id x); [|done]. done.
  - destruct (si_parent_id x) as [p|]; [|done].
    destruct (item_with_id flat p) as [px|]; [|done].
    intros H1 H2. f_equal. by eapply IH.
Qed.

Lemma level_sizes_snoc k d :
  level_sizes k (S d) flat =
  (level_sizes k d flat + length (level (k + d) flat))%nat.
Proof.
  revert k. induction d as [|d IH]; intros k.
  - simpl. by rewrite Nat.add_0_r, Nat.add_0_r.
  - change (level_sizes k (S (S d)) flat)
      with (length (level k flat) + level_sizes (S k) (S d) flat)%nat.
    rewrite IH. simpl. replace (k + S d)%nat with (S (k + d)) by lia. lia.
Qed.

(** The items whose chain resolves within [d] items are those of the
    first [d] levels. *)
Lemma count_resolving d :
  length (filter (fun x => chain_resolves d flat x = true) flat) =
  level_sizes 0 d flat.
Proof.
  induction d as [|d IH].
  - simpl. by rewrite filter_none by (apply Forall_forall; intros; done).
  - rewrite level_sizes_snoc, <- IH, Nat.add_0_l. unfold level.
    rewrite <- !sum_list_with_one.
    rewrite <- (sum_filter_or (fun x => chain_resolves d flat x = true)
                  (resolves_at d flat)).
    + f_equal. apply list_filter_iff. intros x.
      rewrite !chain_resolves_iff. split.
      * intros (j & Hj & Hres). destruct (decide (j = d)) as [->|Hne].
        -- by right.
        -- left. exists j. split; [lia|done].
      * intros [(j & Hj & Hres)|Hres].
        -- exists j. split; [lia|done].
        -- exists d. split; [lia|done].
    + intros x Hchain Hres. apply chain_resolves_iff in Hchain as (j & Hj & Hj').
      pose proof (resolves_at_unique _ _ _ Hj' Hres). lia.
Qed.

Lemma level_sizes_bounded d : (level_sizes 0 d flat <= length flat)%nat.
Proof. rewrite <- count_resolving. apply length_filter. Qed.

Lemma level_nil_onwards k j :
  level k flat = [] -> level (k + j) flat = [].
Proof using Hids.
  intros Hk. induction j as [|j IH]; [by rewrite Nat.add_0_r|].
  replace (k + S j)%nat with (S (k + j)) by lia.
  rewrite level_succ, IH. unfold children_of. apply filter_none.
  apply Forall_forall. intros c _ Hex. by apply Exists_nil in Hex.
Qed.

Lemma level_sizes_at_least d :
  (forall k, (k < d)%nat -> level k flat <> []) ->
  (d <= level_sizes 0 d flat)%nat.
Proof.
  induction d as [|d IH]; intros Hne; [done|].
  rewrite level_sizes_snoc. simpl.
  assert (d <= level_sizes 0 d flat)%nat by (apply IH; intros k Hk; apply Hne; lia).
  specialize (Hne d (Nat.lt_succ_diag_r d)).
  destruct (level d flat); [done|]. simpl. lia.
Qed.

(** No item lies at the depth [length flat] or deeper. *)
Lemma level_beyond k : (length flat <= k)%nat -> level k flat = [].
Proof using Hids.
  intros Hk.
  assert (Hn : level (length flat) flat = []).
  { destruct (level (length flat) flat) as [|y l] eqn:Hl; [done|]. exfalso.
    assert (Hall : forall j, (j < S (length flat))%nat -> level j flat <> []).
    { intros j Hj Hnil.
      pose proof (level_nil_onwards j (length flat - j) Hnil) as Hc.
      replace (j + (length flat - j))%nat with (length flat) in Hc by lia.
      by rewrite Hl in Hc. }
    pose proof (level_sizes_at_least _ Hall).
    pose proof (level_sizes_bounded (S (length flat))). lia. }
  pose proof (level_nil_onwards _ (k - length flat) Hn) as Hc.
  by replace (length flat + (k - length flat))%nat with k in Hc by lia.
Qed.

Lemma level_sizes_stable d :
  (length flat <= d)%nat ->
  level_sizes 0 d flat = level_sizes 0 (length flat) flat.
Proof using Hids.
  intros Hd. replace d with (length flat + (d - length flat))%nat by lia.
  induction (d - length flat)%nat as [|j IH]; [by rewrite Nat.add_0_r|].
  replace (length flat + S j)%nat with (S (length flat + j)) by lia.
  rewrite level_sizes_snoc, IH. simpl.
  rewrite level_beyond by lia. simpl. lia.
Qed.

Lemma same_id_same_item x y :
  x ∈ flat -> y ∈ flat -> si_id x = si_id y -> x = y.
Proof using Hids.
  intros Hx Hy Heq. apply item_with_id_unique in Hx, Hy.
  rewrite Heq in Hx. congruence.
Qed.

End BuildTree.

Section BuildTreeResult.
Import Store DynamicSidebar.

(** C4 (amended): for a flat list with distinct ids, the roots of the
    forest are the items whose [parent_id] is [null], and every item's
    children are the items that name it as their parent; an item whose
    [parent_id] is not the id of an item of the list is dropped: it is
    no root and nobody's child.  So, down to any depth [d], the forest
    has as many nodes as there are items whose parent chain reaches a
    [null] parent within [d] items; the count no longer changes from
    [d = length flat] on, and it equals the number of input items when
    every chain resolves. *)
Theorem buildTree_forest (flat : list SidebarItem) :
  NoDup (si_id <$> flat) ->
  exists itemMap rootItems,
    buildTree flat = (itemMap, rootItems) /\
    rootItems = si_id <$> filter (fun x => si_parent_id x = None) flat /\
    (forall x, x ∈ flat ->
       (itemMap !! si_id x) =
       Some (mkTreeItem x
               (si_id <$> filter (fun c => si_parent_id c = Some (si_id x)) flat))) /\
    (forall x p, x ∈ flat -> si_parent_id x = Some p -> p ∉ si_id <$> flat ->
       (si_id x ∉ rootItems) /\
       (forall i o, itemMap !! i = Some o -> si_id x ∉ children o)) /\
    (forall d, forest_nodes d (itemMap, rootItems) =
               length (filter (fun x => chain_resolves d flat x = true) flat)) /\
    (forall d, (length flat <= d)%nat ->
               forest_nodes d (itemMap, rootItems) =
               forest_nodes (length flat) (itemMap, rootItems)) /\
    ((forall x, x ∈ flat -> chain_resolves (length flat) flat x = true) ->
     forest_nodes (length flat) (itemMap, rootItems) = length flat).
Proof.
  intros Hids.
  destruct (buildTree_shape flat Hids) as (m & Hrun & Hm).
  assert (Hcount : forall d,
            forest_nodes d (m, si_id <$> filter (fun x => si_parent_id x = None) flat)
            = level_sizes 0 d flat).
  { intros d. unfold forest_nodes. simpl. rewrite sum_list_with_fmap.
    apply (nodes_below_level flat Hids m Hm d 0). }
  exists m, (si_id <$> filter (fun x => si_parent_id x = None) flat).
  split; [exact Hrun|]. split; [done|]. split; [|split; [|split; [|split]]].
  - intros x Hx. rewrite Hm. unfold object_after.
    by rewrite (item_with_id_unique flat Hids x Hx).
  - intros x p Hx Hp Hout. split.
    + intros Hin. apply list_elem_of_fmap in Hin as (y & Heq & Hy).
      apply list_elem_of_filter in Hy as [Hnone Hy].
      assert (x = y) as -> by (by apply (same_id_same_item flat Hids)).
      congruence.
    + intros i o Ho Hin. rewrite Hm in Ho. unfold object_after in Ho.
      destruct (item_with_id flat i) as [z|] eqn:Hz; [|done].
      injection Ho as <-. simpl in Hin.
      apply list_elem_of_fmap in Hin as (c & Heq & Hc).
      apply list_elem_of_filter in Hc as [Hpc Hc].
      assert (x = c) as <- by (by apply (same_id_same_item flat Hids)).
      assert (p = i) as -> by congruence.
      apply Hout. apply item_with_id_Some in Hz as [Hz <-].
      by apply list_elem_of_fmap_2.
  - intros d. by rewrite Hcount, count_resolving.
  - intros d Hd. rewrite !Hcount. by apply level_sizes_stable.
  - intros Hall. rewrite Hcount, <- count_resolving.
    f_equal. apply filter_every. by apply Forall_forall.
Qed.

Lemma buildTree_forest_witness :
  forest_nodes 5 (buildTree (sidebar_items nested_db)) = 5%nat.
Proof.
  destruct (buildTree_forest (sidebar_items nested_db))
    as (m & roots & Hrun & _ & _ & _ & _ & _ & Hfull).
  - apply (bool_decide_unpack _). vm_compute. exact I.
  - rewrite Hrun. apply Hfull. intros x Hx.
    repeat (apply elem_of_cons in Hx as [->|Hx]; [reflexivity|]).
    by apply elem_of_nil in Hx.
Defined.

(** C4, as stated, fails: the single item of [orphan_items] names a
    parent that is not in the list; [buildTree] returns no root, and the
    forest has no node at any depth, against one input item. *)
Lemma orphan_is_dropped_by_buildTree :
  NoDup (si_id <$> orphan_items) /\
  length orphan_items = 1%nat /\
  (buildTree orphan_items).2 = [] /\
  (forall d, forest_nodes d (buildTree orphan_items) = 0%nat) /\
  ~ (exists d, forest_nodes d (buildTree orphan_items) = length orphan_items).
Proof.
  assert (Hzero : forall d, forest_nodes d (buildTree orphan_items) = 0%nat).
  { intros d. reflexivity. }
  split; [apply (bool_decide_unpack _); vm_compute; exact I|].
  split; [reflexivity|]. split; [reflexivity|]. split; [exact Hzero|].
  intros (d & Hd). rewrite Hzero in Hd. discriminate Hd.
Qed.

End BuildTreeResult.

(* ================================================================== *)
(** * Further properties of the code *)
(* ================================================================== *)

(** ** The grid's row mapping (components/table-view.tsx) *)

Section GridMapping.
Import TableView.

(** A run of keyed assignments over distinct keys: each key holds what
    its item assigned, the other keys what they held before. *)
Lemma foldl_assign_lookup {A V} (key : A -> list Z) (val : A -> option V)
    (l : list A) (m0 : gmap (list Z) V) :
  NoDup (key <$> l) ->
  (forall a, a ∈ l ->
     foldl (fun m a => match val a with
                       | Some v => <[key a := v]> m
                       | None => m
                       end) m0 l !! key a =
     match val a with Some v => Some v | None => m0 !! key a end) /\
  (forall k, k ∉ key <$> l ->
     foldl (fun m a => match val a with
                       | Some v => <[key a := v]> m
                       | None => m
                       end) m0 l !! k = m0 !! k).
Proof.
  revert m0. induction l as [|b l IH]; intros m0 Hnd.
  - split; [intros a Ha; by apply elem_of_nil in Ha|done].
  - rewrite fmap_cons in Hnd. apply NoDup_cons in Hnd as [Hb Hl]. simpl.
    destruct (IH (match val b with Some v => <[key b := v]> m0 | None => m0 end) Hl)
      as [Hin Hout].
    split.
    + intros a Ha. apply elem_of_cons in Ha as [->|Ha].
      * rewrite Hout by done. destruct (val b); [by rewrite lookup_insert_eq|done].
      * rewrite Hin by done. destruct (val a); [done|].
        destruct (val b); [|done]. rewrite lookup_insert_ne; [done|].
        intros Heq. apply Hb. rewrite Heq. by apply list_elem_of_fmap_2.
    + intros k Hk. apply not_elem_of_cons in Hk as [Hne Hk].
      rewrite Hout by done. destruct (val b); [|done]. by rewrite lookup_insert_ne.
Qed.

Lemma NoDup_fmap_same {A B} (f : A -> B) (l : list A) x y :
  NoDup (f <$> l) -> x ∈ l -> y ∈ l -> f x = f y -> x = y.
Proof.
  induction l as [|a l IH]; intros Hnd Hx Hy Heq.
  - by apply elem_of_nil in Hx.
  - rewrite fmap_cons in Hnd. apply NoDup_cons in Hnd as [Ha Hl].
    apply elem_of_cons in Hx as [->|Hx], Hy as [->|Hy]; [done| | |by apply IH].
    + exfalso. apply Ha. rewrite Heq. by apply list_elem_of_fmap_2.
    + exfalso. apply Ha. rewrite <- Heq. by apply list_elem_of_fmap_2.
Qed.

Lemma mappedRow_fields (rt : JsRuntime) now (columns : list Column) row :
  NoDup (fieldName <$> columns) ->
  (forall col, col ∈ columns ->
     mappedRow now columns row !! fieldName col = Some (cellValue now row col)) /\
  (str "id" ∉ fieldName <$> columns ->
     mappedRow now columns row !! str "id" = Some (JNumber (row_id row))) /\
  (forall k, k <> str "id" -> k ∉ fieldName <$> columns ->
     mappedRow now columns row !! k = None).
Proof.
  intros Hnd. unfold mappedRow.
  destruct (foldl_assign_lookup fieldName
              (fun col => Some (cellValue now row col)) columns
              {[ str "id" := JNumber (row_id row) ]} Hnd) as [Hin Hout].
  split; [exact Hin|]. split.
  - intros Hid. rewrite (Hout _ Hid). apply lookup_singleton_eq.
  - intros k Hk Hnot. rewrite (Hout _ Hnot). by apply lookup_singleton_ne.
Qed.

(** What the grid shows for a column: the stored value when it is
    truthy, the column's default when the stored value is falsy or when
    the key is missing and the column's name is none that
    [Object.prototype] holds, and the inherited function when the key is
    missing and the column is named like one. *)
Lemma cellValue_cases now row col :
  let shown := cellValue now row col in
  let resolved := getDefaultValueForType now (col_data_type col)
                    (col_default_value col) in
  (forall v, row_data row !! col_name col = Some v ->
             truthy (Some v) = true -> shown = v) /\
  (forall v, row_data row !! col_name col = Some v ->
             truthy (Some v) = false -> shown = resolved) /\
  (row_data row !! col_name col = None ->
   col_name col ∉ object_prototype_keys -> shown = resolved) /\
  (row_data row !! col_name col = None ->
   col_name col ∈ object_prototype_functions ->
   shown = JFunction (col_name col)).
Proof.
  cbv zeta. split; [|split; [|split]].
  - intros v Hv Ht. rewrite (cellValue_own _ _ _ _ Hv). unfold js_or. by rewrite Ht.
  - intros v Hv Ht. rewrite (cellValue_own _ _ _ _ Hv). unfold js_or. by rewrite Ht.
  - apply cellValue_absent.
  - apply cellValue_inherited.
Qed.

(** X1: [mappedRow] over columns with distinct field names, none of them
    [__proto__] (an assignment to which makes no property).  Under each
    column's field name the grid row holds the stored value when it is
    truthy, the column's default when the stored value is falsy or when
    the key is missing, and, when the key is missing and the column is
    named like a function of [Object.prototype], that function.  It holds
    nothing under any other key but [id]; [id] holds the row's id unless
    a column's field name is [id], and then it holds what that column
    shows. *)
Theorem mappedRow_lookup (rt : JsRuntime) now (columns : list Column) row :
  NoDup (fieldName <$> columns) ->
  str "__proto__" ∉ fieldName <$> columns ->
  (forall col, col ∈ columns ->
     let shown := mappedRow now columns row !! fieldName col in
     let resolved := getDefaultValueForType now (col_data_type col)
                       (col_default_value col) in
     (forall v, row_data row !! col_name col = Some v ->
                truthy (Some v) = true -> shown = Some v) /\
     (forall v, row_data row !! col_name col = Some v ->
                truthy (Some v) = false -> shown = Some resolved) /\
     (row_data row !! col_name col = None ->
      col_name col ∉ object_prototype_keys -> shown = Some resolved) /\
     (row_data row !! col_name col = None ->
      col_name col ∈ object_prototype_functions ->
      shown = Some (JFunction (col_name col)))) /\
  (forall k, k <> str "id" -> k ∉ fieldName <$> columns ->
     mappedRow now columns row !! k = None) /\
  (str "id" ∉ fieldName <$> columns ->
     mappedRow now columns row !! str "id" = Some (JNumber (row_id row))) /\
  (forall col, col ∈ columns -> fieldName col = str "id" ->
     mappedRow now columns row !! str "id" =
     mappedRow now columns row !! fieldName col).
Proof.
  intros Hnd _.
  destruct (mappedRow_fields rt now columns row Hnd) as (Hcols & Hrowid & Hother).
  split; [|split; [done|split; [done|]]].
  - intros col Hcol. cbv zeta. rewrite (Hcols col Hcol).
    destruct (cellValue_cases now row col) as (Htrue & Hfalse & Hnone & Hfun).
    split; [|split; [|split]].
    + intros v Hv Ht. by rewrite (Htrue v Hv Ht).
    + intros v Hv Ht. by rewrite (Hfalse v Hv Ht).
    + intros Hv Hk. by rewrite (Hnone Hv Hk).
    + intros Hv Hk. by rewrite (Hfun Hv Hk).
  - intros col Hcol Hname. by rewrite Hname.
Qed.

Lemma mappedRow_lookup_witness :
  mappedRow (H := ascii_runtime) (mkJsDate 2026 11 3 0 0 0 0) grid_columns
    grid_row !! str "c" = Some (JString (str "5")) /\
  mappedRow (H := ascii_runtime) (mkJsDate 2026 11 3 0 0 0 0) grid_columns
    grid_row !! str "a" = Some (JNumber 1).
Proof.
  destruct (mappedRow_lookup ascii_runtime (mkJsDate 2026 11 3 0 0 0 0)
              grid_columns grid_row) as (Hcols & _).
  - apply (bool_decide_unpack _). vm_compute. exact I.
  - apply (bool_decide_unpack _). vm_compute. exact I.
  - split.
    + destruct (Hcols (mkColumn 3 (str "c") (str "number") false
                         (Some (str "5")) 1)) as (_ & _ & Hnone & _).
      * apply elem_of_cons. right. apply elem_of_cons. by left.
      * apply Hnone; [reflexivity|].
        apply (bool_decide_unpack _). vm_compute. exact I.
    + destruct (Hcols (mkColumn 1 (str "a") (str "number") false None 0))
        as (Htrue & _).
      * apply elem_of_cons. by left.
      * by apply Htrue.
Defined.

Lemma NoDup_names_of_fields (rt : JsRuntime) (columns : list Column) :
  NoDup (fieldName <$> columns) -> NoDup (col_name <$> columns).
Proof.
  intros Hnd.
  apply (NoDup_fmap_1 (fun n => replace_ws_runs (toLowerCase n))).
  by rewrite <- list_fmap_compose.
Qed.

(** What [updateRowData] sends, for columns with distinct names: under
    each column name the grid row's field of that column, left out when
    the field is [undefined], and nothing under any other key. *)
Lemma originalData_fields (rt : JsRuntime) (columns : list Column)
    (data : gmap (list Z) JsValue) :
  NoDup (col_name <$> columns) ->
  (forall col, col ∈ columns ->
     originalData columns data !! col_name col = data !! fieldName col) /\
  (forall k, k ∉ col_name <$> columns -> originalData columns data !! k = None).
Proof.
  intros Hnd. unfold originalData.
  destruct (foldl_assign_lookup col_name (fun col => data !! fieldName col)
              columns ∅ Hnd) as [Hin Hout].
  split.
  - intros col Hcol. rewrite (Hin col Hcol). by destruct (data !! fieldName col).
  - intros k Hk. by rewrite (Hout k Hk).
Qed.

Lemma Pg_updateTableRow_stored id m db old :
  Store.select_row db id = Some old ->
  exists r db',
    Pg.updateTableRow id m db = (inr (Some r), db') /\
    Store.select_row db' id = Some r /\ Store.td_row_data r = m.
Proof.
  intros Hold.
  set (write := fun r : Store.TableData =>
         if bool_decide (Store.td_id r = id)
         then Store.mkTableData (Store.td_id r) (Store.td_table_id r) m
                (Store.td_created_at r) (Store.clock db)
         else r).
  assert (Hid : forall r, Store.td_id (write r) = id <-> Store.td_id r = id).
  { intros r. unfold write. by case_bool_decide. }
  assert (Hsel : head (filter (fun r => Store.td_id r = id)
                         (write <$> Store.table_data db)) = Some (write old)).
  { rewrite (filter_fmap_stable _ _ _ Hid), head_fmap_list.
    unfold Store.select_row in Hold. by rewrite Hold. }
  assert (Holdid : Store.td_id old = id).
  { unfold Store.select_row in Hold. apply head_Some_elem_of in Hold.
    by apply list_elem_of_filter in Hold as [? _]. }
  exists (write old). eexists. split; [|split].
  - rewrite Pg_updateTableRow_run by (by eapply selected_row_is_integer).
    unfold Store.bind, Store.statement, Store.ret, Store.update_table_data.
    fold write. by rewrite Hsel.
  - exact Hsel.
  - unfold write. by rewrite bool_decide_eq_true_2.
Qed.

(** The row route on a row that exists. *)
Lemma RowRoute_PUT_stored id m db old :
  Store.select_row db id = Some old ->
  exists r db',
    RowRoute.PUT (Some id) m db = (Reply200 r, db') /\
    Store.select_row db' id = Some r /\ Store.td_row_data r = m.
Proof.
  intros Hold.
  destruct (Pg_updateTableRow_stored id m db old Hold) as (r & db' & Hrun & Hsel & Hm).
  exists r, db'. split; [|done].
  unfold RowRoute.PUT, reply. unfold Store.bind at 1.
  rewrite path_id_ok by (by eapply selected_row_is_integer).
  unfold Store.bind. by rewrite Hrun.
Qed.

Lemma json_properties_lookup (o : gmap (list Z) JsValue) k :
  json_properties o !! k =
  match o !! k with
  | Some v => if is_function v then None else Some v
  | None => None
  end.
Proof.
  unfold json_properties. destruct (o !! k) as [v|] eqn:Hk.
  - destruct (is_function v) eqn:Hf.
    + apply map_lookup_filter_None. right. intros v' Hv'. simpl.
      rewrite Hk in Hv'. injection Hv' as <-. by rewrite Hf.
    + by apply map_lookup_filter_Some.
  - apply map_lookup_filter_None. by left.
Qed.

Lemma default_is_no_function now dataType defaultValue :
  is_function (getDefaultValueForType now dataType defaultValue) = false.
Proof. unfold getDefaultValueForType. by repeat case_match. Qed.

(** X2: a cell edit, end to end, for columns with distinct field names,
    none of them [id], and with no field or column named [__proto__].
    The grid row is the mapped row with the edited field changed;
    [updateRowData] sends it under the column names and the row route
    stores what was sent.  The stored row then holds the new value for
    the edited column; for every other column the stored value when it
    was truthy, and the column's default when it was falsy or when the
    key was missing, so that defaults are written back; no key for a
    column named like a function of [Object.prototype] whose key was
    missing (the grid held the function, which [JSON.stringify] leaves
    out); and no key that is not a column name, so that the keys of
    deleted columns are dropped. *)
Theorem cell_edit_stores_resolved_values (rt : JsRuntime) now
    (columns : list Column) row c v db old :
  NoDup (fieldName <$> columns) ->
  str "id" ∉ fieldName <$> columns ->
  str "__proto__" ∉ fieldName <$> columns ->
  str "__proto__" ∉ col_name <$> columns ->
  c ∈ columns -> is_function v = false ->
  map_Forall (fun _ w => is_function w = false) (row_data row) ->
  Store.select_row db (row_id row) = Some old ->
  exists sent r db',
    cellEdited columns (<[fieldName c := v]> (mappedRow now columns row)) =
      Some (row_id row, sent) /\
    RowRoute.PUT (Some (row_id row)) sent db = (Reply200 r, db') /\
    Store.select_row db' (row_id row) = Some r /\
    Store.td_row_data r !! col_name c = Some v /\
    (forall c', c' ∈ columns -> c' <> c ->
       let stored := Store.td_row_data r !! col_name c' in
       let resolved := getDefaultValueForType now (col_data_type c')
                         (col_default_value c') in
       (forall w, row_data row !! col_name c' = Some w ->
                  truthy (Some w) = true -> stored = Some w) /\
       (forall w, row_data row !! col_name c' = Some w ->
                  truthy (Some w) = false -> stored = Some resolved) /\
       (row_data row !! col_name c' = None ->
        col_name c' ∉ object_prototype_keys -> stored = Some resolved) /\
       (row_data row !! col_name c' = None ->
        col_name c' ∈ object_prototype_functions -> stored = None)) /\
    (forall k, k ∉ col_name <$> columns -> Store.td_row_data r !! k = None).
Proof.
  intros Hnd Hid _ _ Hc Hv Hjson Hold.
  pose proof (NoDup_names_of_fields rt columns Hnd) as Hnames.
  destruct (mappedRow_fields rt now columns row Hnd) as (Hcols & Hrowid & _).
  set (grid := <[fieldName c := v]> (mappedRow now columns row)).
  destruct (originalData_fields rt columns grid Hnames) as [Hsent Hstale].
  destruct (RowRoute_PUT_stored (row_id row)
              (json_properties (originalData columns grid)) db old Hold)
    as (r & db' & Hrun & Hsel & Hdata).
  exists (json_properties (originalData columns grid)), r, db'.
  split; [|split; [done|split; [done|split; [|split]]]].
  - unfold cellEdited. unfold grid at 1.
    rewrite lookup_insert_ne, (Hrowid Hid); [done|].
    intros Heq. apply Hid. rewrite <- Heq. by apply list_elem_of_fmap_2.
  - rewrite Hdata, json_properties_lookup, (Hsent c Hc). unfold grid.
    by rewrite lookup_insert_eq, Hv.
  - intros c' Hc' Hne. cbv zeta.
    assert (Store.td_row_data r !! col_name c' =
            if is_function (cellValue now row c') then None
            else Some (cellValue now row c')) as ->.
    { rewrite Hdata, json_properties_lookup, (Hsent c' Hc'). unfold grid.
      rewrite lookup_insert_ne; [by rewrite (Hcols c' Hc')|].
      intros Heq. apply Hne. symmetry.
      by apply (NoDup_fmap_same fieldName columns). }
    destruct (cellValue_cases now row c') as (Htrue & Hfalse & Hnone & Hfun).
    split; [|split; [|split]].
    + intros w Hw Ht. by rewrite (Htrue w Hw Ht), (Hjson _ _ Hw).
    + intros w Hw Ht. by rewrite (Hfalse w Hw Ht), default_is_no_function.
    + intros Hw Hk. by rewrite (Hnone Hw Hk), default_is_no_function.
    + intros Hw Hk. by rewrite (Hfun Hw Hk).
  - intros k Hk. rewrite Hdata, json_properties_lookup. by rewrite (Hstale k Hk).
Qed.

Lemma cell_edit_stores_resolved_values_witness :
  exists sent r db',
    RowRoute.PUT (Some 1) sent sample_db = (Reply200 r, db') /\
    Store.td_row_data r !! str "a" = Some (JNumber 9) /\
    Store.td_row_data r !! str "b" = None /\
    Store.td_row_data r !! str "c" = Some (JString (str "5")).
Proof.
  destruct (cell_edit_stores_resolved_values ascii_runtime
              (mkJsDate 2026 11 3 0 0 0 0) grid_columns grid_row
              (mkColumn 1 (str "a") (str "number") false None 0) (JNumber 9)
              sample_db
              (Store.mkTableData 1 1
                 (list_to_map [(str "a", JNumber 1); (str "b", JNumber 2)]) 0 0))
    as (sent & r & db' & _ & Hput & _ & Ha & Hothers & Hstale).
  - apply (bool_decide_unpack _). vm_compute. exact I.
  - apply (bool_decide_unpack _). vm_compute. exact I.
  - apply (bool_decide_unpack _). vm_compute. exact I.
  - apply (bool_decide_unpack _). vm_compute. exact I.
  - apply elem_of_cons. by left.
  - reflexivity.
  - apply (bool_decide_unpack _). vm_compute. exact I.
  - reflexivity.
  - exists sent, r, db'. split; [exact Hput|]. split; [exact Ha|]. split.
    + apply Hstale. apply (bool_decide_unpack _). vm_compute. exact I.
    + destruct (Hothers (mkColumn 3 (str "c") (str "number") false
                           (Some (str "5")) 1)) as (_ & _ & Hnone & _).
      * apply elem_of_cons. right. apply elem_of_cons. by left.
      * discriminate.
      * apply Hnone; [reflexivity|].
        apply (bool_decide_unpack _). vm_compute. exact I.
Defined.



(** X4: the editor offered for a column type fits the default of the
    type: the number editor goes with 0, the tick box with false, the
    date editor with the date string, the text input with the empty
    string. *)
Theorem editor_fits_type_default now dataType :
  match getEditorForType dataType with
  | EditorNumber => getDefaultValueForType now dataType None = JNumber 0
  | EditorTickCross => getDefaultValueForType now dataType None = JBool false
  | EditorDate => getDefaultValueForType now dataType None = JString (isoDate now)
  | EditorInput => getDefaultValueForType now dataType None = JString []
  end.
Proof.
  unfold getEditorForType, getDefaultValueForType. simpl.
  repeat case_bool_decide; subst; try done.
  by rewrite split_T_toISOString.
Qed.

End GridMapping.

(** ** Rows of a table (lib/database.ts, first revision) *)

Section TableRows.
Import Store.

Lemma filter_ext_elem {A} (P Q : A -> Prop) `{forall x, Decision (P x)}
    `{forall x, Decision (Q x)} (l : list A) :
  (forall x, x ∈ l -> P x <-> Q x) -> filter P l = filter Q l.
Proof.
  induction l as [|x l IH]; intros Hpq; [done|].
  rewrite !filter_cons.
  assert (Hx : P x <-> Q x) by (apply Hpq, elem_of_cons; by left).
  rewrite IH by (intros y Hy; apply Hpq, elem_of_cons; by right).
  destruct (decide (P x)), (decide (Q x)); tauto.
Qed.

#[local] Instance row_order_total : Total Pg.row_order.
Proof. intros r s. unfold Pg.row_order. lia. Qed.

#[local] Instance row_order_trans : Transitive Pg.row_order.
Proof. intros r s t. unfold Pg.row_order. lia. Qed.

(** X5: a row created in an existing table gets the next id of the
    sequence and the payload as given, and can be read back by that id;
    deleting it by that id, as the row route's [DELETE] does, gives back
    the relation of rows as it was. *)
Theorem createTableRow_then_deleteTableRow tableId rowData db :
  sequences_ahead db ->
  table_exists db tableId ->
  exists row db1 db2,
    Pg.createTableRow tableId rowData db = (inr row, db1) /\
    td_id row = seq_table_data db /\
    td_table_id row = tableId /\
    td_row_data row = rowData /\
    select_row db1 (td_id row) = Some row /\
    Pg.deleteTableRow (td_id row) db1 = (inr tt, db2) /\
    RowDeleteRoute.DELETE (Some (td_id row)) db1 = (Reply200 tt, db2) /\
    select_row db2 (td_id row) = None /\
    table_data db2 = table_data db.
Proof.
  intros (_ & _ & _ & Hrows) Hex.
  assert (Hfresh : Forall (fun r => ~ td_id r = seq_table_data db) (table_data db)).
  { eapply Forall_impl; [exact Hrows|]. simpl. intros r Hr. lia. }
  destruct (createTableRow_existing tableId rowData db Hrows Hex) as [Hpg _].
  simpl in Hpg.
  set (row := mkTableData (seq_table_data db) tableId rowData (clock db)
                (clock db)) in *.
  match type of Hpg with _ = (_, ?d) => set (db1 := d) in * end.
  assert (Hint : is_integer db1 (seq_table_data db)).
  { apply (row_id_is_integer db1 row). simpl. apply elem_of_app. right.
    apply elem_of_cons. by left. }
  assert (Hdel : Pg.deleteTableRow (seq_table_data db) db1 =
                 (inr tt, delete_table_data_where
                            (fun r => td_id r = seq_table_data db) db1))
    by (by apply Pg_deleteTableRow_run).
  exists row, db1, (delete_table_data_where
                      (fun r => td_id r = seq_table_data db) db1).
  split; [exact Hpg|]. simpl.
  assert (Hleft : filter (fun r => ~ td_id r = seq_table_data db)
                    (table_data db ++ [row]) = table_data db).
  { rewrite filter_app, filter_every by done.
    rewrite filter_cons, decide_False by (simpl; tauto).
    by rewrite filter_nil, app_nil_r. }
  repeat match goal with |- _ /\ _ => split end; try reflexivity.
  - unfold select_row. simpl. rewrite filter_app, filter_none by done.
    simpl. by rewrite filter_cons, decide_True.
  - exact Hdel.
  - unfold RowDeleteRoute.DELETE, reply. unfold bind at 1.
    rewrite path_id_ok by done. unfold bind. by rewrite Hdel.
  - unfold select_row, delete_table_data_where.
    simpl. rewrite Hleft. by rewrite filter_none.
  - unfold delete_table_data_where. simpl. exact Hleft.
Qed.

Lemma createTableRow_then_deleteTableRow_witness :
  exists row db1 db2,
    Pg.createTableRow 1 {[ str "a" := JNumber 7 ]} sample_db = (inr row, db1) /\
    td_id row = 2 /\
    Pg.deleteTableRow 2 db1 = (inr tt, db2) /\
    table_data db2 = table_data sample_db.
Proof.
  destruct (createTableRow_then_deleteTableRow 1 {[ str "a" := JNumber 7 ]}
              sample_db)
    as (row & db1 & db2 & H1 & H2 & _ & _ & _ & H3 & _ & _ & H4).
  - vm_compute. repeat split; repeat constructor.
  - apply (bool_decide_unpack _). vm_compute. exact I.
  - exists row, db1, db2. rewrite H2 in H3. done.
Defined.


End TableRows.

(** ** Deleting a sidebar item: the two revisions of the service *)

Section Deletion.
Import Store.

Lemma filtered_refl {A} (l : list A) : filtered l l.
Proof.
  exists (fun _ => True), _. symmetry. apply filter_every.
  by apply Forall_forall.
Qed.

Lemma filtered_filter {A} (P : A -> Prop) `{forall x, Decision (P x)}
    (l' l : list A) :
  filtered l' l -> filtered (filter P l') l.
Proof.
  intros (Q & dec & ->). exists (fun a => P a /\ Q a), _.
  apply list_filter_filter.
Qed.

Lemma filtered_trans {A} (l1 l2 l3 : list A) :
  filtered l1 l2 -> filtered l2 l3 -> filtered l1 l3.
Proof. intros (P & dec & ->) H23. by apply filtered_filter. Qed.

Lemma filtered_eq {A} (l1 l2 l : list A) :
  filtered l1 l -> filtered l2 l -> (forall x, x ∈ l1 <-> x ∈ l2) -> l1 = l2.
Proof.
  intros (P & decP & ->) (Q & decQ & ->) Hsame.
  apply filter_ext_elem. intros x Hx. specialize (Hsame x).
  rewrite !list_elem_of_filter in Hsame. tauto.
Qed.

Lemma pruned_refl db : pruned db db.
Proof. repeat split; apply filtered_refl. Qed.

Lemma pruned_trans db1 db2 db3 : pruned db1 db2 -> pruned db2 db3 -> pruned db1 db3.
Proof.
  intros (A1 & A2 & A3 & A4 & A5 & A6 & A7 & A8 & A9 & A10 & A11)
         (B1 & B2 & B3 & B4 & B5 & B6 & B7 & B8 & B9 & B10 & B11).
  repeat split; try (eapply filtered_trans; eassumption); congruence.
Qed.

Lemma delete_tables_pruned (q : DynamicTable -> Prop)
    `{forall t, Decision (q t)} db :
  pruned (delete_dynamic_tables_where q db) db.
Proof.
  unfold delete_dynamic_tables_where.
  repeat split; simpl; first [apply filtered_refl | by eexists _, _].
Qed.

Lemma delete_items_pruned (p : SidebarItem -> Prop)
    `{forall x, Decision (p x)} db :
  pruned (delete_sidebar_items_where p db) db.
Proof.
  unfold delete_sidebar_items_where, delete_dynamic_tables_where.
  repeat split; simpl; by eexists _, _.
Qed.

(** Two stores pruned from the same store and holding the same rows are
    the same store. *)
Lemma pruned_eq db1 db2 db :
  pruned db1 db -> pruned db2 db ->
  (forall x, x ∈ sidebar_items db1 <-> x ∈ sidebar_items db2) ->
  (forall t, t ∈ dynamic_tables db1 <-> t ∈ dynamic_tables db2) ->
  (forall c, c ∈ table_columns db1 <-> c ∈ table_columns db2) ->
  (forall r, r ∈ table_data db1 <-> r ∈ table_data db2) ->
  db1 = db2.
Proof.
  intros (A1 & A2 & A3 & A4 & A5 & A6 & A7 & A8 & A9 & A10 & A11)
         (B1 & B2 & B3 & B4 & B5 & B6 & B7 & B8 & B9 & B10 & B11) Hi Ht Hc Hr.
  destruct db1, db2. simpl in *.
  f_equal; try congruence; eapply filtered_eq; eassumption.
Qed.

Lemma subtree_removed_unique db a db1 db2 :
  pruned db1 db -> pruned db2 db ->
  subtree_removed db a db1 -> subtree_removed db a db2 -> db1 = db2.
Proof.
  intros P1 P2 (Hi1 & Ht1 & Hc1 & Hr1) (Hi2 & Ht2 & Hc2 & Hr2).
  apply (pruned_eq db1 db2 db P1 P2).
  - intros x. by rewrite Hi1, Hi2.
  - intros t. by rewrite Ht1, Ht2.
  - intros c. by rewrite Hc1, Hc2.
  - intros r. by rewrite Hr1, Hr2.
Qed.

Lemma cascade_ids_nil items : cascade_ids items [] = [].
Proof.
  unfold cascade_ids. generalize (length items). intros k.
  induction k as [|k IH]; [done|]. simpl.
  replace (cascade_round items []) with (@nil Z); [done|].
  unfold cascade_round. simpl. rewrite filter_none; [done|].
  apply Forall_forall. intros x _ [Hp _]. unfold parent_in in Hp.
  destruct (si_parent_id x); simpl in Hp; [by apply elem_of_nil in Hp|done].
Qed.

(** A [DELETE] whose condition no item meets changes nothing. *)
Lemma delete_items_nothing (p : SidebarItem -> Prop)
    `{forall x, Decision (p x)} db :
  filter p (sidebar_items db) = [] -> delete_sidebar_items_where p db = db.
Proof.
  intros Hnone.
  apply (pruned_eq _ _ db (delete_items_pruned p db) (pruned_refl db)).
  - intros x. rewrite delete_items_items. unfold doomed.
    rewrite Hnone, cascade_ids_nil. split; [tauto|].
    intros Hx. split; [done|]. apply not_elem_of_nil.
  - intros t. rewrite delete_items_tables. unfold doomed.
    rewrite Hnone, cascade_ids_nil. split; [tauto|].
    intros Hx. split; [done|]. apply not_elem_of_nil.
  - intros c. rewrite delete_items_columns. unfold doomed.
    rewrite Hnone, cascade_ids_nil. split; [tauto|].
    intros Hx. split; [done|]. intros t _ Hin. by apply elem_of_nil in Hin.
  - intros r. rewrite delete_items_rows. unfold doomed.
    rewrite Hnone, cascade_ids_nil. split; [tauto|].
    intros Hx. split; [done|]. intros t _ Hin. by apply elem_of_nil in Hin.
Qed.

Lemma no_item_with_id db id :
  ~ item_exists db id -> filter (fun x => si_id x = id) (sidebar_items db) = [].
Proof.
  intros Hno. apply filter_none, Forall_forall. intros x Hx Hid.
  apply Hno. unfold item_exists. rewrite <- Hid. by apply list_elem_of_fmap_2.
Qed.

(** X7: deleting an id that no sidebar item has.  For an id that is an
    [INTEGER], the PostgreSQL revision runs its [DELETE], which matches
    nothing: it succeeds, the route answers [{ success: true }], and the
    store is as it was.  For a number that is no [INTEGER] the statement
    raises and the route answers 500, as it does when the path gives
    [NaN]; the store is as it was.  The MySQL revision looks the item up
    first and throws "Sidebar item not found", with the store as it
    was. *)
Theorem deleteSidebarItem_unknown_id id db :
  ~ item_exists db id ->
  (int4 id ->
   Pg.deleteSidebarItem id db = (inr tt, db) /\
   ItemRoute.DELETE (Some id) db = (Reply200 tt, db)) /\
  (~ is_integer db id ->
   Pg.deleteSidebarItem id db =
     (inl (SqlFailure NumericValueOutOfRange), db) /\
   ItemRoute.DELETE (Some id) db = (Reply500, db)) /\
  ItemRoute.DELETE None db = (Reply500, db) /\
  MySql.deleteSidebarItem id db =
    (inl (JsError (str "Sidebar item not found")), db).
Proof.
  intros Hno. split; [|split; [|split]].
  - intros Hint.
    assert (Hpg : Pg.deleteSidebarItem id db = (inr tt, db)).
    { rewrite Pg_deleteSidebarItem_run by (by left).
      by rewrite (delete_items_nothing _ db (no_item_with_id db id Hno)). }
    split; [exact Hpg|].
    unfold ItemRoute.DELETE, reply. unfold bind at 1.
    rewrite path_id_ok by (by left). unfold bind. by rewrite Hpg.
  - intros Hout. destruct (Pg_id_refused id db Hout) as (Hpg & _).
    split; [exact Hpg|].
    unfold ItemRoute.DELETE, reply. unfold bind at 1.
    by rewrite path_id_refused.
  - reflexivity.
  - unfold MySql.deleteSidebarItem, try_catch, bind, query, select_item.
    by rewrite (no_item_with_id db id Hno).
Qed.

Lemma deleteSidebarItem_unknown_id_witness :
  (Pg.deleteSidebarItem 7 sample_db = (inr tt, sample_db) /\
   ItemRoute.DELETE (Some 7) sample_db = (Reply200 tt, sample_db)) /\
  ItemRoute.DELETE (Some 4294967296) sample_db = (Reply500, sample_db) /\
  MySql.deleteSidebarItem 7 sample_db =
    (inl (JsError (str "Sidebar item not found")), sample_db).
Proof.
  destruct (deleteSidebarItem_unknown_id 7 sample_db) as (Hin & _ & _ & Hmy).
  { apply (bool_decide_unpack _). vm_compute. exact I. }
  destruct (deleteSidebarItem_unknown_id 4294967296 sample_db)
    as (_ & Hout & _).
  { apply (bool_decide_unpack _). vm_compute. exact I. }
  split; [|split].
  - apply Hin. apply (bool_decide_unpack _). vm_compute. exact I.
  - apply Hout. apply (bool_decide_unpack _). vm_compute. exact I.
  - exact Hmy.
Defined.

Lemma doomed_by_id_iff db a i :
  item_exists db a ->
  i ∈ doomed (fun x => si_id x = a) db <-> in_subtree (sidebar_items db) a i.
Proof.
  intros Ha. split; [apply doomed_by_id_sound|by apply doomed_by_id_complete].
Qed.

Lemma doomed_children_iff db a i :
  i ∈ doomed (fun x => si_parent_id x = Some a) db <->
  descends (sidebar_items db) i a.
Proof. split; [apply doomed_children_sound|apply doomed_children_complete]. Qed.

Lemma delete_tables_nothing (q : DynamicTable -> Prop)
    `{forall t, Decision (q t)} db :
  (forall t, t ∈ dynamic_tables db -> ~ q t) ->
  delete_dynamic_tables_where q db = db.
Proof.
  intros Hnone.
  apply (pruned_eq _ _ db (delete_tables_pruned q db) (pruned_refl db)).
  - done.
  - intros t. rewrite delete_tables_tables. split; [tauto|].
    intros Ht. split; [done|]. by apply Hnone.
  - intros c. rewrite delete_tables_columns. split; [tauto|].
    intros Hc. split; [done|]. intros t Ht Hq. by apply Hnone in Hq.
  - intros r. rewrite delete_tables_rows. split; [tauto|].
    intros Hr. split; [done|]. intros t Ht Hq. by apply Hnone in Hq.
Qed.

(** The single [DELETE] of the PostgreSQL revision removes the subtree
    of the item and nothing else. *)
Lemma delete_by_id_exact db id :
  item_exists db id ->
  subtree_removed db id (delete_sidebar_items_where (fun x => si_id x = id) db).
Proof.
  intros Hex.
  pose proof (fun i => doomed_by_id_iff db id i Hex) as HD.
  split; [|split; [|split]].
  - intros x. rewrite delete_items_items, HD. tauto.
  - intros t. rewrite delete_items_tables, HD. tauto.
  - intros c. rewrite delete_items_columns. split; intros [Hc Hall].
    + split; [done|]. intros t Ht Hin. apply Hall; [done|]. by apply HD.
    + split; [done|]. intros t Ht Hin. apply Hall; [done|]. by apply HD.
  - intros r. rewrite delete_items_rows. split; intros [Hc Hall].
    + split; [done|]. intros t Ht Hin. apply Hall; [done|]. by apply HD.
    + split; [done|]. intros t Ht Hin. apply Hall; [done|]. by apply HD.
Qed.

(** The table branch of the MySQL revision: the dynamic tables bound to
    the item are deleted first, then the item. *)
Lemma delete_table_item_exact db id :
  item_exists db id ->
  subtree_removed db id
    (delete_sidebar_items_where (fun x => si_id x = id)
       (delete_dynamic_tables_where (fun t => dt_sidebar_item_id t = id) db)).
Proof.
  intros Hex.
  set (dbA := delete_dynamic_tables_where (fun t => dt_sidebar_item_id t = id) db).
  assert (HD : forall i, i ∈ doomed (fun x => si_id x = id) dbA <->
                         in_subtree (sidebar_items db) id i).
  { intros i. rewrite (doomed_same_items _ db dbA eq_refl).
    by apply doomed_by_id_iff. }
  split; [|split; [|split]].
  - intros x. rewrite delete_items_items, HD. tauto.
  - intros t. rewrite delete_items_tables, HD. unfold dbA.
    rewrite delete_tables_tables. unfold in_subtree. tauto.
  - intros c. rewrite delete_items_columns. unfold dbA at 1.
    rewrite delete_tables_columns. split.
    + intros [[Hc Hfirst] Hrest]. split; [done|]. intros t Ht Hin.
      destruct (decide (dt_sidebar_item_id t = id)) as [Hb|Hb]; [by apply Hfirst|].
      apply Hrest; [|by apply HD]. by apply delete_tables_tables.
    + intros [Hc Hall]. split; [split; [done|]|].
      * intros t Ht Hb. apply Hall; [done|]. by left.
      * intros t Ht Hin. apply delete_tables_tables in Ht as [Ht _].
        apply Hall; [done|]. by apply HD.
  - intros r. rewrite delete_items_rows. unfold dbA at 1.
    rewrite delete_tables_rows. split.
    + intros [[Hc Hfirst] Hrest]. split; [done|]. intros t Ht Hin.
      destruct (decide (dt_sidebar_item_id t = id)) as [Hb|Hb]; [by apply Hfirst|].
      apply Hrest; [|by apply HD]. by apply delete_tables_tables.
    + intros [Hc Hall]. split; [split; [done|]|].
      * intros t Ht Hb. apply Hall; [done|]. by left.
      * intros t Ht Hin. apply delete_tables_tables in Ht as [Ht _].
        apply Hall; [done|]. by apply HD.
Qed.

(** The folder branch of the MySQL revision: the dynamic tables of some
    items below the folder, then the folder's children, then the
    folder. *)
Lemma delete_folder_exact db id (first : list Z) :
  item_exists db id ->
  (forall i, i ∈ first -> descends (sidebar_items db) i id) ->
  subtree_removed db id
    (delete_sidebar_items_where (fun x => si_id x = id)
       (delete_sidebar_items_where (fun x => si_parent_id x = Some id)
          (delete_dynamic_tables_where
             (fun t => dt_sidebar_item_id t ∈ first) db))).
Proof.
  intros Hex Hfirst.
  set (dbA := delete_dynamic_tables_where
                (fun t => dt_sidebar_item_id t ∈ first) db).
  set (dbB := delete_sidebar_items_where (fun x => si_parent_id x = Some id) dbA).
  assert (HC : forall i, i ∈ doomed (fun x => si_parent_id x = Some id) dbA <->
                         descends (sidebar_items db) i id).
  { intros i. rewrite (doomed_same_items _ db dbA eq_refl).
    apply doomed_children_iff. }
  assert (HitemsB : forall x, x ∈ sidebar_items dbB <->
            x ∈ sidebar_items db /\ ~ descends (sidebar_items db) (si_id x) id).
  { intros x. unfold dbB. rewrite delete_items_items, HC. done. }
  assert (HtablesB : forall t, t ∈ dynamic_tables dbB <->
            (t ∈ dynamic_tables db /\ dt_sidebar_item_id t ∉ first) /\
            ~ descends (sidebar_items db) (dt_sidebar_item_id t) id).
  { intros t. unfold dbB. rewrite delete_items_tables, HC. unfold dbA.
    by rewrite delete_tables_tables. }
  assert (H3sound : forall i, i ∈ doomed (fun x => si_id x = id) dbB ->
                              in_subtree (sidebar_items db) id i).
  { intros i Hi. apply doomed_by_id_sound in Hi as [Hi|Hi]; [by left|].
    right. revert Hi. apply descends_mono. intros x Hx. by apply HitemsB in Hx as [? _]. }
  assert (H3seed : ~ descends (sidebar_items db) id id ->
                   id ∈ doomed (fun x => si_id x = id) dbB).
  { intros Hnc. apply doomed_by_id_complete; [|by left].
    apply list_elem_of_fmap in Hex as (x & Hid & Hx).
    apply list_elem_of_fmap. exists x. split; [done|].
    apply HitemsB. split; [done|]. by rewrite <- Hid. }
  assert (H3 : forall i, ~ descends (sidebar_items db) i id ->
                 i ∈ doomed (fun x => si_id x = id) dbB <-> i = id).
  { intros i Hnd. split.
    - intros Hi. by apply H3sound in Hi as [?|?].
    - intros ->. by apply H3seed. }
  split; [|split; [|split]].
  - intros x. rewrite delete_items_items, HitemsB. unfold in_subtree. split.
    + intros [[Hx Hnd] Hn3]. split; [done|]. rewrite (H3 _ Hnd) in Hn3. tauto.
    + intros [Hx Hn]. assert (Hnd : ~ descends (sidebar_items db) (si_id x) id)
        by tauto.
      split; [done|]. rewrite (H3 _ Hnd). tauto.
  - intros t. rewrite delete_items_tables, HtablesB. unfold in_subtree. split.
    + intros [[[Ht Hnf] Hnd] Hn3]. split; [done|]. rewrite (H3 _ Hnd) in Hn3. tauto.
    + intros [Ht Hn].
      assert (Hnd : ~ descends (sidebar_items db) (dt_sidebar_item_id t) id)
        by tauto.
      split; [split; [split; [done|]|done]|].
      * intros Hin. by apply Hnd, Hfirst.
      * rewrite (H3 _ Hnd). tauto.
  - intros c. rewrite delete_items_columns. unfold dbB at 1.
    rewrite delete_items_columns. unfold dbA at 1.
    rewrite delete_tables_columns. split.
    + intros [[[Hc Hone] Htwo] Hthree]. split; [done|]. intros t Ht Hsub.
      destruct (decide (dt_sidebar_item_id t ∈ first)) as [Hf|Hf];
        [by apply Hone|].
      assert (HtA : t ∈ dynamic_tables dbA) by (by apply delete_tables_tables).
      destruct (decide (dt_sidebar_item_id t ∈
                          doomed (fun x => si_parent_id x = Some id) dbA))
        as [Hd|Hd]; [by apply Htwo|].
      apply Hthree.
      * apply HtablesB. split; [done|]. by rewrite <- HC.
      * rewrite HC in Hd. rewrite (H3 _ Hd). by destruct Hsub.
    + intros [Hc Hall]. split; [split; [split; [done|]|]|].
      * intros t Ht Hin. apply Hall; [done|]. right. by apply Hfirst.
      * intros t Ht Hin. apply delete_tables_tables in Ht as [Ht _].
        apply Hall; [done|]. right. by apply HC.
      * intros t Ht Hin. apply HtablesB in Ht as [[Ht _] _].
        apply Hall; [done|]. by apply H3sound.
  - intros r. rewrite delete_items_rows. unfold dbB at 1.
    rewrite delete_items_rows. unfold dbA at 1.
    rewrite delete_tables_rows. split.
    + intros [[[Hc Hone] Htwo] Hthree]. split; [done|]. intros t Ht Hsub.
      destruct (decide (dt_sidebar_item_id t ∈ first)) as [Hf|Hf];
        [by apply Hone|].
      assert (HtA : t ∈ dynamic_tables dbA) by (by apply delete_tables_tables).
      destruct (decide (dt_sidebar_item_id t ∈
                          doomed (fun x => si_parent_id x = Some id) dbA))
        as [Hd|Hd]; [by apply Htwo|].
      apply Hthree.
      * apply HtablesB. split; [done|]. by rewrite <- HC.
      * rewrite HC in Hd. rewrite (H3 _ Hd). by destruct Hsub.
    + intros [Hc Hall]. split; [split; [split; [done|]|]|].
      * intros t Ht Hin. apply Hall; [done|]. right. by apply Hfirst.
      * intros t Ht Hin. apply delete_tables_tables in Ht as [Ht _].
        apply Hall; [done|]. right. by apply HC.
      * intros t Ht Hin. apply HtablesB in Ht as [[Ht _] _].
        apply Hall; [done|]. by apply H3sound.
Qed.

(** What the MySQL revision runs for an item that exists. *)
Lemma MySql_deleteSidebarItem_run id db x :
  select_item db id = Some x ->
  MySql.deleteSidebarItem id db =
    (inr tt,
     match si_item_type x with
     | Folder =>
         delete_sidebar_items_where (fun y => si_id y = id)
           (delete_sidebar_items_where (fun y => si_parent_id y = Some id)
              (delete_dynamic_tables_where
                 (fun t => dt_sidebar_item_id t ∈
                    si_id <$> filter (fun y => si_parent_id y = Some id /\
                                               si_item_type y = Table)
                                (sidebar_items db)) db))
     | Table =>
         delete_sidebar_items_where (fun y => si_id y = id)
           (delete_dynamic_tables_where (fun t => dt_sidebar_item_id t = id) db)
     end).
Proof.
  intros Hsel.
  unfold MySql.deleteSidebarItem, try_catch, bind, query, MySql.or_throw,
    execute, ret.
  rewrite Hsel. destruct (si_item_type x); [|reflexivity].
  set (tableIds := si_id <$> filter (fun y => si_parent_id y = Some id /\
                                               si_item_type y = Table)
                               (sidebar_items db)).
  destruct tableIds as [|i rest] eqn:Hids; [|reflexivity].
  simpl. rewrite (delete_tables_nothing (fun t => dt_sidebar_item_id t ∈ [])).
  - reflexivity.
  - intros t _ Hin. by apply elem_of_nil in Hin.
Qed.

(** X8: for an item that exists, [deleteSidebarItem] succeeds and leaves
    exactly what lay outside the item's subtree: the items that are
    neither the item nor below it, the dynamic tables bound to none of
    these, and the columns and rows of the tables that are left; the
    order of the rows, the sequences and the schema are untouched. *)
Theorem deleteSidebarItem_removes_exactly_subtree id db :
  item_exists db id ->
  exists db',
    Pg.deleteSidebarItem id db = (inr tt, db') /\
    subtree_removed db id db' /\
    pruned db' db.
Proof.
  intros Hex. eexists.
  split; [by apply Pg_deleteSidebarItem_run, item_id_is_integer|]. split.
  - by apply delete_by_id_exact.
  - apply delete_items_pruned.
Qed.

Lemma deleteSidebarItem_removes_exactly_subtree_witness :
  exists db',
    Pg.deleteSidebarItem 2 nested_db = (inr tt, db') /\
    subtree_removed nested_db 2 db'.
Proof.
  destruct (deleteSidebarItem_removes_exactly_subtree 2 nested_db)
    as (db' & Hrun & Hsub & _).
  - apply (bool_decide_unpack _). vm_compute. exact I.
  - by exists db'.
Defined.

(** X9: on an item that exists, the MySQL revision, with its lookup and
    its explicit deletes of the children, ends in the same store as the
    single [DELETE] of the PostgreSQL revision, for a folder as for a
    table item. *)
Theorem deleteSidebarItem_revisions_agree id db :
  item_exists db id ->
  MySql.deleteSidebarItem id db = Pg.deleteSidebarItem id db.
Proof.
  intros Hex. destruct (item_exists_select db id Hex) as [x Hsel].
  rewrite (MySql_deleteSidebarItem_run id db x Hsel).
  rewrite Pg_deleteSidebarItem_run by (by apply item_id_is_integer). f_equal.
  destruct (si_item_type x).
  - apply (subtree_removed_unique db id).
    + eapply pruned_trans; [apply delete_items_pruned|].
      eapply pruned_trans; [apply delete_items_pruned|].
      apply delete_tables_pruned.
    + apply delete_items_pruned.
    + apply delete_folder_exact; [done|].
      intros i Hi. apply list_elem_of_fmap in Hi as (y & -> & Hy).
      apply list_elem_of_filter in Hy as [[Hp _] Hy]. by apply descends_child.
    + by apply delete_by_id_exact.
  - apply (subtree_removed_unique db id).
    + eapply pruned_trans; [apply delete_items_pruned|].
      apply delete_tables_pruned.
    + apply delete_items_pruned.
    + by apply delete_table_item_exact.
    + by apply delete_by_id_exact.
Qed.

Lemma deleteSidebarItem_revisions_agree_witness :
  MySql.deleteSidebarItem 1 nested_db = Pg.deleteSidebarItem 1 nested_db.
Proof.
  apply (deleteSidebarItem_revisions_agree 1 nested_db).
  apply (bool_decide_unpack _). vm_compute. exact I.
Defined.


End Deletion.

(** ** The orders of the listings *)

Section Orders.
Import Store.

Lemma string_compare_sym a b :
  string_compare b a = CompOpp (string_compare a b).
Proof.
  revert b. induction a as [|x a IH]; intros [|y b]; simpl; try done.
  rewrite (Z.compare_antisym x y). destruct (x ?= y); simpl; auto.
Qed.

Lemma string_compare_eq a b : string_compare a b = Eq -> a = b.
Proof.
  revert b. induction a as [|x a IH]; intros [|y b]; simpl; try done.
  destruct (x ?= y) eqn:E; try done. intros Hab.
  apply Z.compare_eq in E. f_equal; auto.
Qed.

Lemma string_compare_lt_trans a b c :
  string_compare a b = Lt -> string_compare b c = Lt -> string_compare a c = Lt.
Proof.
  revert b c. induction a as [|x a IH]; intros [|y b] [|z c]; simpl; try done.
  destruct (x ?= y) eqn:E1, (y ?= z) eqn:E2; try done; intros H1 H2.
  - apply Z.compare_eq in E1. apply Z.compare_eq in E2. subst.
    rewrite Z.compare_refl. eauto.
  - apply Z.compare_eq in E1. subst. by rewrite E2.
  - apply Z.compare_eq in E2. subst. by rewrite E1.
  - replace (x ?= z) with Lt; [done|].
    symmetry. apply Z.compare_lt_iff.
    change (x < y) in E1. change (y < z) in E2. lia.
Qed.

#[local] Instance by_number {A} (f : A -> Z) : WeakOrder (fun x y => f x ?= f y).
Proof.
  split.
  - intros x y. apply Z.compare_antisym.
  - intros x y z H1 H2. apply Z.compare_lt_iff.
    change (f x < f y) in H1. change (f y < f z) in H2. lia.
  - intros x y z H1. apply Z.compare_eq in H1. by rewrite H1.
Qed.

#[local] Instance by_string {A} (f : A -> jsstring) :
  WeakOrder (fun x y => string_compare (f x) (f y)).
Proof.
  split.
  - intros x y. apply string_compare_sym.
  - intros x y z. apply string_compare_lt_trans.
  - intros x y z H1. apply string_compare_eq in H1. by rewrite H1.
Qed.

#[local] Instance by_nulls_first {A} (f : A -> option Z) :
  WeakOrder (fun x y => nulls_first (f x) (f y)).
Proof.
  split.
  - intros x y. destruct (f x), (f y); simpl; try done. apply Z.compare_antisym.
  - intros x y z.
    destruct (f x) as [a|], (f y) as [b|], (f z) as [c|]; simpl; try done.
    intros H1 H2. change (a < b) in H1. change (b < c) in H2.
    change (a < c). lia.
  - intros x y z. destruct (f x), (f y), (f z); simpl; try done.
    intros H1. apply Z.compare_eq in H1. by rewrite H1.
Qed.

#[local] Instance by_is_null_desc {A} (f : A -> option Z) :
  WeakOrder (fun x y => is_null_desc (f x) (f y)).
Proof.
  split.
  - intros x y. by destruct (f x), (f y).
  - intros x y z. by destruct (f x), (f y), (f z).
  - intros x y z. by destruct (f x), (f y), (f z).
Qed.

Lemma cmp_eq_sym {A} (cmp : A -> A -> comparison) `{!WeakOrder cmp} x y :
  cmp x y = Eq -> cmp y x = Eq.
Proof. intros H1. by rewrite cmp_sym, H1. Qed.

Lemma cmp_eq_congr_r {A} (cmp : A -> A -> comparison) `{!WeakOrder cmp} x y z :
  cmp y z = Eq -> cmp x z = cmp x y.
Proof.
  intros H1. apply cmp_eq_sym in H1; [|done].
  rewrite (cmp_sym (cmp := cmp) z x), (cmp_sym (cmp := cmp) y x).
  f_equal. by apply cmp_eq_congr.
Qed.

#[local] Instance by_both {A} (c1 c2 : A -> A -> comparison)
    `{!WeakOrder c1} `{!WeakOrder c2} :
  WeakOrder (fun x y => then_by (c1 x y) (c2 x y)).
Proof.
  split.
  - intros x y. rewrite (cmp_sym (cmp := c1) x y), (cmp_sym (cmp := c2) x y).
    by destruct (c1 x y).
  - intros x y z. unfold then_by.
    destruct (c1 x y) eqn:E1; try done.
    + rewrite (cmp_eq_congr (cmp := c1) x y z E1).
      destruct (c1 y z); try done. apply cmp_lt_trans.
    + destruct (c1 y z) eqn:E2; try done.
      * rewrite (cmp_eq_congr_r c1 x y z E2), E1. done.
      * by rewrite (cmp_lt_trans (cmp := c1) x y z E1 E2).
  - intros x y z. unfold then_by.
    destruct (c1 x y) eqn:E1; try done. intros E2.
    rewrite (cmp_eq_congr (cmp := c1) x y z E1).
    by rewrite (cmp_eq_congr (cmp := c2) x y z E2).
Qed.

Lemma weak_order_total {A} (cmp : A -> A -> comparison) `{!WeakOrder cmp} :
  Total (fun x y => cmp x y <> Gt).
Proof.
  intros x y. destruct (cmp x y) eqn:E; [by left|by left|].
  right. by rewrite cmp_sym, E.
Qed.

Lemma weak_order_trans {A} (cmp : A -> A -> comparison) `{!WeakOrder cmp} :
  Transitive (fun x y => cmp x y <> Gt).
Proof.
  intros x y z H1 H2. destruct (cmp x y) eqn:E1; [| |done].
  - by rewrite (cmp_eq_congr (cmp := cmp) x y z E1).
  - destruct (cmp y z) eqn:E2; [| |done].
    + by rewrite (cmp_eq_congr_r cmp x y z E2), E1.
    + by rewrite (cmp_lt_trans (cmp := cmp) x y z E1 E2).
Qed.

#[local] Instance Pg_item_order_total : Total Pg.item_order.
Proof.
  apply (weak_order_total (fun x y =>
    then_by (nulls_first (si_parent_id x) (si_parent_id y))
      (then_by (si_sort_order x ?= si_sort_order y)
         (string_compare (si_name x) (si_name y))))).
Qed.

#[local] Instance Pg_item_order_trans : Transitive Pg.item_order.
Proof.
  apply (weak_order_trans (fun x y =>
    then_by (nulls_first (si_parent_id x) (si_parent_id y))
      (then_by (si_sort_order x ?= si_sort_order y)
         (string_compare (si_name x) (si_name y))))).
Qed.

#[local] Instance MySql_item_order_total : Total MySql.item_order.
Proof.
  apply (weak_order_total (fun x y =>
    then_by (is_null_desc (si_parent_id x) (si_parent_id y))
      (then_by (si_sort_order x ?= si_sort_order y)
         (string_compare (si_name x) (si_name y))))).
Qed.

#[local] Instance MySql_item_order_trans : Transitive MySql.item_order.
Proof.
  apply (weak_order_trans (fun x y =>
    then_by (is_null_desc (si_parent_id x) (si_parent_id y))
      (then_by (si_sort_order x ?= si_sort_order y)
         (string_compare (si_name x) (si_name y))))).
Qed.

#[local] Instance column_order_total : Total Pg.column_order.
Proof.
  apply (weak_order_total (fun c d =>
    then_by (tc_sort_order c ?= tc_sort_order d)
      (string_compare (tc_column_name c) (tc_column_name d)))).
Qed.

#[local] Instance column_order_trans : Transitive Pg.column_order.
Proof.
  apply (weak_order_trans (fun c d =>
    then_by (tc_sort_order c ?= tc_sort_order d)
      (string_compare (tc_column_name c) (tc_column_name d)))).
Qed.

Lemma StronglySorted_filter {A} (R : relation A) (P : A -> Prop)
    `{forall x, Decision (P x)} (l : list A) :
  StronglySorted R l -> StronglySorted R (filter P l).
Proof.
  induction 1 as [|x l Hl IH Hx]; [constructor|].
  rewrite filter_cons. destruct (decide (P x)); [|done].
  constructor; [done|]. apply Forall_forall. intros y Hy.
  apply list_elem_of_filter in Hy as [_ Hy].
  by apply (proj1 (Forall_forall _ _) Hx).
Qed.

Lemma StronglySorted_weaken {A} (R R' : relation A) (l : list A) :
  (forall x y, x ∈ l -> y ∈ l -> R x y -> R' x y) ->
  StronglySorted R l -> StronglySorted R' l.
Proof.
  intros Himp. induction 1 as [|x l Hl IH Hx]; [constructor|].
  constructor.
  - apply IH. intros y z Hy Hz. apply Himp; apply elem_of_cons; by right.
  - apply Forall_forall. intros y Hy. apply Himp.
    + apply elem_of_cons. by left.
    + apply elem_of_cons. by right.
    + by apply (proj1 (Forall_forall _ _) Hx).
Qed.

(** A listing sorted by an order that, among the items of one parent,
    is the sidebar's order, gives a forest in the sidebar's order. *)
Lemma tree_of_sorted_listing (R : relation SidebarItem)
    `{forall x y, Decision (R x y)} `{!Total R} `{!Transitive R}
    (items : list SidebarItem) :
  (forall x y, si_parent_id x = si_parent_id y -> R x y -> sibling_order x y) ->
  NoDup (si_id <$> items) ->
  DynamicSidebar.in_sidebar_order items
    (DynamicSidebar.buildTree (merge_sort R items)).
Proof.
  intros Hsib Hnd.
  set (flat := merge_sort R items).
  assert (Hperm : flat ≡ₚ items) by apply merge_sort_Permutation.
  assert (Hnd' : NoDup (si_id <$> flat)) by (by rewrite Hperm).
  assert (Hs : StronglySorted R flat) by (by apply StronglySorted_merge_sort).
  assert (Hkids : forall (P : SidebarItem -> Prop) (dec : forall x, Decision (P x)),
            (forall x y, P x -> P y -> si_parent_id x = si_parent_id y) ->
            StronglySorted sibling_order (filter P flat)).
  { intros P dec Hp.
    apply (StronglySorted_weaken R); [|by apply StronglySorted_filter].
    intros x y Hx Hy. apply list_elem_of_filter in Hx as [Hx _].
    apply list_elem_of_filter in Hy as [Hy _]. apply Hsib. by apply Hp. }
  destruct (buildTree_shape flat Hnd') as (m & Hrun & Hm).
  rewrite Hrun. split; simpl.
  - exists (filter (fun x => si_parent_id x = None) flat).
    split; [done|]. split; [by rewrite Hperm|apply Hkids; congruence].
  - intros x Hx.
    exists (filter (fun c => si_parent_id c = Some (si_id x)) flat).
    split; [|split; [by rewrite Hperm|apply Hkids; congruence]].
    rewrite Hm. unfold DynamicSidebar.object_after.
    rewrite (item_with_id_unique flat Hnd' x); [done|by rewrite Hperm].
Qed.

Lemma then_by_Eq c : then_by Eq c = c.
Proof. done. Qed.

(** X10: the sidebar shows siblings in sort order.  For a store whose
    items have distinct ids, [getSidebarItems] of either revision returns
    every item once, and the tree [buildTree] makes of that listing has
    its roots, and under every item its children, ordered by
    [sort_order] and then by name. *)
Theorem sidebar_tree_in_sort_order db :
  NoDup (si_id <$> sidebar_items db) ->
  (exists flat,
     Pg.getSidebarItems db = (inr flat, db) /\
     flat ≡ₚ sidebar_items db /\
     DynamicSidebar.in_sidebar_order (sidebar_items db)
       (DynamicSidebar.buildTree flat)) /\
  (exists flat,
     MySql.getSidebarItems db = (inr flat, db) /\
     flat ≡ₚ sidebar_items db /\
     DynamicSidebar.in_sidebar_order (sidebar_items db)
       (DynamicSidebar.buildTree flat)).
Proof.
  intros Hnd. split.
  - eexists. split; [reflexivity|]. split; [apply merge_sort_Permutation|].
    apply tree_of_sorted_listing; [apply _|apply _| |done].
    intros x y Hp. unfold Pg.item_order, sibling_order. rewrite Hp.
    destruct (si_parent_id y); simpl; [|done]. by rewrite Z.compare_refl.
  - eexists. split; [reflexivity|]. split; [apply merge_sort_Permutation|].
    apply tree_of_sorted_listing; [apply _|apply _| |done].
    intros x y Hp. unfold MySql.item_order, sibling_order. rewrite Hp.
    by destruct (si_parent_id y).
Qed.

Lemma sidebar_tree_in_sort_order_witness :
  exists flat,
    Pg.getSidebarItems nested_db = (inr flat, nested_db) /\
    DynamicSidebar.in_sidebar_order (sidebar_items nested_db)
      (DynamicSidebar.buildTree flat).
Proof.
  destruct (sidebar_tree_in_sort_order nested_db) as [(flat & Hrun & _ & Hord) _].
  - apply (bool_decide_unpack _). vm_compute. exact I.
  - by exists flat.
Defined.

(** X11: a column created by [createTableColumn] is listed.  When the
    insert succeeds, the column has the fields it was given, and
    [getTableColumns] of its table returns it together with the columns
    returned before, ordered by [sort_order] and then by column name; the
    listing of every other table is as it was. *)
Theorem createTableColumn_listed table_id column_name display_name data_type
    is_required default_value sort_order width db c db' :
  Pg.createTableColumn table_id column_name display_name data_type is_required
    default_value sort_order width db = (inr c, db') ->
  exists before after,
    Pg.getTableColumns table_id db = (inr before, db) /\
    Pg.getTableColumns table_id db' = (inr after, db') /\
    after ≡ₚ c :: before /\
    StronglySorted Pg.column_order after /\
    c = mkTableColumn (seq_table_columns db) table_id column_name display_name
          data_type is_required default_value sort_order width
          (clock db) (clock db) /\
    (forall t, t <> table_id ->
       (Pg.getTableColumns t db').1 = (Pg.getTableColumns t db).1).
Proof.
  unfold Pg.createTableColumn, statement, insert_into, insert_table_column.
  destruct (negb _); [done|].
  destruct (_ && _); [done|].
  destruct (bool_decide (table_exists db table_id)); [|done].
  intros [= <- <-]. unfold Pg.getTableColumns, query. simpl.
  eexists _, _. split; [reflexivity|]. split; [reflexivity|].
  repeat match goal with |- _ /\ _ => split end.
  - rewrite !merge_sort_Permutation, filter_app, filter_cons, decide_True by done.
    rewrite filter_nil. by rewrite <- Permutation_cons_append.
  - apply StronglySorted_merge_sort; apply _.
  - done.
  - intros t Hne. rewrite filter_app, filter_cons, decide_False by (simpl; congruence).
    by rewrite filter_nil, app_nil_r.
Qed.

Lemma createTableColumn_listed_witness :
  exists c db' after,
    Pg.createTableColumn 1 (str "Zip Code") (str "Zip Code") TText false None
      0 150 sample_db = (inr c, db') /\
    Pg.getTableColumns 1 db' = (inr after, db') /\
    StronglySorted Pg.column_order after.
Proof.
  eexists _, _.
  destruct (createTableColumn_listed 1 (str "Zip Code") (str "Zip Code") TText
              false None 0 150 sample_db _ _ eq_refl)
    as (before & after & _ & Hafter & _ & Hsorted & _).
  exists after. split; [reflexivity|]. by split.
Defined.


End Orders.

(** ** Updating a sidebar item (lib/database.ts, first revision) *)

Section ItemUpdate.
Import Store.

Lemma update_sidebar_item_written id u db old :
  select_item db id = Some old ->
  item_type_rejected u = false ->
  reference_resolves db (sup_parent_id u) ->
  update_sidebar_item id u db =
    inr (filter (fun x => si_id x = id)
           ((fun x => if bool_decide (si_id x = id)
                      then set_item_fields u (clock db) x else x)
            <$> sidebar_items db),
         mkDB ((fun x => if bool_decide (si_id x = id)
                         then set_item_fields u (clock db) x else x)
               <$> sidebar_items db)
              (dynamic_tables db) (table_columns db) (table_data db)
              (seq_sidebar_items db) (seq_dynamic_tables db)
              (seq_table_columns db) (seq_table_data db)
              (last_insert_id db) (clock db) (schema db)).
Proof.
  intros Hold Hty Hfk. unfold update_sidebar_item.
  rewrite Hty, andb_false_r. rewrite (bool_decide_eq_true_2 _ Hfk).
  by rewrite andb_false_r.
Qed.

Lemma write_item_keeps_id id u now x :
  si_id (if bool_decide (si_id x = id) then set_item_fields u now x else x) =
  si_id x.
Proof. by case_bool_decide. Qed.

Lemma Pg_updateSidebarItem_written id u db old :
  select_item db id = Some old ->
  item_type_rejected u = false ->
  reference_resolves db (sup_parent_id u) ->
  exists db',
    Pg.updateSidebarItem id u db =
      (inr (Some (set_item_fields u (clock db) old)), db') /\
    select_item db' id = Some (set_item_fields u (clock db) old) /\
    sidebar_items db' =
      (fun x => if bool_decide (si_id x = id)
                then set_item_fields u (clock db) x else x)
      <$> sidebar_items db /\
    dynamic_tables db' = dynamic_tables db /\
    table_columns db' = table_columns db /\
    table_data db' = table_data db.
Proof.
  intros Hold Hty Hfk.
  set (write := fun x => if bool_decide (si_id x = id)
                         then set_item_fields u (clock db) x else x).
  assert (Hsel : head (filter (fun x => si_id x = id)
                         (write <$> sidebar_items db)) =
                 Some (set_item_fields u (clock db) old)).
  { rewrite (filter_fmap_stable (fun x => si_id x = id) write).
    - rewrite head_fmap_list. unfold select_item in Hold. rewrite Hold.
      simpl. unfold write. apply select_item_Some in Hold as [_ Hid].
      by rewrite bool_decide_eq_true_2.
    - intros x. unfold write. by rewrite write_item_keeps_id. }
  eexists. split.
  - rewrite Pg_updateSidebarItem_run by (by eapply selected_item_is_integer).
    unfold bind, statement.
    rewrite (update_sidebar_item_written id u db old Hold Hty Hfk).
    fold write. unfold ret. by rewrite Hsel.
  - split; [exact Hsel|done].
Qed.



(** X13: [updateSidebarItem] does not look for cycles.  Making an
    existing item its own parent is accepted; from then on the item is no
    root and no child of any other item in the tree [buildTree] makes of
    any listing of the store, and its parent chain never reaches a
    root. *)
Theorem updateSidebarItem_accepts_own_id_as_parent id db old :
  NoDup (si_id <$> sidebar_items db) ->
  select_item db id = Some old ->
  exists new db',
    Pg.updateSidebarItem id
      (mkSidebarItemUpdates None (Some id) None None None) db =
      (inr (Some new), db') /\
    new ∈ sidebar_items db' /\
    si_id new = id /\ si_parent_id new = Some id /\
    forall flat, flat ≡ₚ sidebar_items db' ->
      (forall n, DynamicSidebar.chain_resolves n flat new = false) /\
      exists itemMap rootItems,
        DynamicSidebar.buildTree flat = (itemMap, rootItems) /\
        (id ∉ rootItems) /\
        (forall i o, itemMap !! i = Some o ->
                     id ∈ DynamicSidebar.children o -> i = id).
Proof.
  intros Hnd Hold.
  assert (Hex : item_exists db id).
  { apply select_item_Some in Hold as [Hx Hid]. unfold item_exists.
    rewrite <- Hid. by apply list_elem_of_fmap_2. }
  destruct (Pg_updateSidebarItem_written id
              (mkSidebarItemUpdates None (Some id) None None None) db old
              Hold eq_refl Hex) as (db' & Hrun & Hsel & Hitems & _).
  set (new := set_item_fields (mkSidebarItemUpdates None (Some id) None None None)
                (clock db) old) in *.
  assert (Hid : si_id new = id) by (by apply select_item_Some in Hold as [_ ?]).
  assert (Hnew : new ∈ sidebar_items db')
    by (by apply select_item_Some in Hsel as [? _]).
  exists new, db'. split; [exact Hrun|]. split; [exact Hnew|].
  split; [exact Hid|]. split; [done|].
  intros flat Hperm.
  assert (Hnd' : NoDup (si_id <$> flat)).
  { rewrite Hperm, Hitems, <- list_fmap_compose.
    erewrite list_fmap_ext; [exact Hnd|].
    intros i x _. simpl. apply write_item_keeps_id. }
  assert (Hin : new ∈ flat) by (by rewrite Hperm).
  assert (Hlook : DynamicSidebar.item_with_id flat id = Some new).
  { rewrite <- Hid. by apply item_with_id_unique. }
  split.
  - intros n. induction n as [|n IH]; [done|]. simpl. by rewrite Hlook.
  - destruct (buildTree_shape flat Hnd') as (m & Hbuild & Hm).
    eexists m, _. split; [exact Hbuild|]. split.
    + intros Hroot. apply list_elem_of_fmap in Hroot as (x & Hx & Hroot).
      apply list_elem_of_filter in Hroot as [Hp Hroot].
      assert (x = new) by (apply (same_id_same_item flat Hnd'); congruence).
      by subst x.
    + intros i o Ho Hkid. rewrite Hm in Ho.
      unfold DynamicSidebar.object_after in Ho.
      destruct (DynamicSidebar.item_with_id flat i) as [x|]; [|done].
      simpl in Ho. injection Ho as <-. simpl in Hkid.
      apply list_elem_of_fmap in Hkid as (c & Hc & Hkid).
      apply list_elem_of_filter in Hkid as [Hp Hkid].
      assert (c = new) by (apply (same_id_same_item flat Hnd'); congruence).
      subst c. simpl in Hp. congruence.
Qed.

Lemma updateSidebarItem_accepts_own_id_as_parent_witness :
  exists new db',
    Pg.updateSidebarItem 1
      (mkSidebarItemUpdates None (Some 1) None None None) sample_db =
      (inr (Some new), db') /\
    si_parent_id new = Some 1.
Proof.
  destruct (updateSidebarItem_accepts_own_id_as_parent 1 sample_db
              (mkSidebarItem 1 (str "Tables") None Folder
                 (Some (str "folder")) 0 0 0))
    as (new & db' & Hrun & _ & _ & Hparent & _).
  - apply (bool_decide_unpack _). vm_compute. exact I.
  - reflexivity.
  - by exists new, db'.
Defined.

End ItemUpdate.

(** ** Seeding and provisioning *)

Section Seeding.
Import Store.

Lemma keeps_ret {A} (a : A) : keeps_items (ret a).
Proof. by intros db. Qed.

Lemma keeps_throw {A} e : keeps_items (throw (A := A) e).
Proof. by intros db. Qed.

Lemma keeps_query {A} (q : DB -> A) : keeps_items (query q).
Proof. by intros db. Qed.

Lemma keeps_or_throw {A} message (r : option A) :
  keeps_items (MySql.or_throw message r).
Proof. destruct r; [apply keeps_ret|apply keeps_throw]. Qed.

Lemma keeps_bind {A B} (c : M A) (k : A -> M B) :
  keeps_items c -> (forall a, keeps_items (k a)) -> keeps_items (bind c k).
Proof.
  intros Hc Hk db. specialize (Hc db). unfold bind.
  destruct (c db) as [[e|a] db1]; simpl in *; [done|].
  specialize (Hk a db1). lia.
Qed.

Lemma keeps_try_catch {A} (c : M A) (h : Error -> M A) :
  keeps_items c -> (forall e, keeps_items (h e)) -> keeps_items (try_catch c h).
Proof.
  intros Hc Hh db. specialize (Hc db). unfold try_catch.
  destruct (c db) as [[e|a] db1]; simpl in *; [|done].
  specialize (Hh e db1). lia.
Qed.

Lemma keeps_statement {A} (q : DB -> SqlError + (A * DB)) :
  statement_keeps_items q -> keeps_items (statement q).
Proof.
  intros Hq db. unfold statement.
  destruct (q db) as [e|[a db1]] eqn:E; simpl; [done|]. by eapply Hq.
Qed.

Lemma keeps_insert_into {A} policy draw (q : DB -> SqlError + (A * DB)) :
  (forall n db, sidebar_items (draw n db) = sidebar_items db) ->
  statement_keeps_items q -> keeps_items (insert_into policy draw q).
Proof.
  intros Hdraw Hq db. unfold insert_into.
  destruct (q db) as [e|[a db1]] eqn:E; simpl; [|by eapply Hq].
  destruct (spends policy e); [|done]. by rewrite Hdraw.
Qed.

Lemma insert_rows_keeps {A} (rows : list (DB -> SqlError + (A * DB))) db db' :
  Forall statement_keeps_items rows ->
  insert_rows rows db = inr db' ->
  (length (sidebar_items db) <= length (sidebar_items db'))%nat.
Proof.
  intros Hrows. revert db. induction Hrows as [|q rows Hq _ IH]; intros db; simpl.
  - by intros [= <-].
  - destruct (q db) as [e|[a db1]] eqn:E; [done|].
    destruct (insert_rows rows db1) as [[e n]|db2] eqn:E2; [done|].
    intros [= <-]. specialize (Hq db a db1 E). specialize (IH db1 E2). lia.
Qed.

Lemma keeps_insert_all {A} policy draw (rows : list (DB -> SqlError + (A * DB))) :
  (forall n db, sidebar_items (draw n db) = sidebar_items db) ->
  Forall statement_keeps_items rows -> keeps_items (insert_all policy draw rows).
Proof.
  intros Hdraw Hrows db. unfold insert_all.
  destruct (insert_rows rows db) as [[e n]|db1] eqn:E; simpl.
  - destruct (spends policy e); [|done]. by rewrite Hdraw.
  - by eapply insert_rows_keeps.
Qed.

Lemma insert_sidebar_item_keeps name parent_id item_type icon sort_order :
  statement_keeps_items
    (insert_sidebar_item name parent_id item_type icon sort_order).
Proof.
  intros db a db'. unfold insert_sidebar_item.
  repeat case_match; try done. intros [= <- <-]. simpl.
  rewrite length_app. lia.
Qed.

Lemma insert_dynamic_table_keeps i tn dn d :
  statement_keeps_items (insert_dynamic_table i tn dn d).
Proof.
  intros db a db' Hins. by rewrite (insert_dynamic_table_items _ _ _ _ _ _ _ Hins).
Qed.

Lemma insert_table_column_keeps t cn dn ty req dv so w :
  statement_keeps_items (insert_table_column t cn dn ty req dv so w).
Proof.
  intros db a db'. unfold insert_table_column.
  repeat case_match; try done. by intros [= <- <-].
Qed.

Lemma insert_table_data_keeps t m :
  statement_keeps_items (insert_table_data t m).
Proof.
  intros db a db'. unfold insert_table_data.
  destruct (bool_decide _); [|done]. by intros [= <- <-].
Qed.

Lemma insert_sample_columns_keep t :
  Forall statement_keeps_items (insert_sample_columns t).
Proof. repeat constructor; apply insert_table_column_keeps. Qed.

Lemma insert_sample_rows_keep t :
  Forall statement_keeps_items (insert_sample_rows t).
Proof. repeat constructor; apply insert_table_data_keeps. Qed.

Ltac keeps_items :=
  repeat first
    [ apply keeps_ret | apply keeps_throw | apply keeps_query
    | apply keeps_or_throw
    | apply keeps_bind | apply keeps_try_catch | apply keeps_statement
    | apply keeps_insert_into; [intros; reflexivity|]
    | apply keeps_insert_all; [intros; reflexivity|]
    | apply insert_sample_columns_keep | apply insert_sample_rows_keep
    | apply insert_sidebar_item_keeps | apply insert_dynamic_table_keeps
    | apply insert_table_column_keeps | apply insert_table_data_keeps
    | intro ].

(** Once its first insert has stored its row, a computation that removes
    no item leaves at least the items that insert left. *)
Lemma first_insert_stays {A B} policy draw (q : DB -> SqlError + (A * DB))
    (k : A -> M B) (h : Error -> M B) db a db1 :
  q db = inr (a, db1) ->
  (forall a, keeps_items (k a)) -> (forall e, keeps_items (h e)) ->
  (length (sidebar_items db1) <=
   length (sidebar_items
             (try_catch (bind (insert_into policy draw q) k) h db).2))%nat.
Proof.
  intros Hq Hk Hh. unfold try_catch, bind, insert_into. rewrite Hq.
  specialize (Hk a db1). destruct (k a db1) as [[e|b] db2]; simpl in *; [|done].
  specialize (Hh e db2). lia.
Qed.

Lemma insert_root_folder db :
  insert_sidebar_item (str "Tables") None (str "folder")
    (Some (str "folder")) 0 db =
  inr (mkSidebarItem (seq_sidebar_items db) (str "Tables") None Folder
         (Some (str "folder")) 0 (clock db) (clock db),
       mkDB (sidebar_items db ++
               [mkSidebarItem (seq_sidebar_items db) (str "Tables") None Folder
                  (Some (str "folder")) 0 (clock db) (clock db)])
            (dynamic_tables db) (table_columns db) (table_data db)
            (seq_sidebar_items db + 1) (seq_dynamic_tables db)
            (seq_table_columns db) (seq_table_data db)
            (seq_sidebar_items db) (clock db) (schema db)).
Proof. reflexivity. Qed.

Lemma MySql_seed_leaves_items db :
  sidebar_items (MySql.seedInitialData db).2 <> [].
Proof.
  intros Hnil.
  assert (Hlen : (length (sidebar_items db ++
                            [mkSidebarItem (seq_sidebar_items db) (str "Tables")
                               None Folder (Some (str "folder")) 0 (clock db)
                               (clock db)]) <=
                  length (sidebar_items (MySql.seedInitialData db).2))%nat).
  { unfold MySql.seedInitialData.
    eapply (first_insert_stays _ _ _ _ _ db _ _ (insert_root_folder db));
      keeps_items. }
  rewrite Hnil, length_app in Hlen. simpl in Hlen. lia.
Qed.

Lemma MySql_initializeTables_nonempty db :
  sidebar_items db <> [] -> MySql.initializeTables db = (inr tt, db).
Proof.
  unfold MySql.initializeTables, try_catch, bind, query, ret.
  by destruct (sidebar_items db).
Qed.

Lemma MySql_initializeTables_leaves_items db :
  sidebar_items (MySql.initializeTables db).2 <> [].
Proof.
  destruct (sidebar_items db) as [|x l] eqn:Hitems.
  - pose proof (MySql_seed_leaves_items db) as Hseed.
    unfold MySql.initializeTables, try_catch, bind, query. rewrite Hitems. simpl.
    by destruct (MySql.seedInitialData db) as [[e|[]] db1].
  - rewrite MySql_initializeTables_nonempty by (by rewrite Hitems).
    simpl. by rewrite Hitems.
Qed.

(** X14: seeding.  The PostgreSQL revision of [initializeTables] never
    seeds: the count it reads is the driver's decimal string, which is
    strictly equal to no number, so that on every store, empty or not,
    the call succeeds and changes nothing, and [seedInitialData] is not
    reached; a folder created through [POST /api/sidebar] on an empty
    store is then the only item of the store, with the sort order 1 and
    no sample table beside it.  The MySQL revision, whose count is a
    number, seeds an empty store only: on a store that holds a sidebar
    item it succeeds and changes nothing, and whatever store a first call
    starts from and however it ends, a second call succeeds and changes
    nothing. *)
Theorem initializeTables_seeds_once db :
  Pg.initializeTables db = (inr tt, db) /\
  (forall (rt : JsRuntime) request name,
     sidebar_items db = [] ->
     req_name request = Some name -> name <> [] -> fits 255 name = true ->
     from_option (fits 50) true (req_icon request) = true ->
     req_item_type request = Some (str "folder") ->
     bound_parent (req_parent_id request) = None ->
     exists newItem db',
       SidebarRoute.POST (H0 := Pg.service) request db =
         (Json200 newItem, db') /\
       sidebar_items db' = [newItem] /\
       si_name newItem = name /\ si_parent_id newItem = None /\
       si_sort_order newItem = 1 /\
       dynamic_tables db' = dynamic_tables db /\
       table_columns db' = table_columns db /\
       table_data db' = table_data db) /\
  (sidebar_items db <> [] -> MySql.initializeTables db = (inr tt, db)) /\
  MySql.initializeTables (MySql.initializeTables db).2 =
    (inr tt, (MySql.initializeTables db).2).
Proof.
  split; [|split; [|split]].
  - apply Pg_initializeTables_nothing.
  - intros rt request name Hempty Hname Hne Hfits Hicon Hty Hroot.
    assert (Hn : nextSortOrder (sidebar_items db) (req_parent_id request) = 1).
    { rewrite Hempty. reflexivity. }
    unfold SidebarRoute.POST, respond, bind. simpl.
    rewrite Hname, Hty, !blank_false by (done || (vm_compute; discriminate)).
    simpl. unfold Pg.getSidebarItems, query, Pg.createSidebarItem, insert_into.
    rewrite (nextSortOrder_permutation _ (sidebar_items db))
      by apply merge_sort_Permutation.
    rewrite Hn, Hroot.
    rewrite (insert_sidebar_item_accepted name None (str "folder") Folder
               (req_icon request) 1 db Hfits Hicon)
      by (done || (unfold int4; lia)).
    simpl. eexists _, _. split; [reflexivity|]. simpl. rewrite Hempty.
    by repeat split.
  - apply MySql_initializeTables_nonempty.
  - apply MySql_initializeTables_nonempty, MySql_initializeTables_leaves_items.
Qed.

End Seeding.

(** ** Tables and columns through the routes *)

Section TableRoutes.
Import Store.

Lemma insert_dynamic_table_row i tn dn d db t db' :
  insert_dynamic_table i tn dn d db = inr (t, db') ->
  t = mkDynamicTable (seq_dynamic_tables db) i tn dn d (clock db) (clock db) /\
  dynamic_tables db' = dynamic_tables db ++ [t] /\
  sidebar_items db' = sidebar_items db /\
  table_columns db' = table_columns db /\
  table_data db' = table_data db /\
  seq_table_columns db' = seq_table_columns db /\
  schema db' = schema db.
Proof.
  unfold insert_dynamic_table. repeat case_match; try done.
  by intros [= <- <-].
Qed.

Lemma head_app_default {A} (l : list A) (x : A) :
  head (l ++ [x]) = Some (default x (head l)).
Proof. by destruct l. Qed.

(** X15: a dynamic table created through [POST /api/tables/create] is
    stored under the names as they were sent, bound to the sidebar item
    that was named.  From then on [GET /api/tables/[id]] for that item
    answers with a table bound to the item, and with the new table when
    the item had none before. *)
Theorem created_table_lookup body i table_name display_name db t db' :
  treq_sidebar_item_id body = Some i -> i <> 0 ->
  treq_table_name body = Some table_name -> table_name <> [] ->
  treq_display_name body = Some display_name -> display_name <> [] ->
  TableCreateRoute.POST body db = (Reply200 t, db') ->
  dt_sidebar_item_id t = i /\
  dt_table_name t = table_name /\
  dt_display_name t = display_name /\
  dt_description t = treq_description body /\
  dynamic_tables db' = dynamic_tables db ++ [t] /\
  (exists served,
     TableRoute.GET (Some i) db' = (Reply200 served, db') /\
     served ∈ dynamic_tables db' /\ dt_sidebar_item_id served = i) /\
  (select_table_by_sidebar_id db i = None ->
   TableRoute.GET (Some i) db' = (Reply200 t, db')).
Proof.
  intros Hi Hnz Htn Htn' Hdn Hdn'.
  unfold TableCreateRoute.POST, reply, bind.
  rewrite Hi, Htn, Hdn, !blank_false by done. simpl.
  rewrite (proj2 (Z.eqb_neq i 0) Hnz). simpl.
  unfold Pg.createDynamicTable, statement, insert_into.
  destruct (insert_dynamic_table i table_name display_name
              (treq_description body) db) as [e|[t1 db1]] eqn:Hins; [done|].
  simpl. intros [= <- <-].
  apply insert_dynamic_table_row in Hins as (Ht & Htables & _).
  assert (Hget : TableRoute.GET (Some i) db1 =
            (Reply200 (default t1 (select_table_by_sidebar_id db i)), db1)).
  { rewrite TableRoute_GET_run.
    2:{ replace i with (dt_sidebar_item_id t1) by (by rewrite Ht).
        apply table_binding_is_integer. rewrite Htables. apply elem_of_app.
        right. apply elem_of_cons. by left. }
    unfold select_table_by_sidebar_id.
    rewrite Htables, filter_app, filter_cons, decide_True by (by rewrite Ht).
    rewrite filter_nil, head_app_default. done. }
  repeat match goal with |- _ /\ _ => split end; try (by rewrite Ht).
  - exact Htables.
  - eexists. split; [exact Hget|].
    destruct (select_table_by_sidebar_id db i) as [t0|] eqn:Hold; simpl.
    + apply head_Some_elem_of, list_elem_of_filter in Hold as [Hb Hin].
      split; [|done]. rewrite Htables. apply elem_of_app. by left.
    + split; [|by rewrite Ht]. rewrite Htables. apply elem_of_app. right.
      apply elem_of_cons. by left.
  - intros Hnone. by rewrite Hget, Hnone.
Qed.

Lemma created_table_lookup_witness :
  exists t db' served,
    TableCreateRoute.POST
      (mkTableRequest (Some 2) (Some (str "Another Table"))
         (Some (str "Another")) None) sample_db = (Reply200 t, db') /\
    dt_table_name t = str "Another Table" /\
    TableRoute.GET (Some 2) db' = (Reply200 served, db').
Proof.
  eexists _, _.
  destruct (created_table_lookup
              (mkTableRequest (Some 2) (Some (str "Another Table"))
                 (Some (str "Another")) None)
              2 (str "Another Table") (str "Another") sample_db _ _
              eq_refl ltac:(discriminate) eq_refl ltac:(discriminate)
              eq_refl ltac:(discriminate) eq_refl)
    as (_ & Hname & _ & _ & _ & (served & Hget & _) & _).
  exists served. split; [reflexivity|]. split; [exact Hname|exact Hget].
Defined.

Lemma no_column_taken db row :
  sequences_ahead db -> tc_id row = seq_table_columns db ->
  column_name_taken (table_columns db) row <->
  tc_column_name row ∈
    tc_column_name <$>
      filter (fun c => tc_table_id c = tc_table_id row) (table_columns db).
Proof.
  intros (_ & _ & Hcols & _) Hid. unfold column_name_taken.
  rewrite Exists_exists. split.
  - intros (d & Hd & _ & Ht & Hn). rewrite <- Hn.
    apply list_elem_of_fmap_2. by apply list_elem_of_filter.
  - intros Hin. apply list_elem_of_fmap in Hin as (d & Hn & Hd).
    apply list_elem_of_filter in Hd as [Ht Hd]. exists d.
    split; [done|]. split; [|done].
    rewrite Hid. apply (proj1 (Forall_forall _ _) Hcols) in Hd. lia.
Qed.

(** What [POST] stores when the table is found, the body names the
    column and its type, and the name is free. *)
Lemma ColumnsRoute_POST_appends sidebarItemId body db t name data_type ty :
  sequences_ahead db ->
  select_table_by_sidebar_id db sidebarItemId = Some t ->
  creq_name body = Some name ->
  creq_data_type body = Some data_type ->
  parse_data_type data_type = Some ty ->
  unique_column_name (schema db) = false \/
  name ∉ tc_column_name <$>
           filter (fun c => tc_table_id c = dt_id t) (table_columns db) ->
  ColumnsRoute.POST (Some sidebarItemId) body db =
    (Reply200
       (mkTableColumn (seq_table_columns db) (dt_id t) name name ty
          (default false (creq_is_required body))
          (if truthy (JString <$> creq_default_value body)
           then creq_default_value body else None)
          (default 0 (creq_sort_order body)) 150 (clock db) (clock db)),
     mkDB (sidebar_items db) (dynamic_tables db)
          (table_columns db ++
             [mkTableColumn (seq_table_columns db) (dt_id t) name name ty
                (default false (creq_is_required body))
                (if truthy (JString <$> creq_default_value body)
                 then creq_default_value body else None)
                (default 0 (creq_sort_order body)) 150 (clock db) (clock db)])
          (table_data db)
          (seq_sidebar_items db) (seq_dynamic_tables db)
          (seq_table_columns db + 1) (seq_table_data db)
          (seq_table_columns db) (clock db) (schema db)).
Proof.
  intros Hseq Ht Hname Hdt Hty Hfree.
  assert (Hex : table_exists db (dt_id t)).
  { apply head_Some_elem_of, list_elem_of_filter in Ht as [_ Ht].
    by apply list_elem_of_fmap_2. }
  set (row := mkTableColumn (seq_table_columns db) (dt_id t) name name ty
                (default false (creq_is_required body))
                (if truthy (JString <$> creq_default_value body)
                 then creq_default_value body else None)
                (default 0 (creq_sort_order body)) 150 (clock db) (clock db)).
  assert (Hpass : unique_column_name (schema db) &&
                  bool_decide (column_name_taken (table_columns db) row)
                  = false).
  { destruct Hfree as [->|Hfree]; [done|].
    rewrite bool_decide_eq_false_2, andb_false_r; [done|].
    by rewrite (no_column_taken db row Hseq eq_refl). }
  unfold ColumnsRoute.POST.
  rewrite route_path_id by (by eapply bound_item_is_integer).
  unfold reply, bind, Pg.getDynamicTableBySidebarId, query.
  rewrite Ht, Hname, Hdt, Hty.
  unfold Pg.createTableColumn, insert_into, insert_table_column. fold row.
  rewrite (bool_decide_eq_true_2 (int4 (dt_id t) \/ _)) by (by right). simpl.
  by rewrite Hpass, bool_decide_eq_true_2.
Qed.

(** X16: [POST /api/tables/[id]/columns].  A path that gives [NaN] or a
    number that is no [INTEGER] is answered 500.  With no dynamic table
    bound to the sidebar item the answer is 404 and nothing is stored.
    With one, a body that names the column (within [VARCHAR(255)]) and
    one of the seven types gives a column of that table whose
    [column_name] and [display_name] are both the name as sent (no
    normalisation), whose width is 150, and whose [default_value] is
    [NULL] when the body has none or the empty string; the column is
    appended and [GET] on the same path lists it.  A name the table
    already uses is refused by the [UNIQUE] constraint where the schema
    has it: the answer is 500 and no row is stored, but the id drawn for
    the column is spent, so that the next column gets the id after it. *)
Theorem columns_POST_stores_name_as_sent sidebarItemId body db :
  sequences_ahead db ->
  ColumnsRoute.POST None body db = (Reply500, db) /\
  (~ is_integer db sidebarItemId ->
   ColumnsRoute.POST (Some sidebarItemId) body db = (Reply500, db)) /\
  (int4 sidebarItemId ->
   select_table_by_sidebar_id db sidebarItemId = None ->
   ColumnsRoute.POST (Some sidebarItemId) body db = (Reply404, db)) /\
  (forall t name data_type ty,
     select_table_by_sidebar_id db sidebarItemId = Some t ->
     creq_name body = Some name -> fits 255 name = true ->
     creq_data_type body = Some data_type ->
     parse_data_type data_type = Some ty ->
     int4 (default 0 (creq_sort_order body)) ->
     let taken :=
       name ∈ tc_column_name <$>
                filter (fun c => tc_table_id c = dt_id t) (table_columns db) in
     (unique_column_name (schema db) = true -> taken ->
      ColumnsRoute.POST (Some sidebarItemId) body db =
        (Reply500, draw_table_column_ids 1 db)) /\
     (unique_column_name (schema db) = false \/ ~ taken ->
      exists c db' listed,
        ColumnsRoute.POST (Some sidebarItemId) body db = (Reply200 c, db') /\
        tc_id c = seq_table_columns db /\
        tc_table_id c = dt_id t /\
        tc_column_name c = name /\ tc_display_name c = name /\
        tc_data_type c = ty /\ tc_width c = 150 /\
        tc_is_required c = default false (creq_is_required body) /\
        tc_default_value c =
          (if blank (creq_default_value body) then None
           else creq_default_value body) /\
        tc_sort_order c = default 0 (creq_sort_order body) /\
        table_columns db' = table_columns db ++ [c] /\
        ColumnsRoute.GET (Some sidebarItemId) db' = (Reply200 listed, db') /\
        c ∈ listed)).
Proof.
  intros Hseq. split; [reflexivity|]. split; [|split].
  - intros Hout. unfold ColumnsRoute.POST. by apply route_path_refused.
  - intros Hint Hnone. unfold ColumnsRoute.POST.
    rewrite route_path_id by (by left).
    unfold reply, bind, Pg.getDynamicTableBySidebarId, query.
    by rewrite Hnone.
  - intros t name data_type ty Ht Hname _ Hdt Hty _ taken.
    assert (Hex : table_exists db (dt_id t)).
    { apply head_Some_elem_of, list_elem_of_filter in Ht as [_ Ht].
      by apply list_elem_of_fmap_2. }
    assert (Hid : is_integer db sidebarItemId)
      by (by eapply bound_item_is_integer).
    set (row := mkTableColumn (seq_table_columns db) (dt_id t) name name ty
                  (default false (creq_is_required body))
                  (if truthy (JString <$> creq_default_value body)
                   then creq_default_value body else None)
                  (default 0 (creq_sort_order body)) 150 (clock db) (clock db)).
    assert (Htaken : column_name_taken (table_columns db) row <-> taken)
      by (by apply no_column_taken).
    split.
    + intros Hu Hin. unfold ColumnsRoute.POST. rewrite route_path_id by done.
      unfold reply, bind, Pg.getDynamicTableBySidebarId, query.
      rewrite Ht, Hname, Hdt, Hty.
      unfold Pg.createTableColumn, insert_into, insert_table_column. fold row.
      rewrite (bool_decide_eq_true_2 (int4 (dt_id t) \/ _)) by (by right). simpl.
      rewrite Hu, bool_decide_eq_true_2 by (by apply Htaken). done.
    + intros Hfree.
      exists row. eexists. eexists.
      pose proof (ColumnsRoute_POST_appends sidebarItemId body db t name
                    data_type ty Hseq Ht Hname Hdt Hty Hfree) as Hpost.
      fold row in Hpost.
      split; [exact Hpost|].
      repeat match goal with |- _ /\ _ => split end; try done.
      * simpl. unfold blank. by destruct (truthy _).
      * rewrite ColumnsRoute_GET_run.
        2:{ eapply bound_item_is_integer. exact Ht. }
        change (select_table_by_sidebar_id _ sidebarItemId)
          with (select_table_by_sidebar_id db sidebarItemId).
        rewrite Ht. simpl. reflexivity.
      * rewrite merge_sort_Permutation. apply list_elem_of_filter.
        split; [done|]. apply elem_of_app. right. apply elem_of_cons. by left.
Qed.

Lemma columns_POST_stores_name_as_sent_witness :
  (exists c db',
     ColumnsRoute.POST (Some 2)
       (mkColumnRequest (Some (str "Zip Code")) (Some (str "text")) None
          (Some []) None) sample_db = (Reply200 c, db') /\
     tc_column_name c = str "Zip Code" /\ tc_default_value c = None) /\
  ColumnsRoute.POST (Some 2)
    (mkColumnRequest (Some (str "a")) (Some (str "text")) None None None)
    sample_db = (Reply500, draw_table_column_ids 1 sample_db).
Proof.
  split.
  - destruct (columns_POST_stores_name_as_sent 2
                (mkColumnRequest (Some (str "Zip Code")) (Some (str "text")) None
                   (Some []) None) sample_db sample_db_sequences_ahead)
      as (_ & _ & _ & Hsome).
    destruct (Hsome (mkDynamicTable 1 2 (str "customers") (str "Customers")
                       None 0 0)
                (str "Zip Code") (str "text") TText eq_refl eq_refl eq_refl
                eq_refl eq_refl)
      as [_ Hok].
    { apply (bool_decide_unpack _). vm_compute. exact I. }
    destruct Hok
      as (c & db' & listed & Hrun & _ & _ & Hname & _ & _ & _ & _ & Hdv & _).
    + right. apply (bool_decide_unpack _). vm_compute. exact I.
    + exists c, db'. split; [exact Hrun|]. split; [exact Hname|exact Hdv].
  - destruct (columns_POST_stores_name_as_sent 2
                (mkColumnRequest (Some (str "a")) (Some (str "text")) None
                   None None) sample_db sample_db_sequences_ahead)
      as (_ & _ & _ & Hsome).
    destruct (Hsome (mkDynamicTable 1 2 (str "customers") (str "Customers")
                       None 0 0)
                (str "a") (str "text") TText eq_refl eq_refl eq_refl
                eq_refl eq_refl)
      as [Hrefused _].
    { apply (bool_decide_unpack _). vm_compute. exact I. }
    apply Hrefused; [reflexivity|].
    apply (bool_decide_unpack _). vm_compute. exact I.
Defined.

Lemma merge_sort_nil {A} (R : relation A) `{forall x y, Decision (R x y)} :
  merge_sort R [] = [].
Proof. reflexivity. Qed.

(** X17: a table item created through [POST /api/sidebar] can be opened
    at once.  On a seeded store whose references resolve and whose
    sequences are ahead, if the handler of app/api/sidebar/route.ts
    answers with the new item for a body of type 'table', then
    [GET /api/tables/[id]] for the new item answers with a dynamic table
    whose [table_name] is the normalised name, whose [display_name] is
    the name and whose description is [`Dynamic table: ${name}`], and
    [GET /api/tables/[id]/columns] answers with the empty list. *)
Theorem POST_table_item_is_served (rt : JsRuntime) request name db newItem db' :
  sidebar_items db <> [] ->
  foreign_keys_hold db -> sequences_ahead db ->
  req_name request = Some name -> name <> [] ->
  req_item_type request = Some (str "table") ->
  SidebarRoute.POST (H0 := Pg.service) request db = (Json200 newItem, db') ->
  exists t,
    TableRoute.GET (Some (si_id newItem)) db' = (Reply200 t, db') /\
    dt_table_name t = normalize name /\
    dt_display_name t = name /\
    dt_description t = Some (description_of name) /\
    ColumnsRoute.GET (Some (si_id newItem)) db' = (Reply200 [], db').
Proof.
  intros Hne (_ & Hfk_tables & Hfk_cols & _) (Hs_items & Hs_tables & _)
    Hname Hname' Hty.
  unfold SidebarRoute.POST, respond, bind. simpl.
  rewrite Hname, Hty.
  rewrite !blank_false by (done || (vm_compute; discriminate)). simpl.
  unfold Pg.getSidebarItems, query, Pg.createSidebarItem, statement, insert_into.
  destruct (insert_sidebar_item _ _ _ _ _ db) as [e|[x db1]] eqn:Hitem; [done|].
  unfold Pg.createDynamicTable, statement, insert_into.
  destruct (insert_dynamic_table (si_id x) (normalize name) name
              (Some (description_of name)) db1) as [e|[t db2]] eqn:Htable;
    [done|].
  simpl. intros [= <- <-].
  apply insert_dynamic_table_row in Htable
    as (Ht & Htables & _ & Hcols & _).
  assert (Hx : si_id x = seq_sidebar_items db /\
               dynamic_tables db1 = dynamic_tables db /\
               table_columns db1 = table_columns db /\
               seq_dynamic_tables db1 = seq_dynamic_tables db).
  { revert Hitem. unfold insert_sidebar_item. repeat case_match; try done.
    by intros [= <- <-]. }
  destruct Hx as (Hid & Htables1 & Hcols1 & Hseq1).
  assert (Hnone : filter (fun t' => dt_sidebar_item_id t' = si_id x)
                    (dynamic_tables db) = []).
  { apply filter_none, Forall_forall. intros t' Ht' Hb.
    apply (proj1 (Forall_forall _ _) Hfk_tables) in Ht'.
    apply list_elem_of_fmap in Ht' as (y & Hy & Hin).
    apply (proj1 (Forall_forall _ _) Hs_items) in Hin. lia. }
  assert (Hget : select_table_by_sidebar_id db2 (si_id x) = Some t).
  { unfold select_table_by_sidebar_id.
    rewrite Htables, Htables1, filter_app, Hnone, filter_cons, decide_True
      by (by rewrite Ht).
    done. }
  exists t. split; [|split; [by rewrite Ht|split; [by rewrite Ht|split;
                                                    [by rewrite Ht|]]]].
  - rewrite TableRoute_GET_run by (by eapply bound_item_is_integer).
    by rewrite Hget.
  - rewrite ColumnsRoute_GET_run by (by eapply bound_item_is_integer).
    rewrite Hget.
    rewrite Hcols, Hcols1, filter_none; [done|].
    apply Forall_forall. intros c Hc Hb.
    apply (proj1 (Forall_forall _ _) Hfk_cols) in Hc.
    apply list_elem_of_fmap in Hc as (t' & Heq & Hin).
    apply (proj1 (Forall_forall _ _) Hs_tables) in Hin.
    rewrite Ht in Hb. simpl in Hb. lia.
Qed.

Lemma POST_table_item_is_served_witness :
  exists newItem db' t,
    SidebarRoute.POST (H := ascii_runtime) (H0 := Pg.service)
      (mkSidebarRequest (Some (str "Order Lines")) (ParentOf 1)
         (Some (str "table")) None) sample_db = (Json200 newItem, db') /\
    TableRoute.GET (Some (si_id newItem)) db' = (Reply200 t, db') /\
    dt_table_name t = str "order_lines".
Proof.
  let out := eval vm_compute in
    (SidebarRoute.POST (H := ascii_runtime) (H0 := Pg.service)
       (mkSidebarRequest (Some (str "Order Lines")) (ParentOf 1)
          (Some (str "table")) None) sample_db) in
  match out with
  | (Json200 ?i, ?d) =>
      exists i, d;
      destruct (POST_table_item_is_served ascii_runtime
                  (mkSidebarRequest (Some (str "Order Lines")) (ParentOf 1)
                     (Some (str "table")) None)
                  (str "Order Lines") sample_db i d)
        as (t & Hget & Hname & _);
      [ discriminate
      | vm_compute; repeat split; repeat constructor
      | exact sample_db_sequences_ahead
      | reflexivity
      | discriminate
      | reflexivity
      | vm_compute; reflexivity
      | exists t; split; [vm_compute; reflexivity|];
        split; [exact Hget|exact Hname] ]
  end.
Defined.



End TableRoutes.

(** ** The [sql] tag of the third revision (lib/database.ts) *)

Section SqlTag.

Lemma sql_loop_shape values rest query params :
  length values = length rest ->
  sql_loop values rest query params =
    (query ++ concat ((fun s => str "?" ++ s) <$>
                        filter (fun s : jsstring => s <> []) rest),
     params ++ omap id values).
Proof.
  revert rest query params.
  induction values as [|v values IH]; intros [|s rest] query params Hlen;
    simpl in Hlen; try lia.
  - simpl. by rewrite !app_nil_r.
  - assert (Hrest : length values = length rest) by lia.
    simpl. destruct s as [|ch s'].
    + rewrite (IH rest _ _ Hrest), filter_cons, decide_False by (by intros ?).
      f_equal. destruct v; simpl; [by rewrite <- app_assoc|done].
    + rewrite (IH rest _ _ Hrest), filter_cons, decide_True by done.
      rewrite fmap_cons. simpl. rewrite <- !app_assoc. f_equal.
      destruct v; simpl; [by rewrite <- app_assoc|done].
Qed.

Lemma omap_id_length {A} (l : list (option A)) :
  (length (omap id l) <= length l)%nat /\
  (length (omap id l) = length l <-> Forall is_Some l).
Proof.
  induction l as [|[x|] l [IHle IHeq]]; csimpl.
  - split; [lia|]. split; [constructor|done].
  - split; [lia|]. split.
    + intros Hlen. constructor; [by eexists|]. apply IHeq. lia.
    + intros Hall. apply Forall_cons in Hall as [_ Hall].
      apply IHeq in Hall. lia.
  - split; [lia|]. split; [lia|].
    intros Hall. apply Forall_cons in Hall as [[x Hx] _]. done.
Qed.

Lemma filter_length_all {A} (P : A -> Prop) `{forall x, Decision (P x)}
    (l : list A) :
  (length (filter P l) <= length l)%nat /\
  (length (filter P l) = length l <-> Forall P l).
Proof.
  induction l as [|x l [IHle IHeq]]; simpl.
  - split; [lia|]. split; [constructor|done].
  - rewrite filter_cons. destruct (decide (P x)) as [Hx|Hx]; simpl.
    + split; [lia|]. split.
      * intros Hlen. constructor; [done|]. apply IHeq. lia.
      * intros Hall. apply Forall_cons in Hall as [_ Hall].
        apply IHeq in Hall. lia.
    + split; [lia|]. split; [lia|].
      intros Hall. by apply Forall_cons in Hall as [? _].
Qed.

(** X18: what the [sql] tag makes of a template literal with as many
    values as chunks after the first.  The query is the first chunk
    followed, for every later chunk that is not empty, by a placeholder
    and the chunk; the parameters are the values that are not
    [undefined], in order.  So when no later chunk is empty, there are as
    many parameters as placeholders exactly when no value is
    [undefined]; and when no value is [undefined], exactly when no later
    chunk is empty (a template that ends in an interpolation loses the
    placeholder of its last value). *)
Theorem sql_template_placeholders first rest values :
  length values = length rest ->
  exists query params,
    sql_template (first :: rest) values = (query, params) /\
    query = first ++ concat ((fun s => str "?" ++ s) <$>
                               filter (fun s : jsstring => s <> []) rest) /\
    params = omap id values /\
    (Forall (fun s : jsstring => s <> []) rest ->
     length params = length (filter (fun s : jsstring => s <> []) rest) <->
     Forall is_Some values) /\
    (Forall is_Some values ->
     length params = length (filter (fun s : jsstring => s <> []) rest) <->
     Forall (fun s : jsstring => s <> []) rest).
Proof.
  intros Hlen. eexists _, _. split; [|split; [reflexivity|split; [reflexivity|]]].
  - unfold sql_template. by rewrite (sql_loop_shape values rest first [] Hlen).
  - split.
    + intros Hrest.
      rewrite (proj2 (proj2 (filter_length_all _ rest)) Hrest), <- Hlen.
      apply omap_id_length.
    + intros Hvalues.
      rewrite (proj2 (proj2 (omap_id_length values)) Hvalues), Hlen.
      split.
      * intros Heq. by apply (proj2 (filter_length_all _ rest)).
      * intros Hall. symmetry. by apply (proj2 (filter_length_all _ rest)).
Qed.

Lemma sql_template_placeholders_witness :
  exists query params,
    sql_template [str "SELECT * FROM t WHERE a = "; str " AND b = "; []]
      [Some (JNumber 1); Some (JNumber 2)] = (query, params) /\
    query = str "SELECT * FROM t WHERE a = ? AND b = " /\
    params = [JNumber 1; JNumber 2].
Proof.
  destruct (sql_template_placeholders (str "SELECT * FROM t WHERE a = ")
              [str " AND b = "; []] [Some (JNumber 1); Some (JNumber 2)]
              eq_refl) as (query & params & Hrun & Hq & Hp & _).
  exists query, params. split; [exact Hrun|]. split; [exact Hq|exact Hp].
Defined.

End SqlTag.

(** ** The sidebar's expanded set and the later route's table names *)

Section SidebarState.

(** X19: [toggleExpanded] flips the membership of the item it is given
    and of no other item, so toggling the same item twice gives back the
    set of expanded items. *)
Theorem toggleExpanded_flips_one expandedItems itemId :
  (itemId ∈ toggleExpanded expandedItems itemId <-> itemId ∉ expandedItems) /\
  (forall other, other <> itemId ->
     other ∈ toggleExpanded expandedItems itemId <-> other ∈ expandedItems) /\
  toggleExpanded (toggleExpanded expandedItems itemId) itemId = expandedItems.
Proof.
  assert (Hone : forall s : gset Z,
            (itemId ∈ toggleExpanded s itemId <-> itemId ∉ s) /\
            (forall other, other <> itemId ->
               other ∈ toggleExpanded s itemId <-> other ∈ s)).
  { intros s. unfold toggleExpanded. case_bool_decide as Hin.
    - split.
      + rewrite elem_of_difference, elem_of_singleton. tauto.
      + intros other Hne. rewrite elem_of_difference, elem_of_singleton. tauto.
    - split.
      + rewrite elem_of_union, elem_of_singleton. tauto.
      + intros other Hne. rewrite elem_of_union, elem_of_singleton. tauto. }
  split; [apply Hone|]. split; [apply Hone|].
  apply set_eq. intros j. destruct (decide (j = itemId)) as [->|Hne].
  - rewrite (proj1 (Hone _)), (proj1 (Hone _)).
    destruct (decide (itemId ∈ expandedItems)); tauto.
  - by rewrite (proj2 (Hone _) j Hne), (proj2 (Hone _) j Hne).
Qed.

(** X20: the table name of the later revision of the sidebar route.  It
    has at most 64 units, all of them in [a-z0-9_]; it is the normalised
    name when that one has at most 64 units; and normalising it again
    gives it back.  ([toLowerCase] is the runtime's; it is taken to leave
    strings over [a-z0-9_] as they are.) *)
Theorem normalize64_bounded_identifier (rt : JsRuntime) :
  (forall s, Forall (fun c => is_ident_char c = true) s -> toLowerCase s = s) ->
  forall name,
    (length (normalize64 name) <= 64)%nat /\
    Forall (fun c => is_ident_char c = true) (normalize64 name) /\
    ((length (normalize name) <= 64)%nat -> normalize64 name = normalize name) /\
    normalize64 (normalize64 name) = normalize64 name.
Proof.
  intros Hlower name.
  destruct (normalize64_total_idempotent rt Hlower name) as [Hchars Hidem].
  split; [|split; [exact Hchars|split; [|exact Hidem]]].
  - unfold normalize64. rewrite length_take. lia.
  - intros Hlen. unfold normalize64. by apply take_ge.
Qed.

Lemma normalize64_bounded_identifier_witness :
  (length (normalize64 (H := ascii_runtime) (str "Full  Name (2)!")) <= 64)%nat /\
  normalize64 (H := ascii_runtime) (str "Full  Name (2)!") = str "full_name_2".
Proof.
  destruct (normalize64_bounded_identifier ascii_runtime ascii_lower_fixes_ident
              (str "Full  Name (2)!")) as (Hlen & _ & Hsame & _).
  split; [exact Hlen|]. rewrite Hsame; [reflexivity|]. vm_compute. lia.
Defined.

End SidebarState.

(** ** The later table view, and rows that are read back *)

Section NestedGrid.
Import TableView.

Lemma list_find_by_field (rt : JsRuntime) (columns : list Column) c :
  NoDup (fieldName <$> columns) -> c ∈ columns ->
  exists i, list_find (fun col => fieldName col = fieldName c) columns = Some (i, c).
Proof.
  intros Hnd Hc. apply list_elem_of_lookup in Hc as [i Hi]. exists i.
  apply list_find_Some. split; [done|]. split; [done|].
  intros j y Hj Hlt Hy.
  assert (i = j); [|lia].
  apply (NoDup_lookup (fieldName <$> columns) i j (fieldName c)); [done| |].
  - by rewrite list_lookup_fmap, Hi.
  - by rewrite list_lookup_fmap, Hj, <- Hy.
Qed.



Lemma isoDate_nonempty d : isoDate d <> [].
Proof.
  unfold isoDate. intros Hnil. apply (f_equal length) in Hnil.
  rewrite !length_app in Hnil. simpl in Hnil. lia.
Qed.

(** A default that is falsy does not depend on the day it is resolved. *)
Lemma falsy_default_is_timeless now now' dataType defaultValue :
  truthy (Some (getDefaultValueForType now dataType defaultValue)) = false ->
  getDefaultValueForType now' dataType defaultValue =
  getDefaultValueForType now dataType defaultValue.
Proof.
  unfold getDefaultValueForType.
  destruct (truthy (JString <$> defaultValue)); [done|].
  repeat (case_bool_decide; [done|]).
  case_bool_decide; [|done].
  rewrite !split_T_toISOString. simpl.
  rewrite bool_decide_eq_false_2 by apply isoDate_nonempty. done.
Qed.



End NestedGrid.

(** ** Renaming, and creating through either revision *)

Section RenameAndCreate.
Import Store.



Lemma last_of_fresh {A} (key : A -> Z) (l : list A) (x : A) (k : Z) :
  key x = k ->
  Forall (fun y => key y < k) l ->
  head (filter (fun y => key y = k) (l ++ [x])) = Some x.
Proof.
  intros Hk Hfresh. rewrite filter_app, filter_none.
  - simpl. by rewrite filter_cons, decide_True.
  - eapply Forall_impl; [exact Hfresh|]. simpl. intros y Hy. lia.
Qed.

(** X25: creating through either revision.  On a store whose sequences
    are ahead of the ids in use, the MySQL revision's insert followed by
    the read of [LAST_INSERT_ID()] succeeds exactly when the PostgreSQL
    revision's [INSERT ... RETURNING] does, with the same row and the
    same store, for a sidebar item, for a dynamic table and for a row of
    a table that exists; and when either is refused, no row is stored.
    For a row of a table that does not exist both fail and store no row:
    the MySQL revision on its own lookup, with the store as it was, the
    PostgreSQL revision on the foreign key, with the id drawn for the
    row spent. *)
Theorem create_revisions_agree db :
  sequences_ahead db ->
  (forall name parent_id item_type icon sort_order,
     let mysql := MySql.createSidebarItem name parent_id item_type icon
                    sort_order db in
     let pg := Pg.createSidebarItem name parent_id item_type icon
                 sort_order db in
     (forall item db', mysql = (inr item, db') <-> pg = (inr item, db')) /\
     (forall e db', mysql = (inl e, db') -> same_rows db' db) /\
     (forall e db', pg = (inl e, db') -> same_rows db' db)) /\
  (forall sidebar_item_id table_name display_name description,
     let mysql := MySql.createDynamicTable sidebar_item_id table_name
                    display_name description db in
     let pg := Pg.createDynamicTable sidebar_item_id table_name display_name
                 description db in
     (forall table db', mysql = (inr table, db') <-> pg = (inr table, db')) /\
     (forall e db', mysql = (inl e, db') -> same_rows db' db) /\
     (forall e db', pg = (inl e, db') -> same_rows db' db)) /\
  (forall tableId rowData, table_exists db tableId ->
     exists row db',
       MySql.createTableRow tableId rowData db = (inr row, db') /\
       Pg.createTableRow tableId rowData db = (inr row, db')) /\
  (forall tableId rowData, ~ table_exists db tableId ->
     MySql.createTableRow tableId rowData db = (inl (TableNotFound tableId), db) /\
     exists e db',
       Pg.createTableRow tableId rowData db = (inl (SqlFailure e), db') /\
       same_rows db' db /\
       (int4 tableId ->
        e = ForeignKeyViolation /\
        seq_table_data db' = seq_table_data db + 1)).
Proof.
  intros (Hitems & Htables & _ & Hrows).
  split; [|split; [|split]].
  - intros name parent_id item_type icon sort_order. cbv zeta.
    unfold MySql.createSidebarItem, Pg.createSidebarItem, bind, insert_into,
      MySql.last_inserted_item, query, MySql.or_throw.
    destruct (insert_sidebar_item name parent_id item_type icon sort_order db)
      as [e|[row db1]] eqn:Hins.
    + split; [by split|].
      split; intros e' db' [= <- <-]; by destruct e.
    + apply insert_sidebar_item_row in Hins as (ty & _ & Hrow & ->).
      unfold select_item. simpl.
      rewrite (last_of_fresh si_id (sidebar_items db) row (seq_sidebar_items db))
        by (by rewrite ?Hrow).
      simpl. by repeat split.
  - intros sidebar_item_id table_name display_name description. cbv zeta.
    unfold MySql.createDynamicTable, Pg.createDynamicTable, bind, insert_into,
      MySql.last_inserted_table, query, MySql.or_throw.
    destruct (insert_dynamic_table sidebar_item_id table_name display_name
                description db) as [e|[t db1]] eqn:Hins.
    + split; [by split|].
      split; intros e' db' [= <- <-]; by destruct e.
    + apply insert_dynamic_table_stored in Hins as (Ht & ->). simpl.
      rewrite (last_of_fresh dt_id (dynamic_tables db) t (seq_dynamic_tables db))
        by (by rewrite ?Ht).
      simpl. by repeat split.
  - intros tableId rowData Hex.
    destruct (createTableRow_existing tableId rowData db Hrows Hex) as [Hpg Hmy].
    by eexists _, _.
  - intros tableId rowData Hno. split.
    + apply count_tables_zero in Hno.
      unfold MySql.createTableRow, try_catch, bind, query. by rewrite Hno.
    + rewrite (Pg_createTableRow_unknown_table _ _ _ Hno).
      case_bool_decide as Hint.
      * eexists _, _. split; [reflexivity|]. by repeat split.
      * eexists _, _. split; [reflexivity|]. by repeat split.
Qed.

Lemma create_revisions_agree_witness :
  exists item db',
    MySql.createSidebarItem (str "Reports") None (str "folder")
      (Some (str "folder")) 1 sample_db = (inr item, db') /\
    Pg.createSidebarItem (str "Reports") None (str "folder")
      (Some (str "folder")) 1 sample_db = (inr item, db') /\
    si_id item = 3.
Proof.
  destruct (create_revisions_agree sample_db sample_db_sequences_ahead)
    as [Hitem _].
  destruct (Hitem (str "Reports") None (str "folder") (Some (str "folder")) 1)
    as [Hiff _].
  eexists _, _. split; [|split].
  - apply Hiff. vm_compute. reflexivity.
  - vm_compute. reflexivity.
  - reflexivity.
Defined.

End RenameAndCreate.

(** ** Updates of an id that nothing has, and folders *)

Section UnknownIds.
Import Store.

Lemma fmap_unchanged {A} (f : A -> A) (l : list A) :
  (forall x, x ∈ l -> f x = x) -> f <$> l = l.
Proof.
  induction l as [|x l IH]; intros Hf; [done|].
  rewrite fmap_cons, Hf by (apply elem_of_cons; by left).
  rewrite IH; [done|]. intros y Hy. apply Hf, elem_of_cons. by right.
Qed.

Lemma head_filter_None {A} (P : A -> Prop) `{forall x, Decision (P x)}
    (l : list A) :
  head (filter P l) = None -> forall x, x ∈ l -> ~ P x.
Proof.
  intros Hnone x Hx Hp.
  assert (Hin : x ∈ filter P l) by (by apply list_elem_of_filter).
  destruct (filter P l); [by apply elem_of_nil in Hin|done].
Qed.

Lemma same_store db items tables cols rows :
  items = sidebar_items db -> tables = dynamic_tables db ->
  cols = table_columns db -> rows = table_data db ->
  mkDB items tables cols rows (seq_sidebar_items db) (seq_dynamic_tables db)
    (seq_table_columns db) (seq_table_data db) (last_insert_id db) (clock db)
    (schema db) = db.
Proof. intros -> -> -> ->. by destruct db. Qed.




End UnknownIds.
